(** * Cell-Culture: the bioreactor environment model ([bioreactor.py]) and
    the instruments ([assays.py])

    A shallow embedding of [agitator] and [bioreactor] and the properties
    the specification states about them; and of the probes, the analyser,
    the cell counter and the wrapper of [assays.py], with further properties
    of both modules.

    Conventions of the embedding.
    - The source computes with [quantities.Quantity] values and Python
      floats.  The quantity package is an external collaborator; here a
      quantity is its magnitude, a real number, [Q v unit] is [v], and
      [.simplified] and [float(...)] are the identity.  The exception is
      [pH], which adds plain numbers to quantities that were not
      simplified: there the package rescales one operand, and the model
      follows the units (see [operand]), with the amounts in millimoles and
      the volume in litres as [__init__] creates them.  Rounding is not
      modelled: arithmetic is that of the real numbers.  The one place
      written in double precision is [pH_log_arg_binary64], where the
      rounding decides whether the logarithm is defined.
    - Operations that have no value on part of their domain (division by a
      variable, [math.sqrt], [math.log10], [**] with a float exponent,
      dictionary lookup, reading an attribute that was never assigned) are
      partial: they return a [result].  A division by zero is [Raise
      ZeroDivisionError], whether Python would raise or numpy would carry on
      with inf or nan.
    - [self] is mutated in place; a method is a function from the object
      to the object after the call and the outcome of the call, so that the
      mutations made before an exception are kept.
    - A dictionary is a [gmap string R].  In [step] and [run] an actuation
      command is passed and remembered as a value: the caller is taken not
      to mutate a command after it was passed.  [run_objects] drops this
      assumption and follows the dictionaries of the caller in a heap.
    - [current_time] and [param.resolution] are real numbers, like every
      other quantity.
    - The module [param] holds the configuration of a run; its attributes
      are the fields of the record [param], which every function that reads
      them takes as an argument. *)

From Stdlib Require Import PrimFloat.
From Stdlib Require Import Reals Lra.
From stdpp Require Import gmap strings list fin_maps.

Open Scope R_scope.

(** ** Outcomes of a call *)

Inductive exn : Type :=
| KeyError (key : string)
| AttributeError (attr : string)
| ZeroDivisionError
| ValueError (msg : string).

Inductive result (A : Type) : Type :=
| Ok (a : A)
| Raise (e : exn).
Arguments Ok {A} a.
Arguments Raise {A} e.

#[global] Instance result_ret : MRet result := λ A a, Ok a.
#[global] Instance result_bind : MBind result :=
  λ A B f m, match m with Ok a => f a | Raise e => Raise e end.

(** ** Real numbers as the code uses them *)

#[global] Instance R_eq_dec : EqDecision R := Req_dec_T.
#[global] Instance Rlt_decision (x y : R) : Decision (x < y) := Rlt_dec x y.

(** [Q(v, 'unit')] *)
Definition Q (magnitude : R) (unit : string) : R := magnitude.

(** A quantity whose unit the model keeps: the value [kla_func] returns. *)
Record quantity : Type := { magnitude : R; units : string }.

(** [x / y] for a divisor that is not a literal *)
Definition qdiv (x y : R) : result R :=
  if decide (y = 0) then Raise ZeroDivisionError else Ok (x / y).

(** [x ** y] for a float exponent [y]: a real number for a positive base,
    for a zero base unless the exponent is negative, and for a negative base
    only when the exponent is a whole number.  Elsewhere there is none
    (Python raises or answers with a complex number, numpy with inf or nan)
    and the model raises. *)
Definition fpow (x y : R) : result R :=
  if decide (0 < x) then Ok (Rpower x y)
  else if decide (x = 0) then
    if decide (0 < y) then Ok 0
    else if decide (y = 0) then Ok 1
    else Raise ZeroDivisionError
  else if decide (y = IZR (Int_part y)) then Ok (powerRZ x (Int_part y))
  else Raise (ValueError "negative base, fractional exponent").

(** The value of [x ** y] where [fpow] has one. *)
Definition pow_val (x y : R) : R :=
  if decide (0 < x) then Rpower x y
  else if decide (x = 0) then (if decide (y = 0) then 1 else 0)
  else powerRZ x (Int_part y).

(** [math.sqrt] *)
Definition math_sqrt (x : R) : result R :=
  if decide (x < 0) then Raise (ValueError "math domain error") else Ok (sqrt x).

Definition log10 (x : R) : R := ln x / ln 10.

(** [math.log10] *)
Definition math_log10 (x : R) : result R :=
  if decide (0 < x) then Ok (log10 x) else Raise (ValueError "math domain error").

(** [d[k]] *)
Definition getitem (d : gmap string R) (k : string) : result R :=
  match d !! k with
  | Some v => Ok v
  | None => Raise (KeyError k)
  end.

(** [sum(l)] *)
Definition sum (l : list R) : R := foldl Rplus 0 l.

(** [s[1:]] *)
Definition drop1 (s : string) : string :=
  match s with
  | EmptyString => EmptyString
  | String _ rest => rest
  end.

(** ** Plain numbers and quantities that were not simplified

    [pH] adds plain Python numbers ([10**-14], the value of [math.sqrt]) to
    quantities that were never simplified, and there the unit of a quantity
    changes what is computed.  The amounts of [self.mole] are in millimoles
    and the working volume is in litres, the units in which [__init__]
    creates them, so that [mole / working_volume / Q(1, 'M')] is a quantity
    in the unit mmol/(L*M): dimensionless, but worth 1/1000.  When the two
    operands of [+] or [-] differ in unit, the package rescales the other
    operand to the unit of the quantity (of the left quantity, if both are
    quantities); [float], [math.sqrt] and [math.log10] read the magnitude
    of a quantity in whatever unit it has.

    [Plain x] is the Python number [x], and [Scaled power x] the quantity of
    magnitude [x] in the unit (mmol/(L*M))^[power]. *)
Inductive operand : Type :=
| Plain (x : R)
| Scaled (power : nat) (x : R).

(** The magnitude of an operand once rescaled to the unit
    (mmol/(L*M))^[power]. *)
Definition in_unit (power : nat) (o : operand) : R :=
  match o with
  | Plain x => x * 1000 ^ power
  | Scaled q x => x * 1000 ^ power / 1000 ^ q
  end.

(** [a + b] *)
Definition q_add (a b : operand) : operand :=
  match a, b with
  | Plain x, Plain y => Plain (x + y)
  | Plain x, Scaled q y => Scaled q (in_unit q (Plain x) + y)
  | Scaled p x, _ => Scaled p (x + in_unit p b)
  end.

(** [a - b] *)
Definition q_sub (a b : operand) : operand :=
  match a, b with
  | Plain x, Plain y => Plain (x - y)
  | Plain x, Scaled q y => Scaled q (in_unit q (Plain x) - y)
  | Scaled p x, _ => Scaled p (x - in_unit p b)
  end.

(** [-a] *)
Definition q_neg (a : operand) : operand :=
  match a with
  | Plain x => Plain (- x)
  | Scaled p x => Scaled p (- x)
  end.

(** [a / 2] *)
Definition q_halve (a : operand) : operand :=
  match a with
  | Plain x => Plain (x / 2)
  | Scaled p x => Scaled p (x / 2)
  end.

(** [a ** 2] *)
Definition q_square (a : operand) : operand :=
  match a with
  | Plain x => Plain (x ^ 2)
  | Scaled p x => Scaled (2 * p) (x ^ 2)
  end.

(** [sum(l)], which starts from the number 0 *)
Definition q_sum (l : list operand) : operand := foldl q_add (Plain 0) l.

(** [float(a)], and what [math.sqrt] and [math.log10] make of [a] *)
Definition to_float (a : operand) : R :=
  match a with
  | Plain x => x
  | Scaled _ x => x
  end.

(** ** The module [param] *)

Record param : Type := {
  liquid_components : list string;
  gas_components : list string;
  kla_ratio : gmap string R;
  resolution : R;
  q_res : R;
  viscosity : R;
  positively_charged : list string;
  negatively_charged : list string;
  environment_temperature : R;
  volumetric_heat_capacity : R;
  actual_cc_density : R;
  gravity : R
}.

(** [solubility], the module-level table of temperature-dependent
    solubilities. *)
Definition solubility (component : string) : result (R → R) :=
  if decide (component = "dO2") then Ok (λ t, Q (1.58 - t * 0.015) "mM/atm")
  else if decide (component = "dCO2") then Ok (λ t, Q (48.39 - t * 0.61) "mM/atm")
  else Raise (KeyError component).

(** ** class agitator *)

Record agitator : Type := {
  ag_type : string;
  ag_number : Z;
  ag_diameter : R;
  ag_width : R;
  ag_power_number : R;
  ag_ungassed_power_coeff : R
}.

(** [agitator.__init__] *)
Definition agitator_init (impeller_type : string) (number : Z)
    (diameter width : R) : result agitator :=
  power_number ←
    (if decide (impeller_type = "rushton") then Ok 5.5
     else if decide (impeller_type = "marine") then Ok 2.2
     else Raise (ValueError "impeller not recognized!"));
  Ok {| ag_type := impeller_type;
        ag_number := number;
        ag_diameter := diameter;
        ag_width := width;
        ag_power_number := power_number;
        ag_ungassed_power_coeff := power_number * Q 1000 "kg/m**3" * diameter ^ 5 |}.

(** [agitator.ungassed_power] *)
Definition ungassed_power (ag : agitator) (RPS : R) : R :=
  RPS ^ 3 * ag_ungassed_power_coeff ag.

(** ** The kLa closure

    [create_kla_function] returns a closure over the constants it computes
    and over [self]; the record holds the constants, and the agitator, which
    the closure reads through [self], is passed at the call. *)

Record kla_closure : Type := {
  diam_ratio : R;
  A : R;
  B : R;
  C : R;
  froude_coeff : R;
  kla_CSA : R
}.

(** [bioreactor.create_kla_function] *)
Definition create_kla_function (ag : agitator) (diameter : R) : result kla_closure :=
  diam_ratio ← qdiv (ag_diameter ag) diameter;
  let A := 5.3 * exp (-5.4 * diam_ratio) in
  ratio_pow ← fpow diam_ratio 1.3;
  let B := 0.47 * ratio_pow in
  let C := 0.64 - 1.1 * diam_ratio in
  let froude_coeff := ag_diameter ag / Q 9.81 "m/s**2" in
  let CSA := PI * diameter ^ 2 / 4 in
  Ok {| diam_ratio := diam_ratio; A := A; B := B; C := C;
        froude_coeff := froude_coeff; kla_CSA := CSA |}.

Section WithParam.

Variable P : param.

(** The inner function [kla_func] of [create_kla_function]. *)
Definition kla_func (cl : kla_closure) (ag : agitator)
    (RPS gas_flow working_volume : R) : result quantity :=
  let froude := froude_coeff cl * RPS ^ 2 in
  aeration ← qdiv gas_flow (RPS * ag_diameter ag ^ 3);
  let ungassed := ungassed_power ag RPS in
  froude_pow ← fpow froude 0.25;
  let lower_gassed_power :=
    ungassed * (1 - (B cl - A cl * viscosity P / Q 1 "Pa*s") * froude_pow
                    * tanh (C cl * aeration)) in
  aeration_pow ← fpow aeration (C cl + 0.04 * froude);
  let upper_gassed_power :=
    (IZR (ag_number ag) - 1) * ungassed
    * (1 - (A cl + B cl * froude) * aeration_pow) in
  superficial_velocity ← qdiv gas_flow (kla_CSA cl);
  power_per_volume ← qdiv (lower_gassed_power + upper_gassed_power) working_volume;
  power_pow ← fpow power_per_volume 0.39;
  velocity_pow ← fpow superficial_velocity 0.79;
  let kla := 1080 * power_pow * velocity_pow in
  Ok {| magnitude := kla; units := "1/min" |}.

(** ** class bioreactor

    The attributes [kla], [gas_percentages], [mean_shear] and [max_shear]
    are first assigned by [check_and_update]; until then they are absent. *)

Record bioreactor : Type := {
  volume : R;
  working_volume : R;
  br_agitator : agitator;
  CSA : R;
  diameter : R;
  current_time : R;
  sparger_pore_size : R;
  br_kla_func : kla_closure;
  old : gmap string R;
  pressure : R;
  mole : gmap string R;
  sparger_height : R;
  temperature : R;
  overall_heat_transfer_coeff : R;
  kla : option R;
  gas_percentages : option (gmap string R);
  mean_shear : option R;
  max_shear : option R
}.

Definition set_working_volume (v : R) (self : bioreactor) : bioreactor :=
  {| volume := volume self; working_volume := v; br_agitator := br_agitator self;
     CSA := CSA self; diameter := diameter self; current_time := current_time self;
     sparger_pore_size := sparger_pore_size self; br_kla_func := br_kla_func self;
     old := old self; pressure := pressure self; mole := mole self;
     sparger_height := sparger_height self; temperature := temperature self;
     overall_heat_transfer_coeff := overall_heat_transfer_coeff self;
     kla := kla self; gas_percentages := gas_percentages self;
     mean_shear := mean_shear self; max_shear := max_shear self |}.

Definition set_current_time (v : R) (self : bioreactor) : bioreactor :=
  {| volume := volume self; working_volume := working_volume self;
     br_agitator := br_agitator self;
     CSA := CSA self; diameter := diameter self; current_time := v;
     sparger_pore_size := sparger_pore_size self; br_kla_func := br_kla_func self;
     old := old self; pressure := pressure self; mole := mole self;
     sparger_height := sparger_height self; temperature := temperature self;
     overall_heat_transfer_coeff := overall_heat_transfer_coeff self;
     kla := kla self; gas_percentages := gas_percentages self;
     mean_shear := mean_shear self; max_shear := max_shear self |}.

Definition set_old (v : gmap string R) (self : bioreactor) : bioreactor :=
  {| volume := volume self; working_volume := working_volume self;
     br_agitator := br_agitator self;
     CSA := CSA self; diameter := diameter self; current_time := current_time self;
     sparger_pore_size := sparger_pore_size self; br_kla_func := br_kla_func self;
     old := v; pressure := pressure self; mole := mole self;
     sparger_height := sparger_height self; temperature := temperature self;
     overall_heat_transfer_coeff := overall_heat_transfer_coeff self;
     kla := kla self; gas_percentages := gas_percentages self;
     mean_shear := mean_shear self; max_shear := max_shear self |}.

Definition set_mole (v : gmap string R) (self : bioreactor) : bioreactor :=
  {| volume := volume self; working_volume := working_volume self;
     br_agitator := br_agitator self;
     CSA := CSA self; diameter := diameter self; current_time := current_time self;
     sparger_pore_size := sparger_pore_size self; br_kla_func := br_kla_func self;
     old := old self; pressure := pressure self; mole := v;
     sparger_height := sparger_height self; temperature := temperature self;
     overall_heat_transfer_coeff := overall_heat_transfer_coeff self;
     kla := kla self; gas_percentages := gas_percentages self;
     mean_shear := mean_shear self; max_shear := max_shear self |}.

Definition set_temperature (v : R) (self : bioreactor) : bioreactor :=
  {| volume := volume self; working_volume := working_volume self;
     br_agitator := br_agitator self;
     CSA := CSA self; diameter := diameter self; current_time := current_time self;
     sparger_pore_size := sparger_pore_size self; br_kla_func := br_kla_func self;
     old := old self; pressure := pressure self; mole := mole self;
     sparger_height := sparger_height self; temperature := v;
     overall_heat_transfer_coeff := overall_heat_transfer_coeff self;
     kla := kla self; gas_percentages := gas_percentages self;
     mean_shear := mean_shear self; max_shear := max_shear self |}.

Definition set_kla (v : R) (self : bioreactor) : bioreactor :=
  {| volume := volume self; working_volume := working_volume self;
     br_agitator := br_agitator self;
     CSA := CSA self; diameter := diameter self; current_time := current_time self;
     sparger_pore_size := sparger_pore_size self; br_kla_func := br_kla_func self;
     old := old self; pressure := pressure self; mole := mole self;
     sparger_height := sparger_height self; temperature := temperature self;
     overall_heat_transfer_coeff := overall_heat_transfer_coeff self;
     kla := Some v; gas_percentages := gas_percentages self;
     mean_shear := mean_shear self; max_shear := max_shear self |}.

Definition set_gas_percentages (v : gmap string R) (self : bioreactor) : bioreactor :=
  {| volume := volume self; working_volume := working_volume self;
     br_agitator := br_agitator self;
     CSA := CSA self; diameter := diameter self; current_time := current_time self;
     sparger_pore_size := sparger_pore_size self; br_kla_func := br_kla_func self;
     old := old self; pressure := pressure self; mole := mole self;
     sparger_height := sparger_height self; temperature := temperature self;
     overall_heat_transfer_coeff := overall_heat_transfer_coeff self;
     kla := kla self; gas_percentages := Some v;
     mean_shear := mean_shear self; max_shear := max_shear self |}.

Definition set_mean_shear (v : R) (self : bioreactor) : bioreactor :=
  {| volume := volume self; working_volume := working_volume self;
     br_agitator := br_agitator self;
     CSA := CSA self; diameter := diameter self; current_time := current_time self;
     sparger_pore_size := sparger_pore_size self; br_kla_func := br_kla_func self;
     old := old self; pressure := pressure self; mole := mole self;
     sparger_height := sparger_height self; temperature := temperature self;
     overall_heat_transfer_coeff := overall_heat_transfer_coeff self;
     kla := kla self; gas_percentages := gas_percentages self;
     mean_shear := Some v; max_shear := max_shear self |}.

Definition set_max_shear (v : R) (self : bioreactor) : bioreactor :=
  {| volume := volume self; working_volume := working_volume self;
     br_agitator := br_agitator self;
     CSA := CSA self; diameter := diameter self; current_time := current_time self;
     sparger_pore_size := sparger_pore_size self; br_kla_func := br_kla_func self;
     old := old self; pressure := pressure self; mole := mole self;
     sparger_height := sparger_height self; temperature := temperature self;
     overall_heat_transfer_coeff := overall_heat_transfer_coeff self;
     kla := kla self; gas_percentages := gas_percentages self;
     mean_shear := mean_shear self; max_shear := Some v |}.

(** The argument [cells] of [step]: a dictionary with the keys
    ['total_cells'], ['volume'] and ['mass_transfer']. *)
Record cells_state : Type := {
  total_cells : R;
  cell_volume : R;
  mass_transfer : gmap string R
}.

(** *** Methods: the object before, the object after, the outcome *)

Definition M (X : Type) : Type := bioreactor → bioreactor * result X.

#[global] Instance M_ret : MRet M := λ X x self, (self, Ok x).
#[global] Instance M_bind : MBind M :=
  λ X Y f m self,
    match m self with
    | (self', Ok x) => f x self'
    | (self', Raise e) => (self', Raise e)
    end.

(** A computation that does not touch the object. *)
Definition pure {X : Type} (r : result X) : M X := λ self, (self, r).
(** Reading [self]. *)
Definition get : M bioreactor := λ self, (self, Ok self).
(** An assignment to an attribute of [self]. *)
Definition assign (f : bioreactor → bioreactor) : M unit := λ self, (f self, Ok tt).
(** Reading an attribute that may not have been assigned yet. *)
Definition getattr {X : Type} (name : string) (field : bioreactor → option X) : M X :=
  λ self, match field self with
          | Some x => (self, Ok x)
          | None => (self, Raise (AttributeError name))
          end.

(** [for x in l: body(x)] *)
Fixpoint for_each {X : Type} (l : list X) (body : X → M unit) : M unit :=
  match l with
  | [] => mret tt
  | x :: rest => body x ;; for_each rest body
  end.

(** [bioreactor.update_shear] *)
Definition update_shear (RPS : R) : M unit :=
  self ← get;
  quotient ← pure (qdiv (ag_diameter (br_agitator self)) (diameter self));
  ratio ← pure (fpow quotient 0.3);
  shear ← pure (qdiv (4.2 * RPS * ratio * ag_diameter (br_agitator self))
                     (ag_width (br_agitator self)));
  assign (set_mean_shear (Q shear "1/s"));;
  mean ← getattr "mean_shear" mean_shear;
  assign (set_max_shear (mean / 4.2 * 9.7)).

(** The first loop of [calc_gas_percentages]: the total flow. *)
Fixpoint total_flow (actuation : gmap string R) (components : list string)
    (total : R) : result R :=
  match components with
  | [] => Ok total
  | component :: rest =>
      flow ← getitem actuation component;
      total_flow actuation rest (total + flow)
  end.

(** The second loop of [calc_gas_percentages]: the fraction of each flow. *)
Fixpoint fractions (actuation : gmap string R) (components : list string)
    (total : R) (percent : gmap string R) : result (gmap string R) :=
  match components with
  | [] => Ok percent
  | component :: rest =>
      flow ← getitem actuation component;
      fraction ← qdiv flow total;
      fractions actuation rest total (<["d" +:+ component := fraction]> percent)
  end.

(** [bioreactor.calc_gas_percentages]; it does not read [self]. *)
Definition calc_gas_percentages (actuation : gmap string R) : result (gmap string R) :=
  total ← total_flow actuation (gas_components P) (Q 0 "L/min");
  percent ← fractions actuation (gas_components P) total ∅;
  (* Assume N2 is irrelevant *)
  dO2 ← getitem percent "dO2";
  dair ← getitem percent "dair";
  let percent := <["dO2" := dO2 + dair * 0.21]> percent in
  dCO2 ← getitem percent "dCO2";
  dair ← getitem percent "dair";
  let percent := <["dCO2" := dCO2 + dair * 0.00045]> percent in
  Ok percent.

(** [bioreactor.check_and_update] *)
Definition check_and_update (actuation : gmap string R) : M unit :=
  assign (λ self, set_current_time (current_time self + resolution P) self);;
  self ← get;
  unchanged ←
    (if decide (actuation = old self) then
       liquid_volume ← pure (getitem actuation "liquid_volume");
       mret (bool_decide (liquid_volume = Q 0 "L/min"))
     else mret false);
  if negb unchanged then
    assign (set_old actuation);;
    RPS ← pure (getitem actuation "RPS");
    gas_volume ← pure (getitem actuation "gas_volume");
    self ← get;
    new_kla ← pure (kla_func (br_kla_func self) (br_agitator self) RPS gas_volume
                             (working_volume self));
    assign (set_kla (magnitude new_kla));;
    percentages ← pure (calc_gas_percentages actuation);
    assign (set_gas_percentages percentages);;
    RPS ← pure (getitem actuation "RPS");
    update_shear RPS
  else mret tt.

(** [bioreactor.total_moles] *)
Definition total_moles (self : bioreactor) : R :=
  foldl Rplus (Q 0 "mmol") (snd <$> map_to_list (mole self)).

(** The list comprehension of [pH]: the molar concentration of every
    species of [self.mole] that is in [charged]. *)
Fixpoint concentrations (working_volume : R) (charged : list string)
    (species : list (string * R)) : result (list R) :=
  match species with
  | [] => Ok []
  | (name, amount) :: rest =>
      if decide (name ∈ charged) then
        concentration ← qdiv amount working_volume;
        others ← concentrations working_volume charged rest;
        Ok (concentration / Q 1 "M" :: others)
      else concentrations working_volume charged rest
  end.

(** [net_charge] in [pH]: each sum is the number 0 if no species of
    [self.mole] is in the list, and a quantity in mmol/(L*M) otherwise. *)
Definition net_charge (self : bioreactor) : result operand :=
  positive ← concentrations (working_volume self) (positively_charged P)
                            (map_to_list (mole self));
  negative ← concentrations (working_volume self) (negatively_charged P)
                            (map_to_list (mole self));
  let positive_charge := q_sum (Scaled 1 <$> positive) in
  let negative_charge := q_sum (Scaled 1 <$> negative) in
  Ok (q_sub positive_charge negative_charge).

(** The argument of [math.sqrt] in [pH]. *)
Definition pH_sqrt_arg (self : bioreactor) (net_charge : operand)
    : result operand :=
  dCO2 ← getitem (mole self) "dCO2";
  carbonic ← qdiv (Rpower 10 (-6.36) * 1.0017 * dCO2) (working_volume self);
  Ok (q_add (q_add (q_square (q_halve net_charge)) (Plain (powerRZ 10 (-14))))
            (Scaled 1 (carbonic / Q 1 "M"))).

(** The argument of [math.log10] in [pH]. *)
Definition pH_log_arg (self : bioreactor) (net_charge : operand)
    : result operand :=
  radicand ← pH_sqrt_arg self net_charge;
  root ← math_sqrt (to_float radicand);
  Ok (q_add (q_halve (q_neg net_charge)) (Plain root)).

(** [bioreactor.pH]; it does not assign to [self]. *)
Definition pH (self : bioreactor) : result R :=
  net ← net_charge self;
  argument ← pH_log_arg self net;
  logarithm ← math_log10 (to_float argument);
  Ok (- logarithm).

(** [self.mole[component] = amount] *)
Definition setitem_mole (component : string) (amount : R) (self : bioreactor)
    : bioreactor :=
  set_mole (<[component := amount]> (mole self)) self.

(** The body of the loop of [step] over [param.liquid_components]. *)
Definition update_component (actuation : gmap string R) (cells : cells_state)
    (component : string) : M unit :=
  if decide (drop1 component ∈ gas_components P) then
    percentages ← getattr "gas_percentages" gas_percentages;
    percentage ← pure (getitem percentages component);
    self ← get;
    solubility_of ← pure (solubility component);
    let C_star := percentage * pressure self * solubility_of (temperature self) in
    cached ← getattr "kla" kla;
    ratio ← pure (getitem (kla_ratio P) component);
    let kLa := cached * ratio in
    let transfer_coeff := exp (- kLa * q_res P) in
    amount ← pure (getitem (mole self) component);
    uptake ← pure (getitem (mass_transfer cells) component);
    per_kLa ← pure (qdiv uptake kLa);
    assign (setitem_mole component
              (transfer_coeff * amount
               + (1 - transfer_coeff) * (C_star * working_volume self - per_kLa)))
  else
    transfer_rate ← pure (getitem actuation component);
    self ← get;
    amount ← pure (getitem (mole self) component);
    uptake ← pure (getitem (mass_transfer cells) component);
    assign (setitem_mole component (amount + (transfer_rate + uptake) * q_res P)).

(** The last loop of [step]: the concentration of every liquid component. *)
Fixpoint add_concentrations (self : bioreactor) (components : list string)
    (environment : gmap string R) : result (gmap string R) :=
  match components with
  | [] => Ok environment
  | component :: rest =>
      amount ← getitem (mole self) component;
      concentration ← qdiv amount (working_volume self);
      add_concentrations self rest (<[component := concentration]> environment)
  end.

(** [bioreactor.step].  The message printed when [cell_fraction > 1] goes to
    the standard output and changes neither [self] nor the value returned;
    it is left out. *)
Definition step (actuation : gmap string R) (cells : cells_state)
    : M (gmap string R) :=
  check_and_update actuation;;
  self ← get;
  cell_fraction ← pure (qdiv (total_cells cells * cell_volume cells / Q 1 "ce")
                             (working_volume self));
  for_each (liquid_components P) (update_component actuation cells);;
  liquid_volume ← pure (getitem actuation "liquid_volume");
  assign (λ self, set_working_volume
                    (working_volume self + liquid_volume * q_res P) self);;
  (* Temperature *)
  heat ← pure (getitem actuation "heat");
  self ← get;
  let heat_transfer :=
    heat + (environment_temperature P - temperature self)
           * overall_heat_transfer_coeff self in
  warming ← pure (qdiv (heat_transfer * q_res P)
                       (working_volume self * volumetric_heat_capacity P));
  assign (λ self, set_temperature (temperature self + warming) self);;
  self ← get;
  osmo ← pure (qdiv (total_moles self) (working_volume self * (1 - cell_fraction)));
  (* Build output *)
  shear ← getattr "mean_shear" mean_shear;
  highest ← getattr "max_shear" max_shear;
  acidity ← pure (pH self);
  let environment : gmap string R :=
    <["time" := current_time self]>
    (<["temperature" := temperature self]>
    (<["pH" := acidity]>
    (<["mOsm" := osmo]>
    (<["volume" := working_volume self]>
    (<["max_shear" := highest]>
    (<["shear" := shear]> ∅)))))) in
  pure (add_concentrations self (liquid_components P) environment).

(** [bioreactor.__init__].  The defaults of the optional arguments are
    supplied by the caller; [cell_separation_device] is not used. *)
Definition bioreactor_init (start_time : R) (initial_components : gmap string R)
    (seed_volume initial_temperature volume : R) (ag : agitator)
    (diameter sparger_height sparger_pore_size head_pressure
     heat_transfer_coeff : R) : result bioreactor :=
  let CSA := diameter ^ 2 / 4 * PI in
  closure ← create_kla_function ag diameter;
  let pressure :=
    sparger_height / 2 * actual_cc_density P * gravity P + head_pressure in
  let mole : gmap string R :=
    foldl (λ m component, <[component := Q 0 "millimole"]> m) ∅
          (liquid_components P) in
  let mole := initial_components ∪ mole in
  height ← qdiv volume CSA;
  Ok {| volume := volume; working_volume := seed_volume; br_agitator := ag;
        CSA := CSA; diameter := diameter; current_time := start_time;
        sparger_pore_size := sparger_pore_size; br_kla_func := closure;
        old := ∅; pressure := pressure; mole := mole;
        sparger_height := sparger_height; temperature := initial_temperature;
        overall_heat_transfer_coeff :=
          heat_transfer_coeff * (2 * CSA + height * PI * diameter);
        kla := None; gas_percentages := None;
        mean_shear := None; max_shear := None |}.

(** A simulation run: [step] is called on each input in turn, on the same
    object, until the inputs are used up or a call raises.  The result is
    the object at the end, the snapshots returned, and the exception if a
    call raised. *)
Fixpoint run (inputs : list (gmap string R * cells_state)) (self : bioreactor)
    : bioreactor * list (gmap string R) * option exn :=
  match inputs with
  | [] => (self, [], None)
  | (actuation, cells) :: rest =>
      match step actuation cells self with
      | (self', Ok environment) =>
          let '(final, environments, raised) := run rest self' in
          (final, environment :: environments, raised)
      | (self', Raise e) => (self', [], Some e)
      end
  end.

End WithParam.

(** ** The argument of the logarithm in double precision

    The last line of [pH] in binary64, the arithmetic of Python floats and
    of the magnitudes of quantities, for a reactor whose amounts are in
    moles: then [mole / working_volume / Q(1, 'M')] is in mol/(L*M), a unit
    worth 1, and rescaling a plain number to it changes nothing.
    [net_charge] is the magnitude of the net charge and [carbonic] that of
    [10**-6.36*1.0017*self.mole['dCO2']/self.working_volume/Q(1, 'M')]. *)

(** [10**-14]: the double nearest to one hundred-million-millionth. *)
Definition ten_to_minus_14 : float := 0x1.6849b86a12b9bp-47%float.

(** A square is exact where it is a double, so that [x ** 2] is [x * x]
    there whichever way the power is computed. *)
Definition pH_sqrt_arg_binary64 (net_charge carbonic : float) : float :=
  ((net_charge / 2) * (net_charge / 2) + ten_to_minus_14 + carbonic)%float.

Definition pH_log_arg_binary64 (net_charge carbonic : float) : float :=
  (- net_charge / 2
   + PrimFloat.sqrt (pH_sqrt_arg_binary64 net_charge carbonic))%float.

(** ** Commands as objects

    [check_and_update] keeps the command it was passed by reference:
    [self.old = actuation] makes [self.old] the caller's dictionary itself,
    not a copy of it.  If the caller changes that dictionary afterwards,
    [self.old] changes with it, and the comparison [actuation == self.old]
    of the next call reads its present content.  To follow this the
    dictionaries of the caller are kept in a heap, under addresses.  Before
    a call the caller writes a command into the dictionary at an address, a
    new dictionary or one it has passed before, and passes that
    dictionary. *)
Definition heap : Type := gmap nat (gmap string R).

(** A reactor together with the address of the dictionary that [self.old]
    is; [None] while it is the empty dictionary that [__init__] made.  The
    field [old] of the reactor is the content of that dictionary when the
    last call ended. *)
Record held : Type := {
  reactor : bioreactor;
  remembered : option nat
}.

(** The reactor as [__init__] returns it. *)
Definition constructed (self : bioreactor) : held :=
  {| reactor := self; remembered := None |}.

(** The content of [self.old] now. *)
Definition current_old (h : heap) (s : held) : gmap string R :=
  match remembered s with
  | Some address => default (old (reactor s)) (h !! address)
  | None => old (reactor s)
  end.

(** Whether [check_and_update] gets to [self.old = actuation]: the guard
    [not (actuation == self.old and actuation['liquid_volume'] == 0)],
    which raises, and assigns nothing, if the command is the remembered one
    and has no liquid feed rate. *)
Definition assigns_old (actuation remembered_command : gmap string R) : bool :=
  if decide (actuation = remembered_command) then
    match actuation !! "liquid_volume" with
    | Some liquid_volume => negb (bool_decide (liquid_volume = Q 0 "L/min"))
    | None => false
    end
  else true.

Section Objects.

Variable P : param.

(** A call of [step] on the dictionary at [address], which holds the command
    [actuation]. *)
Definition step_object (address : nat) (actuation : gmap string R)
    (cells : cells_state) (h : heap) (s : held)
    : held * result (gmap string R) :=
  let self := set_old (current_old h s) (reactor s) in
  let '(after, outcome) := step P actuation cells self in
  ({| reactor := after;
      remembered :=
        if assigns_old actuation (old self) then Some address else remembered s |},
   outcome).

(** A simulation run in which the caller, before each call, writes the
    command into the dictionary at the address given with it and passes that
    dictionary.  The result is as that of [run]. *)
Fixpoint run_objects (inputs : list (nat * gmap string R * cells_state))
    (h : heap) (s : held) : held * list (gmap string R) * option exn :=
  match inputs with
  | [] => (s, [], None)
  | (address, actuation, cells) :: rest =>
      let h := <[address := actuation]> h in
      match step_object address actuation cells h s with
      | (s', Ok environment) =>
          let '(final, environments, raised) := run_objects rest h s' in
          (final, environment :: environments, raised)
      | (s', Raise e) => (s', [], Some e)
      end
  end.

End Objects.

(** The commands and cell states a run is fed, and the dictionaries it is
    fed them in. *)
Definition commands (inputs : list (nat * gmap string R * cells_state))
    : list (gmap string R * cells_state) :=
  (λ input, (input.1.2, input.2)) <$> inputs.

Definition addresses (inputs : list (nat * gmap string R * cells_state))
    : list nat :=
  (λ input, input.1.1) <$> inputs.

(** What a run shows: the reactor at the end, the snapshots and the
    exception, if one was raised. *)
Definition outcome_of (r : held * list (gmap string R) * option exn)
    : bioreactor * list (gmap string R) * option exn :=
  (reactor r.1.1, r.1.2, r.2).

(** ** Observations of the object across a call *)

(** [preserves f m]: the call [m] leaves the observation [f] of the object
    as it was, whether it returns or raises. *)
Definition preserves {Y X : Type} (f : bioreactor → Y) (m : M X) : Prop :=
  ∀ self, f (m self).1 = f self.

(** ** The formulas of the specification *)

(** The relaxation rule for a gas-exchanged species:
    [e^(-kLa_i dt) moles + (1 - e^(-kLa_i dt)) (C_star V - uptake_i / kLa_i)]. *)
Definition relaxation (kLa_i dt moles C_star V uptake_i : R) : R :=
  exp (- (kLa_i * dt)) * moles
  + (1 - exp (- (kLa_i * dt))) * (C_star * V - uptake_i / kLa_i).

(** What the update of a gas-exchanged species reads besides the amounts. *)
Definition conditions (self : bioreactor) :=
  (kla self, gas_percentages self, pressure self, temperature self,
   working_volume self).

(** [relaxes P cells self c v]: [v] is the amount the relaxation rule gives
    for [c] from the object [self]. *)
Definition relaxes (P : param) (cells : cells_state) (self : bioreactor)
    (c : string) (v : R) : Prop :=
  ∃ k gp g sol ratio m u,
    kla self = Some k ∧ gas_percentages self = Some gp ∧ gp !! c = Some g
    ∧ solubility c = Ok sol ∧ kla_ratio P !! c = Some ratio
    ∧ mole self !! c = Some m ∧ mass_transfer cells !! c = Some u
    ∧ k * ratio ≠ 0
    ∧ v = relaxation (k * ratio) (q_res P) m
            (g * pressure self * sol (temperature self)) (working_volume self) u.

(** The correlation of the kLa closure, quantity by quantity. *)
Section Correlation.

Variables (P : param) (cl : kla_closure) (ag : agitator).
Variables (RPS gas_flow working_volume : R).

Definition froude_number : R := froude_coeff cl * RPS ^ 2.

Definition aeration_number : R := gas_flow / (RPS * ag_diameter ag ^ 3).

Definition lower_gassed_power : R :=
  ungassed_power ag RPS
  * (1 - (B cl - A cl * viscosity P) * pow_val froude_number 0.25
         * tanh (C cl * aeration_number)).

Definition upper_gassed_power : R :=
  (IZR (ag_number ag) - 1) * ungassed_power ag RPS
  * (1 - (A cl + B cl * froude_number)
         * pow_val aeration_number (C cl + 0.04 * froude_number)).

Definition superficial_velocity : R := gas_flow / kla_CSA cl.

Definition kLa_correlation : R :=
  1080 * pow_val ((lower_gassed_power + upper_gassed_power) / working_volume) 0.39
  * pow_val superficial_velocity 0.79.

End Correlation.

(** The mean shear rate:
    [4.2 speed (impeller diameter / vessel diameter)^0.3
     impeller diameter / impeller width]. *)
Definition mean_shear_rate (ag : agitator) (D RPS : R) : R :=
  4.2 * RPS * pow_val (ag_diameter ag / D) 0.3 * ag_diameter ag / ag_width ag.

(** ** The end-to-end scenario of the specification

    A 3 L vessel of diameter 13 cm seeded with 1 L at 30 degrees, a single
    Rushton impeller of diameter 6 cm and width 2 cm, no dissolved oxygen;
    a command with 0.5 L/min of air, no liquid feed and no heat; cells that
    take up and release nothing.  Lengths are in metres and volumes in
    litres; the step is one minute. *)

Definition scenario_param : param := {|
  liquid_components := ["dO2"; "dCO2"; "glucose"];
  gas_components := ["O2"; "CO2"; "air"];
  kla_ratio := <["dO2" := 1]> (<["dCO2" := 0.9]> ∅);
  resolution := 1;
  q_res := 1;
  viscosity := 0.001;
  positively_charged := ["Na"];
  negatively_charged := ["Cl"];
  environment_temperature := 20;
  volumetric_heat_capacity := 4180;
  actual_cc_density := 1000;
  gravity := 9.81
|}.

Definition scenario_agitator : agitator := {|
  ag_type := "rushton";
  ag_number := 1;
  ag_diameter := 0.06;
  ag_width := 0.02;
  ag_power_number := 5.5;
  ag_ungassed_power_coeff := 5.5 * 1000 * 0.06 ^ 5
|}.

Definition scenario_closure : kla_closure := {|
  diam_ratio := 0.06 / 0.13;
  A := 5.3 * exp (-5.4 * (0.06 / 0.13));
  B := 0.47 * pow_val (0.06 / 0.13) 1.3;
  C := 0.64 - 1.1 * (0.06 / 0.13);
  froude_coeff := 0.06 / 9.81;
  kla_CSA := PI * 0.13 ^ 2 / 4
|}.

(** The reactor as [bioreactor_init] builds it. *)
Definition scenario_reactor : bioreactor := {|
  volume := 3;
  working_volume := 1;
  br_agitator := scenario_agitator;
  CSA := 0.13 ^ 2 / 4 * PI;
  diameter := 0.13;
  current_time := 0;
  sparger_pore_size := 0.00002;
  br_kla_func := scenario_closure;
  old := ∅;
  pressure := 0.02 / 2 * 1000 * 9.81 + 760;
  mole := <["glucose" := 0]> (<["dCO2" := 0]> (<["dO2" := 0]> ∅));
  sparger_height := 0.02;
  temperature := 30;
  overall_heat_transfer_coeff :=
    50 * (2 * (0.13 ^ 2 / 4 * PI) + 3 / (0.13 ^ 2 / 4 * PI) * PI * 0.13);
  kla := None;
  gas_percentages := None;
  mean_shear := None;
  max_shear := None
|}.

(** The command of the scenario, at a given speed of the impeller. *)
Definition scenario_actuation (RPS : R) : gmap string R :=
  <["RPS" := RPS]> (<["gas_volume" := 0.5]> (<["liquid_volume" := 0]>
  (<["heat" := 0]> (<["O2" := 0]> (<["CO2" := 0]> (<["air" := 0.5]>
  (<["glucose" := 0]> ∅))))))).

(** A command with every gas flow shut. *)
Definition no_gas_actuation : gmap string R :=
  <["RPS" := 3]> (<["gas_volume" := 0]> (<["liquid_volume" := 0]>
  (<["heat" := 0]> (<["O2" := 0]> (<["CO2" := 0]> (<["air" := 0]>
  (<["glucose" := 0]> ∅))))))).

Definition scenario_cells : cells_state := {|
  total_cells := 1000000;
  cell_volume := 0.000000000001;
  mass_transfer := <["dO2" := 0]> (<["dCO2" := 0]> (<["glucose" := 0]> ∅))
|}.

(** The reactor of the scenario with 5 mmol of sodium chloride dissolved and
    no carbon dioxide. *)
Definition saline_reactor : bioreactor :=
  set_mole (<["Cl" := 5]> (<["Na" := 5]> (<["dCO2" := 0]> ∅))) scenario_reactor.

(** ** Observations used by the further properties *)

(** [keeps I m]: the call [m] keeps the property [I] of the object, whether
    it returns or raises. *)
Definition keeps {X : Type} (I : bioreactor → Prop) (m : M X) : Prop :=
  ∀ self, I self → I (m self).1.

(** The two shear rates go together: both are absent, or the maximum is the
    mean over 4.2 times 9.7. *)
Definition shear_consistent (self : bioreactor) : Prop :=
  match mean_shear self, max_shear self with
  | Some mean, Some highest => highest = mean / 4.2 * 9.7
  | None, None => True
  | _, _ => False
  end.

(** The attributes that [__init__] assigns and no method assigns again. *)
Definition geometry (self : bioreactor) :=
  (volume self, br_agitator self, CSA self, diameter self,
   sparger_pore_size self, br_kla_func self, pressure self,
   sparger_height self, overall_heat_transfer_coeff self).

(** The calls of [step] a run has made: one for each snapshot returned, and
    the one that raised, if one did. *)
Definition calls_made (outcome : bioreactor * list (gmap string R) * option exn)
    : nat :=
  (length outcome.1.2 + match outcome.2 with Some _ => 1 | None => 0 end)%nat.

(** The keys of a snapshot besides the liquid components. *)
Definition snapshot_keys : list string :=
  ["shear"; "max_shear"; "volume"; "mOsm"; "pH"; "temperature"; "time"].

(** The equilibrium amount the relaxation rule moves to. *)
Definition equilibrium (kLa_i C_star V uptake_i : R) : R :=
  C_star * V - uptake_i / kLa_i.

(** ** Instruments ([assays.py])

    An instrument adds errors that it draws with [helper_functions.gauss].
    The draw is not modelled: the number each call returns is an argument of
    the function that makes the call, named after the variable the source
    assigns it to.  The entries of [param.instrumentation] that an
    instrument reads other than as an argument of [gauss] are arguments
    too. *)

(** class temperature_probe *)
Record temperature_probe : Type := {
  tp_sys_error : R;
  tp_value : R;
  tp_ratio : R
}.

(** [temperature_probe.__init__]; [t98] is [self.p['t98']]. *)
Definition temperature_probe_init (P : param) (t98 sys_error : R)
    : result temperature_probe :=
  exponent ← qdiv (resolution P) t98;
  remaining ← fpow (1 - 0.98) exponent;
  Ok {| tp_sys_error := sys_error; tp_value := 30; tp_ratio := 1 - remaining |}.

(** [temperature_probe.read_value]: the probe after the call and what the
    call returns. *)
Definition temperature_probe_read (random_error : R)
    (environment : gmap string R) (self : temperature_probe)
    : temperature_probe * result (gmap string R) :=
  match getitem environment "temperature" with
  | Ok temperature =>
      let value := temperature + tp_sys_error self + random_error in
      let self :=
        {| tp_sys_error := tp_sys_error self;
           tp_value := tp_ratio self * value + (1 - tp_ratio self) * tp_value self;
           tp_ratio := tp_ratio self |} in
      (self, Ok (<["temperature" := tp_value self]> ∅))
  | Raise e => (self, Raise e)
  end.

(** The probe read once for each random error of the list, on the same
    environment; the reading stops at a call that raises. *)
Fixpoint temperature_probe_reads (random_errors : list R)
    (environment : gmap string R) (self : temperature_probe)
    : temperature_probe :=
  match random_errors with
  | [] => self
  | random_error :: rest =>
      match temperature_probe_read random_error environment self with
      | (self, Ok _) => temperature_probe_reads rest environment self
      | (self, Raise _) => self
      end
  end.

(** class cell_counter *)
Record cell_counter : Type := {
  density_sys_error : R;
  via_sys_error : R;
  size_sys_error : R
}.

(** The viability [cell_counter.read_value] reports, from the true
    viability and the error fraction. *)
Definition reported_viability (viability error_frac : R) : R :=
  if decide (0 < error_frac) then error_frac + viability * (1 - error_frac)
  else viability * (1 + error_frac).

(** [cell_counter.read_value]; [env] and [cells] are dictionaries, and the
    three arguments before them the three draws, in the order of the
    calls. *)
Definition cell_counter_read (density_error size_error viability_error : R)
    (env cells : gmap string R) (self : cell_counter)
    : result (gmap string R) :=
  living ← getitem cells "living_cells";
  volume ← getitem env "volume";
  VCD ← qdiv living volume;
  let VCD := VCD * (1 + density_error + density_sys_error self) in
  diameter ← getitem cells "diameter";
  let cell_size := diameter + size_sys_error self + size_error in
  living ← getitem cells "living_cells";
  total ← getitem cells "total_cells";
  viability ← qdiv living total;
  let error_frac := viability_error + via_sys_error self in
  let viability := reported_viability viability error_frac in
  Ok (<["viability" := viability]>
      (<["cell_diameter" := cell_size]> (<["VCD" := VCD]> ∅))).

(** class BGA *)
Record BGA : Type := {
  O2_systematic_error : R;
  CO2_systematic_error : R;
  pH_systematic_error : R
}.

(** [BGA.read_O2_value] *)
Definition read_O2_value (random_error : R) (self : BGA) (value : R) : R :=
  value * (1 + random_error + O2_systematic_error self).

(** [BGA.read_pH_value] *)
Definition read_pH_value (random_error : R) (self : BGA) (value : R) : R :=
  value + random_error + pH_systematic_error self.

(** The instruments measure time in days: [np.timedelta64(365, 'D')]. *)
Definition year : R := 365.

(** [probe.__init__]: the share of the distance to the sensed value that
    one step closes; [t98] is [self.p['t98']]. *)
Definition probe_ratio (P : param) (t98 : R) : result R :=
  exponent ← qdiv (resolution P) t98;
  remaining ← fpow (1 - 0.98) exponent;
  Ok (1 - remaining).

(** class pH_probe; [cal_time] is first assigned by [one_point]. *)
Record pH_probe : Type := {
  ph_ratio : R;
  ph_reference : BGA;
  ph_drift_slope : R;
  ph_sys_error : R;
  ph_value : R;
  ph_cal_time : option R
}.

(** [pH_probe.one_point]: [reference_error] is the draw of the reference's
    [read_pH_value], [calibration_error] the draw of the probe. *)
Definition pH_probe_one_point (reference_error calibration_error : R)
    (time value : R) (self : pH_probe) : pH_probe :=
  {| ph_ratio := ph_ratio self;
     ph_reference := ph_reference self;
     ph_drift_slope := ph_drift_slope self;
     ph_sys_error :=
       read_pH_value reference_error (ph_reference self) value - value
       + calibration_error;
     ph_value := ph_value self;
     ph_cal_time := Some time |}.

(** [pH_probe.__init__] *)
Definition pH_probe_init (P : param) (t98 : R)
    (drift_slope reference_error calibration_error : R)
    (time : R) (cal_reference : BGA) : result pH_probe :=
  ratio ← probe_ratio P t98;
  let self :=
    {| ph_ratio := ratio;
       ph_reference := cal_reference;
       ph_drift_slope := drift_slope;
       ph_sys_error := 5;
       ph_value := 7;
       ph_cal_time := None |} in
  Ok (pH_probe_one_point reference_error calibration_error time 7 self).

(** [pH_probe.read_value]: the probe after the call and what the call
    returns. *)
Definition pH_probe_read (random_error : R) (environment : gmap string R)
    (self : pH_probe) : pH_probe * result (gmap string R) :=
  match getitem environment "time" with
  | Raise e => (self, Raise e)
  | Ok time =>
      match ph_cal_time self with
      | None => (self, Raise (AttributeError "cal_time"))
      | Some cal_time =>
          let time_delta := time - cal_time in
          let drift_error := time_delta / year * ph_drift_slope self in
          match getitem environment "pH" with
          | Raise e => (self, Raise e)
          | Ok acidity =>
              let value :=
                acidity + drift_error + random_error + ph_sys_error self in
              let self :=
                {| ph_ratio := ph_ratio self;
                   ph_reference := ph_reference self;
                   ph_drift_slope := ph_drift_slope self;
                   ph_sys_error := ph_sys_error self;
                   ph_value :=
                     ph_ratio self * value + (1 - ph_ratio self) * ph_value self;
                   ph_cal_time := ph_cal_time self |} in
              (self, Ok (<["pH" := ph_value self]> ∅))
          end
      end
  end.

(** class O2_probe; [cal_time] is first assigned by [one_point] and
    [conversion_constant] after it, by [__init__]. *)
Record O2_probe : Type := {
  o2_ratio : R;
  o2_reference : BGA;
  o2_drift_slope : R;
  o2_sys_error : R;
  o2_value : R;
  o2_cal_time : option R;
  o2_conversion_constant : option R
}.

(** [O2_probe.one_point] *)
Definition O2_probe_one_point (reference_error calibration_error : R)
    (time value : R) (self : O2_probe) : O2_probe :=
  {| o2_ratio := o2_ratio self;
     o2_reference := o2_reference self;
     o2_drift_slope := o2_drift_slope self;
     o2_sys_error :=
       read_O2_value reference_error (o2_reference self) value - value
       + calibration_error;
     o2_value := o2_value self;
     o2_cal_time := Some time;
     o2_conversion_constant := o2_conversion_constant self |}.

(** [O2_probe.__init__] *)
Definition O2_probe_init (P : param) (t98 : R)
    (drift_slope reference_error calibration_error : R)
    (time : R) (cal_reference : BGA) : result O2_probe :=
  ratio ← probe_ratio P t98;
  let self :=
    {| o2_ratio := ratio;
       o2_reference := cal_reference;
       o2_drift_slope := drift_slope;
       o2_sys_error := 5;
       o2_value := 100;
       o2_cal_time := None;
       o2_conversion_constant := None |} in
  let self := O2_probe_one_point reference_error calibration_error time 100 self in
  Ok {| o2_ratio := o2_ratio self;
        o2_reference := o2_reference self;
        o2_drift_slope := o2_drift_slope self;
        o2_sys_error := o2_sys_error self;
        o2_value := o2_value self;
        o2_cal_time := o2_cal_time self;
        o2_conversion_constant := Some (1 / Q 0.00217 "mM") |}.

(** [O2_probe.read_value].  The environment of an online probe holds
    numbers and, under ['br_molarity'], the dictionary of the molarities in
    the reactor: [environment] is its entries that are numbers and
    [br_molarity] that dictionary, if it has one. *)
Definition O2_probe_read (random_error : R) (environment : gmap string R)
    (br_molarity : option (gmap string R)) (self : O2_probe)
    : O2_probe * result (gmap string R) :=
  match getitem environment "time" with
  | Raise e => (self, Raise e)
  | Ok time =>
      match o2_cal_time self with
      | None => (self, Raise (AttributeError "cal_time"))
      | Some cal_time =>
          let time_delta := time - cal_time in
          let drift_error := time_delta / year * o2_drift_slope self in
          match br_molarity with
          | None => (self, Raise (KeyError "br_molarity"))
          | Some molarity =>
              match getitem molarity "dO2" with
              | Raise e => (self, Raise e)
              | Ok dO2 =>
                  match o2_conversion_constant self with
                  | None => (self, Raise (AttributeError "conversion_constant"))
                  | Some conversion_constant =>
                      let percent_DO := dO2 * conversion_constant in
                      let value :=
                        percent_DO * (1 + drift_error + random_error)
                        + o2_sys_error self in
                      let self :=
                        {| o2_ratio := o2_ratio self;
                           o2_reference := o2_reference self;
                           o2_drift_slope := o2_drift_slope self;
                           o2_sys_error := o2_sys_error self;
                           o2_value :=
                             o2_ratio self * value
                             + (1 - o2_ratio self) * o2_value self;
                           o2_cal_time := o2_cal_time self;
                           o2_conversion_constant :=
                             o2_conversion_constant self |} in
                      (self, Ok (<["dO2" := o2_value self]> ∅))
                  end
              end
          end
      end
  end.

(** class flowmeter *)
Record flowmeter : Type := { fm_systematic_error : R }.

(** class levitronix_RPM_meter *)
Record levitronix_RPM_meter : Type := { rpm_systematic_error : R }.

(** ** class wrapper

    The constructor collects the [read_value] methods of the instruments.  A
    bound method is the instrument it is bound to, under the name of its
    class; the function made for an assay of the bioHT is the bioHT and the
    assay.  The osmometer and the bioHT are passed in and only kept: their
    classes are parameters. *)

(** What constructing a wrapper comes to: iterating over [None] raises
    [TypeError], which no other part of the model does. *)
Inductive construction (A : Type) : Type :=
| Constructed (a : A)
| TypeError (msg : string)
| Raised (e : exn).
Arguments Constructed {A} a.
Arguments TypeError {A} msg.
Arguments Raised {A} e.

#[global] Instance construction_bind : MBind construction :=
  λ A B f m,
    match m with
    | Constructed a => f a
    | TypeError msg => TypeError msg
    | Raised e => Raised e
    end.

Definition construct {A : Type} (r : result A) : construction A :=
  match r with
  | Ok a => Constructed a
  | Raise e => Raised e
  end.

(** The draws of the constructors that [wrapper.__init__] calls. *)
Record calibration_draws : Type := {
  pH_drift_slope_draw : R;
  pH_reference_draw : R;
  pH_calibration_draw : R;
  O2_drift_slope_draw : R;
  O2_reference_draw : R;
  O2_calibration_draw : R;
  temperature_sys_error_draw : R;
  flowmeter_systematic_error_draw : R;
  RPM_systematic_error_draw : R
}.

Section Wrapper.

Variables osmo_instance bioHT_instance : Type.

Inductive online_assay : Type :=
| pH_probe_read_value (probe : pH_probe)
| O2_probe_read_value (probe : O2_probe)
| temperature_probe_read_value (probe : temperature_probe)
| scale_read_value
| flowmeter_read_value (meter : flowmeter)
| levitronix_RPM_meter_read_value (meter : levitronix_RPM_meter).

Inductive offline_assay : Type :=
| BGA_read_value (analyser : BGA)
| bioHT_read_value (analyser : bioHT_instance) (assay : string)
| cell_counter_read_value (counter : cell_counter)
| osmo_read_value (osmometer : osmo_instance).

Record wrapper : Type := {
  online_assays : list online_assay;
  offline_assays : list offline_assay
}.

(** The loop over [bioHT_list]. *)
Fixpoint bioHT_assays (bioHT : option bioHT_instance) (bioHT_list : list string)
    (offline_assays : list offline_assay) : result (list offline_assay) :=
  match bioHT_list with
  | [] => Ok offline_assays
  | assay :: rest =>
      match bioHT with
      | None => Raise (ValueError "Need instance of bioHT to run assays!")
      | Some analyser =>
          bioHT_assays bioHT rest
            (offline_assays ++ [bioHT_read_value analyser assay])
      end
  end.

(** [wrapper.__init__]; [pH_t98], [O2_t98] and [temperature_t98] are the
    entries ['t98'] of the three probe classes. *)
Definition wrapper_init (P : param) (pH_t98 O2_t98 temperature_t98 : R)
    (draws : calibration_draws) (start_time : R)
    (osmo : option osmo_instance) (BGA_instance : BGA)
    (cell_counter : option cell_counter)
    (bioHT : option bioHT_instance) (bioHT_list : option (list string))
    (pH O2 temp use_scale recirc_flowmeter levitronix_RPM : bool)
    : construction wrapper :=
  let online : list online_assay := [] in
  let offline := [BGA_read_value BGA_instance] in
  assays ←
    match bioHT_list with
    | None => TypeError "'NoneType' object is not iterable"
    | Some assays => Constructed assays
    end;
  offline ← construct (bioHT_assays bioHT assays offline);
  let offline :=
    match cell_counter with
    | Some counter => offline ++ [cell_counter_read_value counter]
    | None => offline
    end in
  let offline :=
    match osmo with
    | Some osmometer => offline ++ [osmo_read_value osmometer]
    | None => offline
    end in
  online ←
    (if pH then
       probe ← construct
         (pH_probe_init P pH_t98 (pH_drift_slope_draw draws)
            (pH_reference_draw draws) (pH_calibration_draw draws)
            start_time BGA_instance);
       Constructed (online ++ [pH_probe_read_value probe])
     else Constructed online);
  online ←
    (if O2 then
       probe ← construct
         (O2_probe_init P O2_t98 (O2_drift_slope_draw draws)
            (O2_reference_draw draws) (O2_calibration_draw draws)
            start_time BGA_instance);
       Constructed (online ++ [O2_probe_read_value probe])
     else Constructed online);
  online ←
    (if temp then
       probe ← construct
         (temperature_probe_init P temperature_t98
            (temperature_sys_error_draw draws));
       Constructed (online ++ [temperature_probe_read_value probe])
     else Constructed online);
  let online :=
    if use_scale then online ++ [scale_read_value] else online in
  let online :=
    if recirc_flowmeter then
      online ++ [flowmeter_read_value
                   {| fm_systematic_error :=
                        flowmeter_systematic_error_draw draws |}]
    else online in
  let online :=
    if levitronix_RPM then
      online ++ [levitronix_RPM_meter_read_value
                   {| rpm_systematic_error := RPM_systematic_error_draw draws |}]
    else online in
  Constructed {| online_assays := online; offline_assays := offline |}.

End Wrapper.

Arguments BGA_read_value {_ _} analyser.
Arguments bioHT_read_value {_ _} analyser assay.
Arguments cell_counter_read_value {_ _} counter.
Arguments osmo_read_value {_ _} osmometer.
Arguments online_assays {_ _} w.
Arguments offline_assays {_ _} w.
Arguments bioHT_assays {_ _} bioHT bioHT_list offline_assays.
Arguments wrapper_init {_ _} P pH_t98 O2_t98 temperature_t98 draws start_time
  osmo BGA_instance cell_counter bioHT bioHT_list pH O2 temp use_scale
  recirc_flowmeter levitronix_RPM.

(** ** Further inputs of the scenario *)

(** The command of the scenario without the speed of the impeller. *)
Definition speedless_actuation : gmap string R :=
  delete "RPS" (scenario_actuation 3).

(** The command of the scenario with every gas flow doubled. *)
Definition doubled_actuation : gmap string R :=
  <["air" := 2 * 0.5]> (<["CO2" := 2 * 0]> (<["O2" := 2 * 0]>
  (scenario_actuation 3))).

(** The saline reactor with 1 mmol of carbon dioxide dissolved. *)
Definition carbonated_reactor : bioreactor :=
  set_mole (<["Cl" := 5]> (<["Na" := 5]> (<["dCO2" := 1]> ∅))) scenario_reactor.

(** A sample for the cell counter: nine living cells out of ten. *)
Definition sample_cells : gmap string R :=
  <["living_cells" := 9]> (<["total_cells" := 10]> (<["diameter" := 15]> ∅)).

Definition sample_env : gmap string R :=
  <["volume" := 1]> (<["temperature" := 37]> ∅).

Definition sample_counter : cell_counter :=
  {| density_sys_error := 0.01; via_sys_error := 0.02; size_sys_error := 0.1 |}.

Definition sample_probe : temperature_probe :=
  {| tp_sys_error := 0.1; tp_value := 30; tp_ratio := 0.5 |}.

Definition sample_BGA : BGA :=
  {| O2_systematic_error := 0.01;
     CO2_systematic_error := 0.02;
     pH_systematic_error := 0.05 |}.

(** The environment a pH probe reads ten days after the start. *)
Definition sample_online_env : gmap string R :=
  <["pH" := 6.9]> (<["time" := 10]> ∅).

Definition sample_draws : calibration_draws :=
  {| pH_drift_slope_draw := 0.001;
     pH_reference_draw := 0.01;
     pH_calibration_draw := 0.02;
     O2_drift_slope_draw := 0.002;
     O2_reference_draw := 0.003;
     O2_calibration_draw := 0.1;
     temperature_sys_error_draw := 0.1;
     flowmeter_systematic_error_draw := 0;
     RPM_systematic_error_draw := 0 |}.

(** A calibrated oxygen probe, and the molarities it reads at the time of
    its calibration: 0.1085 mM of oxygen is half the saturation. *)
Definition sample_O2_probe : O2_probe :=
  {| o2_ratio := 0.5;
     o2_reference := sample_BGA;
     o2_drift_slope := 0.002;
     o2_sys_error := 5;
     o2_value := 100;
     o2_cal_time := None;
     o2_conversion_constant := Some (1 / 0.00217) |}.

Definition sample_molarity : gmap string R := <["dO2" := 0.1085]> ∅.

(** Two runs that are fed the same two commands: the first in a new
    dictionary each, the second in one dictionary that the caller changes
    between the calls. *)
Definition separate_dictionaries : list (nat * gmap string R * cells_state) :=
  [(0%nat, scenario_actuation 3, scenario_cells);
   (1%nat, scenario_actuation 5, scenario_cells)].

Definition one_dictionary : list (nat * gmap string R * cells_state) :=
  [(0%nat, scenario_actuation 3, scenario_cells);
   (0%nat, scenario_actuation 5, scenario_cells)].

(** The same two commands again, each in a dictionary of its own, at other
    addresses. *)
Definition other_dictionaries : list (nat * gmap string R * cells_state) :=
  [(7%nat, scenario_actuation 3, scenario_cells);
   (3%nat, scenario_actuation 5, scenario_cells)].

(** * Properties *)

(** ** Partial operations where they are defined *)

(** Unfolds the sequencing of outcomes, and nothing else. *)
Tactic Notation "rsimpl" := cbn [mbind result_bind mret result_ret].
Tactic Notation "rsimpl" "in" hyp(H) :=
  cbn [mbind result_bind mret result_ret] in H.

Lemma qdiv_ok (x y : R) : y ≠ 0 → qdiv x y = Ok (x / y).
Proof. intros Hy. unfold qdiv. destruct (decide (y = 0)); [contradiction | reflexivity]. Qed.

Lemma qdiv_zero (x : R) : qdiv x 0 = Raise ZeroDivisionError.
Proof. unfold qdiv. destruct (decide (0 = 0)); [reflexivity | contradiction]. Qed.

Lemma qdiv_inv (x y q : R) : qdiv x y = Ok q → y ≠ 0 ∧ q = x / y.
Proof.
  unfold qdiv. destruct (decide (y = 0)); intros H; [discriminate |].
  injection H as <-. split; [assumption | reflexivity].
Qed.

Lemma fpow_pos (x y : R) : 0 < x → fpow x y = Ok (Rpower x y).
Proof. intros Hx. unfold fpow. destruct (decide (0 < x)); [reflexivity | contradiction]. Qed.

Lemma fpow_zero (y : R) : 0 < y → fpow 0 y = Ok 0.
Proof.
  intros Hy. unfold fpow.
  destruct (decide (0 < 0)) as [H | _]; [lra |].
  destruct (decide (0 = 0)) as [_ | H]; [| contradiction].
  destruct (decide (0 < y)); [reflexivity | contradiction].
Qed.

Lemma pow_val_pos (x y : R) : 0 < x → pow_val x y = Rpower x y.
Proof. intros Hx. unfold pow_val. destruct (decide (0 < x)); [reflexivity | contradiction]. Qed.

Lemma pow_val_zero (y : R) : 0 < y → pow_val 0 y = 0.
Proof.
  intros Hy. unfold pow_val.
  destruct (decide (0 < 0)) as [H | _]; [lra |].
  destruct (decide (0 = 0)) as [_ | H]; [| contradiction].
  destruct (decide (y = 0)); [lra | reflexivity].
Qed.

(** Whenever [**] has a value, it is [pow_val]. *)
Lemma fpow_inv (x y v : R) : fpow x y = Ok v → v = pow_val x y.
Proof.
  unfold fpow, pow_val.
  destruct (decide (0 < x)); [congruence |].
  destruct (decide (x = 0)).
  - destruct (decide (0 < y)).
    + destruct (decide (y = 0)); [lra | congruence].
    + destruct (decide (y = 0)); [congruence | discriminate].
  - destruct (decide (y = IZR (Int_part y))); [congruence | discriminate].
Qed.

(** For a non-negative base and a positive exponent [**] has a value, and
    it is [pow_val]. *)
Lemma fpow_nonneg (x y : R) : 0 <= x → 0 < y → fpow x y = Ok (pow_val x y).
Proof.
  intros [Hx | <-] Hy.
  - rewrite fpow_pos, pow_val_pos by assumption. reflexivity.
  - rewrite fpow_zero, pow_val_zero by assumption. reflexivity.
Qed.

Lemma math_sqrt_ok (x : R) : 0 <= x → math_sqrt x = Ok (sqrt x).
Proof. intros Hx. unfold math_sqrt. destruct (decide (x < 0)); [lra | reflexivity]. Qed.

Lemma math_log10_ok (x : R) : 0 < x → math_log10 x = Ok (log10 x).
Proof. intros Hx. unfold math_log10. destruct (decide (0 < x)); [reflexivity | contradiction]. Qed.

Lemma getitem_ok (d : gmap string R) (k : string) (v : R) :
  d !! k = Some v → getitem d k = Ok v.
Proof. intros H. unfold getitem. rewrite H. reflexivity. Qed.

Lemma getitem_inv (d : gmap string R) (k : string) (v : R) :
  getitem d k = Ok v → d !! k = Some v.
Proof. unfold getitem. destruct (d !! k); intros H; [congruence | discriminate]. Qed.

(** ** The agitator *)

(** C6: constructing an agitator with impeller type 'rushton' gives power
    number 5.5, with 'marine' 2.2, and with any other type the constructor
    raises the configuration error and no agitator is returned. *)
Theorem agitator_init_power_number (impeller_type : string) (number : Z)
    (diameter width : R) :
  (impeller_type = "rushton" →
     ∃ ag, agitator_init impeller_type number diameter width = Ok ag
           ∧ ag_power_number ag = 5.5)
  ∧ (impeller_type = "marine" →
     ∃ ag, agitator_init impeller_type number diameter width = Ok ag
           ∧ ag_power_number ag = 2.2)
  ∧ (impeller_type ≠ "rushton" → impeller_type ≠ "marine" →
     agitator_init impeller_type number diameter width
     = Raise (ValueError "impeller not recognized!")).
Proof.
  unfold agitator_init. repeat split.
  - intros ->. eexists. split; reflexivity.
  - intros ->. eexists. split; reflexivity.
  - intros Hr Hm.
    destruct (decide (impeller_type = "rushton")); [contradiction |].
    destruct (decide (impeller_type = "marine")); [contradiction | reflexivity].
Qed.

Lemma agitator_init_power_number_witness :
  (∃ ag, agitator_init "rushton" 1 6 2 = Ok ag ∧ ag_power_number ag = 5.5)
  ∧ (∃ ag, agitator_init "marine" 2 6 2 = Ok ag ∧ ag_power_number ag = 2.2)
  ∧ agitator_init "paddle" 1 6 2 = Raise (ValueError "impeller not recognized!").
Proof.
  split; [| split].
  - apply (agitator_init_power_number "rushton" 1 6 2). reflexivity.
  - apply (agitator_init_power_number "marine" 2 6 2). reflexivity.
  - apply (agitator_init_power_number "paddle" 1 6 2); discriminate.
Defined.

(** ** The pH solver *)

Section pH_solver.

Variable P : param.

Lemma concentrations_defined (v : R) (charged : list string)
    (species : list (string * R)) :
  v ≠ 0 → ∃ l, concentrations v charged species = Ok l.
Proof.
  intros Hv. induction species as [| [name amount] rest [l IH]]; simpl.
  - eexists. reflexivity.
  - destruct (decide (name ∈ charged)).
    + rewrite (qdiv_ok _ _ Hv). simpl. rewrite IH. simpl. eexists. reflexivity.
    + exists l. exact IH.
Qed.

(** The sum of concentrations: the number 0 of an empty list, a quantity in
    mmol/(L*M) otherwise. *)
Lemma q_sum_scaled (l : list R) :
  q_sum (Scaled 1 <$> l)
  = match l with [] => Plain 0 | _ => Scaled 1 (sum l) end.
Proof.
  destruct l as [| x rest]; [reflexivity |].
  unfold q_sum, sum. cbn [fmap list_fmap foldl q_add in_unit].
  replace (0 * 1000 ^ 1 + x) with (0 + x) by lra.
  generalize (0 + x). induction rest as [| y rest IH]; intros acc.
  - reflexivity.
  - cbn [fmap list_fmap foldl q_add in_unit] in *.
    replace (acc + y * 1000 ^ 1 / 1000 ^ 1) with (acc + y) by (field; lra).
    apply IH.
Qed.

(** The net charge is the number 0 when [self.mole] holds no charged
    species, and a quantity in mmol/(L*M) when it holds one. *)
Lemma net_charge_defined (self : bioreactor) :
  working_volume self ≠ 0 →
  ∃ net, net_charge P self = Ok net
         ∧ (net = Plain 0 ∨ ∃ n, net = Scaled 1 n).
Proof.
  intros Hv. unfold net_charge.
  destruct (concentrations_defined _ (positively_charged P)
              (map_to_list (mole self)) Hv) as [pos ->].
  destruct (concentrations_defined _ (negatively_charged P)
              (map_to_list (mole self)) Hv) as [neg ->].
  rsimpl. rewrite !q_sum_scaled. eexists. split; [reflexivity |].
  destruct pos, neg; cbn [q_sub].
  - left. f_equal. lra.
  - right. eexists. reflexivity.
  - right. eexists. reflexivity.
  - right. eexists. reflexivity.
Qed.

(** The bicarbonate constant [10**-6.36*1.0017] is positive. *)
Lemma Ka_pos : 0 < Rpower 10 (-6.36) * 1.0017.
Proof.
  apply Rmult_lt_0_compat; [| lra]. unfold Rpower. apply exp_pos.
Qed.

Lemma powerRZ_10_14 : powerRZ 10 (-14) = / 10 ^ 7 * / 10 ^ 7.
Proof. simpl. field. Qed.

Lemma powerRZ_10_14_pos : 0 < powerRZ 10 (-14).
Proof. rewrite powerRZ_10_14. apply Rmult_lt_0_compat; apply Rinv_0_lt_compat; lra. Qed.

Lemma carbonic_nonneg (v dCO2 : R) :
  0 < v → 0 <= dCO2 → 0 <= Rpower 10 (-6.36) * 1.0017 * dCO2 / v / Q 1 "M".
Proof.
  intros Hv Hc. unfold Q. apply Rmult_le_pos; [| lra].
  apply Rmult_le_pos; [| left; apply Rinv_0_lt_compat; assumption].
  apply Rmult_le_pos; [left; apply Ka_pos | assumption].
Qed.

(** The radicand in the two cases of the net charge. *)
Lemma pH_sqrt_arg_plain (self : bioreactor) (x dCO2 : R) :
  working_volume self ≠ 0 → mole self !! "dCO2" = Some dCO2 →
  pH_sqrt_arg self (Plain x)
  = Ok (Scaled 1 (((x / 2) ^ 2 + powerRZ 10 (-14)) * 1000 ^ 1
                  + Rpower 10 (-6.36) * 1.0017 * dCO2 / working_volume self
                    / Q 1 "M")).
Proof.
  intros Hv Hlook. unfold pH_sqrt_arg.
  rewrite (getitem_ok _ _ _ Hlook). rsimpl. rewrite qdiv_ok by assumption.
  reflexivity.
Qed.

Lemma pH_sqrt_arg_scaled (self : bioreactor) (n dCO2 : R) :
  working_volume self ≠ 0 → mole self !! "dCO2" = Some dCO2 →
  pH_sqrt_arg self (Scaled 1 n)
  = Ok (Scaled 2 ((n / 2) ^ 2 + powerRZ 10 (-14) * 1000 ^ 2
                  + Rpower 10 (-6.36) * 1.0017 * dCO2 / working_volume self
                    / Q 1 "M" * 1000 ^ 2 / 1000 ^ 1)).
Proof.
  intros Hv Hlook. unfold pH_sqrt_arg.
  rewrite (getitem_ok _ _ _ Hlook). rsimpl. rewrite qdiv_ok by assumption.
  reflexivity.
Qed.

(** With a positive volume and a non-negative amount of dCO2 the argument
    of the logarithm is positive, in both cases of the net charge. *)
Lemma pH_log_arg_defined (self : bioreactor) (net : operand) (dCO2 : R) :
  0 < working_volume self → mole self !! "dCO2" = Some dCO2 → 0 <= dCO2 →
  net = Plain 0 ∨ (∃ n, net = Scaled 1 n) →
  ∃ argument, pH_log_arg self net = Ok argument ∧ 0 < to_float argument.
Proof.
  intros Hv Hlook Hc Hshape.
  pose proof (carbonic_nonneg _ _ Hv Hc) as Hq.
  pose proof powerRZ_10_14_pos as Hw.
  unfold pH_log_arg. destruct Hshape as [-> | [n ->]].
  - rewrite (pH_sqrt_arg_plain self 0 dCO2) by (assumption || lra). rsimpl.
    cbn [to_float].
    set (rad := ((0 / 2) ^ 2 + powerRZ 10 (-14)) * 1000 ^ 1 + _) in *.
    assert (0 < rad) as Hrad by (subst rad; nra).
    rewrite math_sqrt_ok by lra. rsimpl.
    eexists. split; [reflexivity |]. cbn [q_add q_halve q_neg to_float].
    pose proof (sqrt_lt_R0 rad Hrad). lra.
  - rewrite (pH_sqrt_arg_scaled self n dCO2) by (assumption || lra). rsimpl.
    cbn [to_float].
    set (rad := (n / 2) ^ 2 + powerRZ 10 (-14) * 1000 ^ 2 + _) in *.
    assert ((n / 2) ^ 2 < rad) as Hrad.
    { subst rad.
      assert (0 <= Rpower 10 (-6.36) * 1.0017 * dCO2 / working_volume self
                   / Q 1 "M" * 1000 ^ 2 / 1000 ^ 1) by nra.
      nra. }
    pose proof (pow2_ge_0 (n / 2)) as Hsq.
    rewrite math_sqrt_ok by lra. rsimpl.
    eexists. split; [reflexivity |].
    cbn [q_add q_halve q_neg to_float in_unit].
    assert (Rabs (n / 2) < sqrt rad) as Habs.
    { rewrite <- sqrt_Rsqr_abs. apply sqrt_lt_1; [apply Rle_0_sqr | lra |].
      unfold Rsqr. lra. }
    pose proof (Rle_abs (n / 2)). pose proof (Rabs_pos (n / 2)). lra.
Qed.

Lemma pH_returns (self : bioreactor) (dCO2 : R) :
  0 < working_volume self → mole self !! "dCO2" = Some dCO2 → 0 <= dCO2 →
  ∃ value, pH P self = Ok value.
Proof.
  intros Hv Hlook Hc.
  destruct (net_charge_defined self) as (net & Hnet & Hshape); [lra |].
  destruct (pH_log_arg_defined self net dCO2 Hv Hlook Hc Hshape)
    as (arg & Harg & Hpos).
  exists (- log10 (to_float arg)).
  unfold pH. rewrite Hnet. rsimpl. rewrite Harg. rsimpl.
  rewrite (math_log10_ok _ Hpos). reflexivity.
Qed.


Lemma log10_Rpower (y : R) : log10 (Rpower 10 y) = y.
Proof.
  unfold log10, Rpower. rewrite ln_exp.
  assert (ln 10 ≠ 0) by (apply ln_neq_0; lra).
  field. assumption.
Qed.

Lemma sqrt_Rpower_10 (y : R) : sqrt (Rpower 10 (2 * y)) = Rpower 10 y.
Proof.
  replace (Rpower 10 (2 * y)) with (Rpower 10 y * Rpower 10 y).
  - apply sqrt_square. left. unfold Rpower. apply exp_pos.
  - rewrite <- Rpower_plus. f_equal. lra.
Qed.

Lemma powerRZ_10_14_Rpower : powerRZ 10 (-14) = Rpower 10 (-14).
Proof.
  rewrite <- (powerRZ_Rpower 10 (-14)) by lra. reflexivity.
Qed.

Lemma Rpower_10_3 : Rpower 10 3 = 1000.
Proof.
  replace 3 with (INR 3) by (simpl; lra).
  rewrite Rpower_pow by lra. lra.
Qed.

(** C4: with zero net charge, no dCO2 and a positive working volume, [pH]
    does not return 7.  Where [self.mole] holds no charged species the net
    charge is the number 0, the constant [10**-14] is rescaled by 1000 as it
    is added to the bicarbonate term, and [pH] returns 5.5.  Where it holds
    charged species that balance, the net charge is a quantity, the
    constant is rescaled by 1000000 and the root by 1000, and [pH] returns
    1. *)
Theorem pH_pure_water (self : bioreactor) (net : operand) :
  0 < working_volume self →
  net_charge P self = Ok net → to_float net = 0 →
  mole self !! "dCO2" = Some 0 →
  pH P self = Ok (match net with Plain _ => 5.5 | Scaled _ _ => 1 end)
  ∧ pH P self ≠ Ok 7.
Proof.
  intros Hv Hnet Hzero Hlook.
  assert (pH P self = Ok (match net with Plain _ => 5.5 | Scaled _ _ => 1 end))
    as HpH.
  { destruct (net_charge_defined self) as (net' & Hnet' & Hshape); [lra |].
    rewrite Hnet in Hnet'. injection Hnet' as <-.
    unfold pH. rewrite Hnet. rsimpl. unfold pH_log_arg.
    destruct Hshape as [-> | [n ->]].
    - rewrite (pH_sqrt_arg_plain self 0 0) by (assumption || lra). rsimpl.
      cbn [to_float].
      assert (((0 / 2) ^ 2 + powerRZ 10 (-14)) * 1000 ^ 1
              + Rpower 10 (-6.36) * 1.0017 * 0 / working_volume self / Q 1 "M"
              = Rpower 10 (2 * -5.5)) as ->.
      { replace (2 * -5.5) with (-14 + 3) by lra.
        rewrite Rpower_plus, Rpower_10_3, powerRZ_10_14_Rpower.
        unfold Q. field. lra. }
      rewrite math_sqrt_ok by (left; unfold Rpower; apply exp_pos). rsimpl.
      rewrite sqrt_Rpower_10. cbn [q_add q_halve q_neg to_float].
      replace (- 0 / 2 + Rpower 10 (-5.5)) with (Rpower 10 (-5.5)) by lra.
      rewrite math_log10_ok by (unfold Rpower; apply exp_pos). rsimpl.
      rewrite log10_Rpower. f_equal. lra.
    - cbn [to_float] in Hzero. subst n.
      rewrite (pH_sqrt_arg_scaled self 0 0) by (assumption || lra). rsimpl.
      cbn [to_float].
      assert ((0 / 2) ^ 2 + powerRZ 10 (-14) * 1000 ^ 2
              + Rpower 10 (-6.36) * 1.0017 * 0 / working_volume self / Q 1 "M"
                * 1000 ^ 2 / 1000 ^ 1
              = Rpower 10 (2 * -4)) as ->.
      { replace (2 * -4) with (-14 + (3 + 3)) by lra.
        rewrite !Rpower_plus, Rpower_10_3, powerRZ_10_14_Rpower.
        unfold Q. field. lra. }
      rewrite math_sqrt_ok by (left; unfold Rpower; apply exp_pos). rsimpl.
      rewrite sqrt_Rpower_10. cbn [q_add q_halve q_neg to_float in_unit].
      replace (- 0 / 2 + Rpower 10 (-4) * 1000 ^ 1) with (Rpower 10 (-1)).
      2:{ replace (-1) with (-4 + 3) by lra.
          rewrite Rpower_plus, Rpower_10_3. lra. }
      rewrite math_log10_ok by (unfold Rpower; apply exp_pos). rsimpl.
      rewrite log10_Rpower. f_equal. lra. }
  split; [exact HpH |].
  rewrite HpH. intros [= H]. destruct net; lra.
Qed.

End pH_solver.

(** ** Reasoning about methods *)

Lemma bind_get {Y : Type} (k : bioreactor → M Y) (self : bioreactor) :
  (get ≫= k) self = k self self.
Proof. reflexivity. Qed.

Lemma bind_assign {Y : Type} (f : bioreactor → bioreactor) (k : unit → M Y)
    (self : bioreactor) :
  (assign f ≫= k) self = k tt (f self).
Proof. reflexivity. Qed.

Lemma bind_pure {X Y : Type} (r : result X) (k : X → M Y) (self : bioreactor) :
  (pure r ≫= k) self
  = match r with Ok x => k x self | Raise e => (self, Raise e) end.
Proof. destruct r; reflexivity. Qed.

Lemma bind_getattr {X Y : Type} (name : string) (field : bioreactor → option X)
    (k : X → M Y) (self : bioreactor) :
  (getattr name field ≫= k) self
  = match field self with
    | Some x => k x self
    | None => (self, Raise (AttributeError name))
    end.
Proof. unfold getattr, mbind, M_bind. destruct (field self); reflexivity. Qed.

(** A call that returns: the first part returned, and the rest ran on the
    object it left. *)
Lemma bind_returns {X Y : Type} (m : M X) (k : X → M Y)
    (self final : bioreactor) (y : Y) :
  (m ≫= k) self = (final, Ok y) →
  ∃ between x, m self = (between, Ok x) ∧ k x between = (final, Ok y).
Proof.
  unfold mbind, M_bind. destruct (m self) as [between [x | e]]; intros H.
  - exists between, x. split; [reflexivity | assumption].
  - discriminate.
Qed.

Lemma bind_step {X Y : Type} (m : M X) (k : X → M Y)
    (self between : bioreactor) (x : X) :
  m self = (between, Ok x) → (m ≫= k) self = k x between.
Proof. intros H. unfold mbind, M_bind. rewrite H. reflexivity. Qed.

Section Preserves.

Context {Y : Type} (f : bioreactor → Y).

Lemma preserves_mret {X : Type} (x : X) : preserves f (mret x).
Proof. intros self. reflexivity. Qed.

Lemma preserves_pure {X : Type} (r : result X) : preserves f (pure r).
Proof. intros self. reflexivity. Qed.

Lemma preserves_get : preserves f get.
Proof. intros self. reflexivity. Qed.

Lemma preserves_getattr {X : Type} (name : string) (field : bioreactor → option X) :
  preserves f (getattr name field).
Proof. intros self. unfold getattr. destruct (field self); reflexivity. Qed.

Lemma preserves_assign (g : bioreactor → bioreactor) :
  (∀ self, f (g self) = f self) → preserves f (assign g).
Proof. intros H self. apply H. Qed.

Lemma preserves_bind {X Z : Type} (m : M X) (k : X → M Z) :
  preserves f m → (∀ x, preserves f (k x)) → preserves f (m ≫= k).
Proof.
  intros Hm Hk self. unfold mbind, M_bind.
  specialize (Hm self). destruct (m self) as [between [x | e]]; simpl in *.
  - rewrite (Hk x between). assumption.
  - assumption.
Qed.

Lemma preserves_for_each {X : Type} (l : list X) (body : X → M unit) :
  (∀ x, x ∈ l → preserves f (body x)) → preserves f (for_each l body).
Proof.
  induction l as [| x rest IH]; intros H; simpl.
  - apply preserves_mret.
  - apply preserves_bind.
    + apply H. left.
    + intros _. apply IH. intros y Hy. apply H. right. assumption.
Qed.

End Preserves.

(** Breaks a goal [preserves f m] down along the structure of [m]; what is
    left are the assignments. *)
Ltac preserves_step :=
  lazymatch goal with
  | |- preserves _ (mbind _ _) => apply preserves_bind; [| intros ?]
  | |- preserves _ (mret _) => apply preserves_mret
  | |- preserves _ (pure _) => apply preserves_pure
  | |- preserves _ get => apply preserves_get
  | |- preserves _ (getattr _ _) => apply preserves_getattr
  | |- preserves _ (assign _) => apply preserves_assign; intros ?
  | |- preserves _ (if ?b then _ else _) => destruct b
  | |- preserves _ (let _ := _ in _) => cbv zeta
  end.
Ltac preserves_tac := repeat preserves_step.

(** ** Time and the frame of a step *)

Section Step.

Variable P : param.

(** Rewrites [f (m self).1] to [f self] after proving [preserves f m]. *)
Ltac by_preservation :=
  lazymatch goal with
  | |- ?f (?m ?self).1 = _ =>
      let H := fresh "Hpres" in
      assert (preserves f m) as H; [preserves_tac; try reflexivity | rewrite (H self)]
  end.

Lemma update_shear_preserves {Y : Type} (f : bioreactor → Y) (RPS : R) :
  (∀ v self, f (set_mean_shear v self) = f self) →
  (∀ v self, f (set_max_shear v self) = f self) →
  preserves f (update_shear RPS).
Proof. intros Hmean Hmax. unfold update_shear. preserves_tac; auto. Qed.

(** What follows the advance of the clock in [check_and_update] touches
    neither the clock nor the amounts. *)
Lemma check_and_update_time (actuation : gmap string R) (self : bioreactor) :
  current_time (check_and_update P actuation self).1
  = current_time self + resolution P.
Proof.
  unfold check_and_update. rewrite bind_assign.
  by_preservation.
  - apply update_shear_preserves; reflexivity.
  - reflexivity.
Qed.

Lemma check_and_update_mole (actuation : gmap string R) :
  preserves mole (check_and_update P actuation).
Proof.
  unfold check_and_update. preserves_tac; try reflexivity.
  apply update_shear_preserves; reflexivity.
Qed.

Lemma update_component_time (actuation : gmap string R) (cells : cells_state)
    (component : string) :
  preserves current_time (update_component P actuation cells component).
Proof. unfold update_component. preserves_tac; reflexivity. Qed.

(** C8: whatever the command and the cell state, and whether the cached
    values are reused or not, a call of [step] advances [current_time] by
    exactly [param.resolution]; so with a positive resolution the time after
    a run that made at least one call is later than the time before. *)
Theorem step_advances_time :
  (∀ actuation cells self,
     current_time (step P actuation cells self).1
     = current_time self + resolution P)
  ∧ (0 < resolution P →
     ∀ inputs self, inputs ≠ [] →
       current_time self < current_time (run P inputs self).1.1).
Proof.
  assert (∀ actuation cells self,
            current_time (step P actuation cells self).1
            = current_time self + resolution P) as Hstep.
  { intros actuation cells self. unfold step.
    unfold mbind at 1. unfold M_bind at 1.
    pose proof (check_and_update_time actuation self) as Htime.
    destruct (check_and_update P actuation self) as [after [[] | e]]; simpl in Htime.
    - rewrite <- Htime. by_preservation; [| reflexivity].
      apply preserves_for_each. intros c _. apply update_component_time.
    - exact Htime. }
  split; [exact Hstep |].
  intros Hres.
  assert (∀ inputs self, current_time self <= current_time (run P inputs self).1.1) as Hle.
  { induction inputs as [| [actuation cells] rest IH]; intros self; simpl.
    - lra.
    - specialize (Hstep actuation cells self).
      destruct (step P actuation cells self) as [after [environment | e]]; simpl in Hstep.
      + specialize (IH after).
        destruct (run P rest after) as [[final environments] raised]; simpl in *. lra.
      + simpl. lra. }
  intros [| [actuation cells] rest] self Hne; [contradiction |]. simpl.
  specialize (Hstep actuation cells self).
  destruct (step P actuation cells self) as [after [environment | e]]; simpl in Hstep.
  - specialize (Hle rest after).
    destruct (run P rest after) as [[final environments] raised]; simpl in *. lra.
  - simpl. lra.
Qed.

Lemma preserves_compose {X Y Z : Type} (f : bioreactor → Y) (g : Y → Z) (m : M X) :
  preserves f m → preserves (λ self, g (f self)) m.
Proof. intros H self. simpl. rewrite (H self). reflexivity. Qed.

(** An update of another component leaves the amount of [c] alone, and so
    does the update of [c] itself when [c] is not gas-exchanged and neither
    fed nor taken up. *)
Lemma update_component_unfed (actuation : gmap string R) (cells : cells_state)
    (c component : string) :
  drop1 c ∉ gas_components P →
  actuation !! c = Some 0 →
  mass_transfer cells !! c = Some 0 →
  preserves (λ self, mole self !! c) (update_component P actuation cells component).
Proof.
  intros Hgas Hfeed Huptake.
  destruct (decide (component = c)) as [-> | Hne].
  - intros self. unfold update_component.
    destruct (decide (drop1 c ∈ gas_components P)); [contradiction |].
    rewrite bind_pure, (getitem_ok _ _ _ Hfeed), bind_get, bind_pure.
    unfold getitem at 1. destruct (mole self !! c) as [amount |] eqn:Hamount.
    + rewrite bind_pure, (getitem_ok _ _ _ Huptake).
      unfold assign, setitem_mole. simpl.
      rewrite lookup_insert_eq. f_equal. lra.
    + simpl. assumption.
  - unfold update_component. preserves_tac; try reflexivity.
    + unfold setitem_mole. simpl. apply lookup_insert_ne. assumption.
    + unfold setitem_mole. simpl. apply lookup_insert_ne. assumption.
Qed.

(** C7: a species that is not gas-exchanged, whose feed rate in the command
    and whose mass-transfer rate in the cell state are both zero, has the
    same amount in [self.mole] after a call of [step] as before. *)
Theorem step_conserves_unfed (actuation : gmap string R) (cells : cells_state)
    (self : bioreactor) (c : string) :
  drop1 c ∉ gas_components P →
  actuation !! c = Some 0 →
  mass_transfer cells !! c = Some 0 →
  mole (step P actuation cells self).1 !! c = mole self !! c.
Proof.
  intros Hgas Hfeed Huptake.
  change (mole (step P actuation cells self).1 !! c)
    with ((λ self, mole self !! c) (step P actuation cells self).1).
  assert (preserves (λ self, mole self !! c) (step P actuation cells)) as H.
  { unfold step. preserves_tac; try reflexivity.
    - apply (preserves_compose mole (λ m : gmap string R, m !! c)).
      apply check_and_update_mole.
    - apply preserves_for_each. intros component _.
      apply update_component_unfed; assumption. }
  apply (H self).
Qed.

(** *** The relaxation of the gas-exchanged species *)

Lemma relaxes_frame (cells : cells_state) (self other : bioreactor) (c : string)
    (v : R) :
  conditions other = conditions self → mole other !! c = mole self !! c →
  relaxes P cells self c v → relaxes P cells other c v.
Proof.
  unfold conditions, relaxes. intros Hc Hm (k & gp & g & sol & ratio & m & u & H).
  injection Hc as -> -> -> -> ->. rewrite Hm.
  exists k, gp, g, sol, ratio, m, u. exact H.
Qed.

Lemma update_component_conditions (actuation : gmap string R) (cells : cells_state)
    (component : string) :
  preserves conditions (update_component P actuation cells component).
Proof. unfold update_component. preserves_tac; reflexivity. Qed.

Lemma update_component_other (actuation : gmap string R) (cells : cells_state)
    (c component : string) :
  component ≠ c →
  preserves (λ self, mole self !! c) (update_component P actuation cells component).
Proof.
  intros Hne. unfold update_component. preserves_tac; try reflexivity.
  - unfold setitem_mole. simpl. apply lookup_insert_ne. assumption.
  - unfold setitem_mole. simpl. apply lookup_insert_ne. assumption.
Qed.

(** Uses [preserves f m] on a call [m self = (after, outcome)]. *)
Lemma preserves_at {X Y : Type} (f : bioreactor → Y) (m : M X)
    (self after : bioreactor) (outcome : result X) :
  preserves f m → m self = (after, outcome) → f after = f self.
Proof. intros H Hcall. specialize (H self). rewrite Hcall in H. exact H. Qed.

(** The update of a gas-exchanged component that returns has applied the
    relaxation rule. *)
Lemma update_component_relaxes (actuation : gmap string R) (cells : cells_state)
    (c : string) (self after : bioreactor) :
  drop1 c ∈ gas_components P →
  update_component P actuation cells c self = (after, Ok tt) →
  ∃ v, relaxes P cells self c v ∧ mole after !! c = Some v.
Proof.
  intros Hgas. unfold update_component.
  destruct (decide (drop1 c ∈ gas_components P)); [| contradiction].
  rewrite bind_getattr.
  destruct (gas_percentages self) as [gp |] eqn:Hgp; [| discriminate].
  rewrite bind_pure. destruct (getitem gp c) as [g |] eqn:Hg; [| discriminate].
  rewrite bind_get, bind_pure.
  destruct (solubility c) as [sol |] eqn:Hsol; [| discriminate].
  cbv zeta. rewrite bind_getattr.
  destruct (kla self) as [k |] eqn:Hk; [| discriminate].
  rewrite bind_pure.
  destruct (getitem (kla_ratio P) c) as [ratio |] eqn:Hratio; [| discriminate].
  rewrite bind_pure.
  destruct (getitem (mole self) c) as [m |] eqn:Hm; [| discriminate].
  rewrite bind_pure.
  destruct (getitem (mass_transfer cells) c) as [u |] eqn:Hu; [| discriminate].
  rewrite bind_pure.
  destruct (qdiv u (k * ratio)) as [q |] eqn:Hq; [| discriminate].
  apply qdiv_inv in Hq as [Hne ->].
  unfold assign. intros [= <-].
  eexists. split.
  - exists k, gp, g, sol, ratio, m, u.
    repeat split; try assumption; try (apply getitem_inv; assumption).
  - unfold setitem_mole, relaxation. simpl. rewrite lookup_insert_eq.
    f_equal. f_equal; [f_equal; f_equal; lra | f_equal; f_equal; f_equal; lra].
Qed.

(** The loop of [step] over the liquid components, when it returns, has
    applied the relaxation rule to every gas-exchanged component, from the
    object as it was before the loop. *)
Lemma for_each_relaxes (actuation : gmap string R) (cells : cells_state)
    (c : string) (components : list string) :
  NoDup components → c ∈ components → drop1 c ∈ gas_components P →
  ∀ self after,
    for_each components (update_component P actuation cells) self = (after, Ok tt) →
    ∃ v, relaxes P cells self c v ∧ mole after !! c = Some v.
Proof.
  intros Hnodup Hin Hgas.
  induction components as [| x rest IH]; intros self after Hrun.
  - inversion Hin.
  - simpl in Hrun. apply bind_returns in Hrun as (between & [] & Hx & Hrest).
    apply NoDup_cons in Hnodup as [Hfresh Hnodup].
    destruct (decide (x = c)) as [-> | Hne].
    + destruct (update_component_relaxes _ _ _ _ _ Hgas Hx) as (v & Hv & Hlook).
      exists v. split; [assumption |]. rewrite <- Hlook.
      apply (preserves_at (λ self, mole self !! c) _ _ _ _
               (preserves_for_each _ rest _
                  (λ y Hy, update_component_other actuation cells c y
                             (λ E, Hfresh (eq_ind y (λ z, z ∈ rest) Hy c E))))
               Hrest).
    + apply elem_of_cons in Hin as [-> | Hin]; [contradiction |].
      destruct (IH Hnodup Hin between after Hrest) as (v & Hv & Hlook).
      exists v. split; [| assumption].
      apply (relaxes_frame cells between self); [| | assumption].
      * symmetry. apply (preserves_at _ _ _ _ _
                           (update_component_conditions actuation cells x) Hx).
      * symmetry.
        apply (preserves_at (λ self, mole self !! c) _ _ _ _
                 (update_component_other actuation cells c x Hne) Hx).
Qed.

Lemma check_and_update_inputs (actuation : gmap string R) :
  preserves (λ self, (pressure self, temperature self, working_volume self, mole self))
            (check_and_update P actuation).
Proof.
  unfold check_and_update. preserves_tac; try reflexivity.
  apply update_shear_preserves; reflexivity.
Qed.

(** The table [solubility]: a component that has an entry is dissolved
    oxygen or dissolved carbon dioxide, and its solubility falls linearly
    with the temperature, from 1.58 by 0.015 per degree for oxygen and from
    48.39 by 0.61 per degree for carbon dioxide. *)
Lemma solubility_linear (c : string) (sol : R → R) :
  solubility c = Ok sol →
  ∃ intercept slope,
    (c = "dO2" ∧ intercept = 1.58 ∧ slope = 0.015
     ∨ c = "dCO2" ∧ intercept = 48.39 ∧ slope = 0.61)
    ∧ sol = (λ t, intercept - t * slope).
Proof.
  unfold solubility.
  destruct (decide (c = "dO2")) as [-> | _]; [| destruct (decide (c = "dCO2")) as [-> | _]];
    intros [= <-].
  - exists 1.58, 0.015. split; [left; auto | reflexivity].
  - exists 48.39, 0.61. split; [right; auto | reflexivity].
Qed.

(** C1: when a call of [step] returns, every gas-exchanged liquid component
    [c] has been updated by the relaxation rule, with [kLa_i] the cached kLa
    times [param.kla_ratio[c]], [C_star] the cached gas fraction of [c] times
    the pressure times the solubility of [c] at the temperature, and
    [uptake_i] the entry of [c] in the mass-transfer map of the cell state.
    The solubility is linear in the temperature: [1.58 - 0.015 T] for
    dissolved oxygen and [48.39 - 0.61 T] for dissolved carbon dioxide, the
    only two components that can be gas-exchanged in a call that returns.
    The amount, the temperature and the working volume are those before the
    call; the cache is the one the call used, which is the one it leaves. *)
Theorem step_relaxes_gas_exchanged (actuation : gmap string R)
    (cells : cells_state) (self after : bioreactor)
    (environment : gmap string R) (c : string) :
  NoDup (liquid_components P) →
  c ∈ liquid_components P →
  drop1 c ∈ gas_components P →
  step P actuation cells self = (after, Ok environment) →
  ∃ k gp g intercept slope ratio m u,
    kla after = Some k ∧ gas_percentages after = Some gp ∧ gp !! c = Some g
    ∧ (c = "dO2" ∧ intercept = 1.58 ∧ slope = 0.015
       ∨ c = "dCO2" ∧ intercept = 48.39 ∧ slope = 0.61)
    ∧ kla_ratio P !! c = Some ratio
    ∧ mole self !! c = Some m ∧ mass_transfer cells !! c = Some u
    ∧ mole after !! c
      = Some (relaxation (k * ratio) (q_res P) m
                (g * pressure self * (intercept - temperature self * slope))
                (working_volume self) u).
Proof.
  intros Hnodup Hin Hgas Hstep. unfold step in Hstep.
  apply bind_returns in Hstep as (checked & [] & Hcheck & Hstep).
  rewrite bind_get, bind_pure in Hstep.
  destruct (qdiv _ (working_volume checked)) as [cell_fraction |]; [| discriminate].
  apply bind_returns in Hstep as (updated & [] & Hloop & Hrest).
  destruct (for_each_relaxes actuation cells c _ Hnodup Hin Hgas _ _ Hloop)
    as (v & (k & gp & g & sol & ratio & m & u & Hk & Hgp & Hg & Hsol & Hratio
             & Hm & Hu & _ & ->) & Hlook).
  destruct (solubility_linear c sol Hsol) as (intercept & slope & Hlaw & ->).
  pose proof (preserves_at _ _ _ _ _ (check_and_update_inputs actuation) Hcheck)
    as [= Hpressure Htemperature Hvolume Hmole].
  assert (conditions updated = conditions checked) as [= Hk' Hgp' _ _ _].
  { apply (preserves_at conditions _ _ _ _
             (preserves_for_each _ _ _
                (λ x _, update_component_conditions actuation cells x)) Hloop). }
  assert ((kla after, gas_percentages after, mole after)
          = (kla updated, gas_percentages updated, mole updated))
    as [= Hk'' Hgp'' Hmole''].
  { revert Hrest.
    apply (preserves_at (λ self, (kla self, gas_percentages self, mole self))).
    preserves_tac; reflexivity. }
  exists k, gp, g, intercept, slope, ratio, m, u.
  rewrite Hk'', Hgp'', Hmole'', Hk', Hgp', <- Hpressure, <- Htemperature,
    <- Hvolume, <- Hmole.
  repeat split; assumption.
Qed.

(** *** When the updates return *)

Lemma update_component_gas_returns (actuation : gmap string R)
    (cells : cells_state) (c : string) (self : bioreactor)
    (k : R) (gp : gmap string R) (g : R) (sol : R → R) (ratio m u : R) :
  drop1 c ∈ gas_components P →
  gas_percentages self = Some gp → gp !! c = Some g →
  solubility c = Ok sol →
  kla self = Some k → kla_ratio P !! c = Some ratio →
  mole self !! c = Some m → mass_transfer cells !! c = Some u →
  k * ratio ≠ 0 →
  update_component P actuation cells c self
  = (setitem_mole c
       (relaxation (k * ratio) (q_res P) m
          (g * pressure self * sol (temperature self)) (working_volume self) u)
       self,
     Ok tt).
Proof.
  intros Hgas Hgp Hg Hsol Hk Hratio Hm Hu Hne. unfold update_component.
  destruct (decide (drop1 c ∈ gas_components P)); [| contradiction].
  rewrite bind_getattr, Hgp, bind_pure, (getitem_ok _ _ _ Hg), bind_get.
  rewrite bind_pure, Hsol. cbv zeta.
  rewrite bind_getattr, Hk, bind_pure, (getitem_ok _ _ _ Hratio).
  rewrite bind_pure, (getitem_ok _ _ _ Hm), bind_pure, (getitem_ok _ _ _ Hu).
  rewrite bind_pure, (qdiv_ok _ _ Hne).
  unfold assign, relaxation. do 2 f_equal.
  f_equal; [f_equal; f_equal; lra | f_equal; f_equal; f_equal; lra].
Qed.

Lemma update_component_liquid_returns (actuation : gmap string R)
    (cells : cells_state) (c : string) (self : bioreactor) (rate m u : R) :
  drop1 c ∉ gas_components P →
  actuation !! c = Some rate →
  mole self !! c = Some m → mass_transfer cells !! c = Some u →
  update_component P actuation cells c self
  = (setitem_mole c (m + (rate + u) * q_res P) self, Ok tt).
Proof.
  intros Hgas Hrate Hm Hu. unfold update_component.
  destruct (decide (drop1 c ∈ gas_components P)); [contradiction |].
  rewrite bind_pure, (getitem_ok _ _ _ Hrate), bind_get.
  rewrite bind_pure, (getitem_ok _ _ _ Hm), bind_pure, (getitem_ok _ _ _ Hu).
  reflexivity.
Qed.

Lemma add_concentrations_defined (self : bioreactor) (components : list string) :
  working_volume self ≠ 0 →
  (∀ c, c ∈ components → is_Some (mole self !! c)) →
  ∀ environment, ∃ filled,
    add_concentrations self components environment = Ok filled.
Proof.
  intros Hv. induction components as [| x rest IH]; intros Hall environment.
  - eexists. reflexivity.
  - destruct (Hall x) as [amount Hamount]; [left |].
    cbn [add_concentrations]. rewrite (getitem_ok _ _ _ Hamount). rsimpl.
    rewrite (qdiv_ok _ _ Hv). rsimpl.
    apply IH. intros c Hc. apply Hall. right. assumption.
Qed.

(** *** Determinism *)

Lemma set_old_old (self : bioreactor) : set_old (old self) self = self.
Proof. destruct self. reflexivity. Qed.

(** The command [check_and_update] leaves in [self.old], whether it returns
    or raises. *)
Lemma check_and_update_old (actuation : gmap string R) (self : bioreactor) :
  old (check_and_update P actuation self).1
  = if assigns_old actuation (old self) then actuation else old self.
Proof.
  unfold check_and_update, assigns_old.
  rewrite bind_assign, bind_get. cbn [old set_current_time].
  destruct (decide (actuation = old self)) as [Heq | Hne].
  - unfold mbind at 1. unfold M_bind at 1.
    rewrite bind_pure. unfold getitem.
    destruct (actuation !! "liquid_volume") as [liquid_volume |]; [| reflexivity].
    unfold mret, M_ret. cbn [fst snd].
    destruct (bool_decide (liquid_volume = Q 0 "L/min")); cbn [negb].
    + reflexivity.
    + rewrite bind_assign.
      lazymatch goal with
      | |- ?f (?m ?s).1 = _ => assert (preserves f m) as Hpres
      end.
      { preserves_tac; try reflexivity. apply update_shear_preserves; reflexivity. }
      rewrite Hpres. reflexivity.
  - erewrite (bind_step _ _ _ _ false); [| reflexivity].
    cbn [negb]. rewrite bind_assign.
    lazymatch goal with
    | |- ?f (?m ?s).1 = _ => assert (preserves f m) as Hpres
    end.
    { preserves_tac; try reflexivity. apply update_shear_preserves; reflexivity. }
    rewrite Hpres. reflexivity.
Qed.

Lemma update_component_cache (actuation : gmap string R) (cells : cells_state)
    (component : string) :
  preserves (λ self, (old self, mean_shear self))
            (update_component P actuation cells component).
Proof. unfold update_component. preserves_tac; reflexivity. Qed.

(** What follows [check_and_update] in [step] touches neither the
    remembered command nor the shear rate. *)
Lemma step_cache (actuation : gmap string R) (cells : cells_state)
    (self : bioreactor) :
  old (step P actuation cells self).1
  = old (check_and_update P actuation self).1
  ∧ mean_shear (step P actuation cells self).1
    = mean_shear (check_and_update P actuation self).1.
Proof.
  set (view := λ self : bioreactor, (old self, mean_shear self)).
  cut (view (step P actuation cells self).1
       = view (check_and_update P actuation self).1).
  { intros [= Hold Hshear]. split; assumption. }
  unfold step. unfold mbind at 1. unfold M_bind at 1.
  destruct (check_and_update P actuation self) as [after [[] | e]]; cbn [fst];
    [| reflexivity].
  lazymatch goal with
  | |- view (?m ?s).1 = _ => assert (preserves view m) as Hpres
  end.
  { subst view. preserves_tac; try reflexivity.
    apply preserves_for_each. intros c _. apply update_component_cache. }
  apply (Hpres after).
Qed.

Lemma step_old (actuation : gmap string R) (cells : cells_state)
    (self : bioreactor) :
  old (step P actuation cells self).1
  = if assigns_old actuation (old self) then actuation else old self.
Proof.
  destruct (step_cache actuation cells self) as [Hold _].
  rewrite Hold. apply check_and_update_old.
Qed.

(** A call on a dictionary that is not the remembered one, when the
    remembered one still holds what it held: the call is that of [step] on
    the reactor, and afterwards the remembered dictionary holds what it held
    when the call ended. *)
Lemma step_object_separate (address : nat) (actuation : gmap string R)
    (cells : cells_state) (h : heap) (s : held) :
  remembered s ≠ Some address →
  current_old h s = old (reactor s) →
  let h' := <[address := actuation]> h in
  let s' := (step_object P address actuation cells h' s).1 in
  (reactor s', (step_object P address actuation cells h' s).2)
  = step P actuation cells (reactor s)
  ∧ current_old h' s' = old (reactor s')
  ∧ (remembered s' = Some address ∨ remembered s' = remembered s).
Proof.
  intros Hother Hin h' s'.
  assert (current_old h' s = old (reactor s)) as Hnow.
  { rewrite <- Hin. unfold current_old.
    destruct (remembered s) as [b |]; [| reflexivity].
    unfold h'. rewrite (lookup_insert_ne h address b actuation) by congruence.
    reflexivity. }
  unfold s'. unfold step_object. rewrite Hnow, set_old_old.
  pose proof (step_old actuation cells (reactor s)) as Hold.
  destruct (step P actuation cells (reactor s)) as [after outcome].
  cbn [fst snd reactor remembered] in *.
  split; [reflexivity |].
  unfold current_old. cbn [reactor remembered].
  destruct (assigns_old actuation (old (reactor s))).
  - split; [| left; reflexivity].
    unfold h'. rewrite (lookup_insert_eq h address actuation). cbn [default]. symmetry. exact Hold.
  - split; [| right; reflexivity].
    rewrite Hold. unfold current_old in Hnow. exact Hnow.
Qed.

(** A run in which every command comes in a dictionary of its own is the
    run of [step] on the commands. *)
Lemma run_objects_separate (inputs : list (nat * gmap string R * cells_state)) :
  ∀ (h : heap) (s : held),
    NoDup (addresses inputs) →
    (∀ address, address ∈ addresses inputs → remembered s ≠ Some address) →
    current_old h s = old (reactor s) →
    outcome_of (run_objects P inputs h s) = run P (commands inputs) (reactor s).
Proof.
  induction inputs as [| [[address actuation] cells] rest IH];
    intros h s Hnodup Hfresh Hin.
  - reflexivity.
  - cbn [addresses fmap list_fmap fst snd] in Hnodup, Hfresh.
    apply NoDup_cons in Hnodup as [Hnotin Hnodup].
    destruct (step_object_separate address actuation cells h s)
      as (Hstep & Hin' & Hremembered).
    { apply Hfresh. left. }
    { assumption. }
    cbn [run_objects commands fmap list_fmap fst snd run]. cbv zeta in *.
    destruct (step_object P address actuation cells (<[address := actuation]> h) s)
      as [s' outcome].
    cbn [fst snd] in *. rewrite <- Hstep.
    destruct outcome as [environment | e]; [| reflexivity].
    specialize (IH (<[address := actuation]> h) s' Hnodup).
    unfold outcome_of, commands in IH. rewrite <- IH.
    + destruct (run_objects P rest (<[address := actuation]> h) s')
        as [[final environments] raised]. reflexivity.
    + intros a Ha Hsome.
      destruct Hremembered as [Hnew | Hkept].
      * rewrite Hnew in Hsome. injection Hsome as <-. contradiction.
      * rewrite Hkept in Hsome. revert Hsome. apply Hfresh. right. assumption.
    + assumption.
Qed.

Lemma bioreactor_init_old
    (start_time : R) (initial_components : gmap string R)
    (seed_volume initial_temperature volume : R) (ag : agitator)
    (diameter sparger_height sparger_pore_size head_pressure
     heat_transfer_coeff : R) (self : bioreactor) :
  bioreactor_init P start_time initial_components seed_volume
    initial_temperature volume ag diameter sparger_height sparger_pore_size
    head_pressure heat_transfer_coeff = Ok self →
  old self = ∅.
Proof.
  unfold bioreactor_init.
  destruct (create_kla_function ag diameter) as [closure |]; [| discriminate].
  rsimpl. destruct (qdiv volume (diameter ^ 2 / 4 * PI)) as [height |];
    [| discriminate].
  rsimpl. intros [= <-]. reflexivity.
Qed.


End Step.

(** ** The kLa correlation *)

Section kLa.

Variable P : param.

Lemma create_kla_function_defined (ag : agitator) (D : R) :
  0 < ag_diameter ag → 0 < D →
  create_kla_function ag D
  = Ok {| diam_ratio := ag_diameter ag / D;
          A := 5.3 * exp (-5.4 * (ag_diameter ag / D));
          B := 0.47 * pow_val (ag_diameter ag / D) 1.3;
          C := 0.64 - 1.1 * (ag_diameter ag / D);
          froude_coeff := ag_diameter ag / 9.81;
          kla_CSA := PI * D ^ 2 / 4 |}.
Proof.
  intros Hd HD. unfold create_kla_function.
  rewrite qdiv_ok by lra. rsimpl.
  assert (0 < ag_diameter ag / D) as Hr by (apply Rdiv_lt_0_compat; assumption).
  rewrite (fpow_pos _ _ Hr), (pow_val_pos _ _ Hr). reflexivity.
Qed.

(** Whatever [kla_func] returns is the correlation, in 1/min. *)
Lemma kla_func_returns (cl : kla_closure) (ag : agitator)
    (RPS gas_flow working_volume : R) (k : quantity) :
  kla_func P cl ag RPS gas_flow working_volume = Ok k →
  magnitude k = kLa_correlation P cl ag RPS gas_flow working_volume
  ∧ units k = "1/min".
Proof.
  unfold kla_func.
  destruct (qdiv gas_flow (RPS * ag_diameter ag ^ 3)) as [aeration |] eqn:Ha;
    [| discriminate].
  apply qdiv_inv in Ha as [_ ->]. rsimpl.
  destruct (fpow (froude_coeff cl * RPS ^ 2) 0.25) as [fp |] eqn:Hf; [| discriminate].
  apply fpow_inv in Hf as ->. rsimpl.
  destruct (fpow _ (C cl + 0.04 * (froude_coeff cl * RPS ^ 2))) as [ap |] eqn:Hap;
    [| discriminate].
  apply fpow_inv in Hap as ->. rsimpl.
  destruct (qdiv gas_flow (kla_CSA cl)) as [sv |] eqn:Hsv; [| discriminate].
  apply qdiv_inv in Hsv as [_ ->]. rsimpl.
  destruct (qdiv _ working_volume) as [pv |] eqn:Hpv; [| discriminate].
  apply qdiv_inv in Hpv as [_ ->]. rsimpl.
  destruct (fpow _ 0.39) as [pp |] eqn:Hpp; [| discriminate].
  apply fpow_inv in Hpp as ->. rsimpl.
  destruct (fpow _ 0.79) as [vp |] eqn:Hvp; [| discriminate].
  apply fpow_inv in Hvp as ->. rsimpl.
  intros [= <-]. split; [| reflexivity]. simpl.
  unfold kLa_correlation, lower_gassed_power, upper_gassed_power,
    superficial_velocity, aeration_number, froude_number, Q.
  replace (A cl * viscosity P / 1) with (A cl * viscosity P) by lra.
  reflexivity.
Qed.

(** On positive speed, gas flow and working volume, with a non-negative
    Froude coefficient, a positive cross-section and a non-negative total
    gassed power, [kla_func] returns. *)
Lemma kla_func_defined (cl : kla_closure) (ag : agitator)
    (RPS gas_flow working_volume : R) :
  0 < ag_diameter ag → 0 <= froude_coeff cl → 0 < kla_CSA cl →
  0 < RPS → 0 < gas_flow → 0 < working_volume →
  0 <= lower_gassed_power P cl ag RPS gas_flow
       + upper_gassed_power cl ag RPS gas_flow →
  ∃ k, kla_func P cl ag RPS gas_flow working_volume = Ok k.
Proof.
  intros Hd Hfc Hcsa HRPS Hgas Hv Hpower.
  assert (0 < RPS * ag_diameter ag ^ 3) as Hden.
  { apply Rmult_lt_0_compat; [assumption | apply pow_lt; assumption]. }
  assert (0 < gas_flow / (RPS * ag_diameter ag ^ 3)) as Haer
    by (apply Rdiv_lt_0_compat; assumption).
  assert (0 <= froude_coeff cl * RPS ^ 2) as Hfr
    by (apply Rmult_le_pos; [assumption | apply pow2_ge_0]).
  assert (0 < gas_flow / kla_CSA cl) as Hsv
    by (apply Rdiv_lt_0_compat; assumption).
  unfold lower_gassed_power, upper_gassed_power, aeration_number,
    froude_number in Hpower.
  unfold kla_func.
  rewrite (qdiv_ok gas_flow (RPS * ag_diameter ag ^ 3)) by lra. rsimpl.
  rewrite (fpow_nonneg (froude_coeff cl * RPS ^ 2) 0.25) by lra. rsimpl.
  rewrite (fpow_pos _ _ Haer). rsimpl.
  rewrite (qdiv_ok gas_flow (kla_CSA cl)) by lra. rsimpl.
  rewrite (qdiv_ok _ working_volume) by lra. rsimpl.
  rewrite (fpow_pos _ _ Hsv).
  rewrite (fpow_nonneg (_ / working_volume) 0.39); [| | lra].
  - rsimpl. eexists. reflexivity.
  - apply Rmult_le_pos; [| left; apply Rinv_0_lt_compat; assumption].
    unfold Q. rewrite <- (pow_val_pos _ _ Haer).
    replace (A cl * viscosity P / 1) with (A cl * viscosity P) by lra.
    exact Hpower.
Qed.

(** C2: for a geometry with diameter ratio [r] the closure holds
    [A = 5.3 e^(-5.4 r)], [B = 0.47 r^1.3] and [C = 0.64 - 1.1 r], and
    whatever speed, gas flow and working volume it is called on, the
    coefficient it returns is
    [1080 ((lower + upper gassed power) / working volume)^0.39
          (gas flow / cross-section)^0.79], in 1/min; it does return on
    positive arguments when the total gassed power is not negative. *)
Theorem kla_correlation_fidelity (ag : agitator) (D : R) :
  0 < ag_diameter ag → 0 < D →
  ∃ cl, create_kla_function ag D = Ok cl
    ∧ A cl = 5.3 * exp (-5.4 * (ag_diameter ag / D))
    ∧ B cl = 0.47 * pow_val (ag_diameter ag / D) 1.3
    ∧ C cl = 0.64 - 1.1 * (ag_diameter ag / D)
    ∧ kla_CSA cl = PI * D ^ 2 / 4
    ∧ (∀ RPS gas_flow working_volume k,
         kla_func P cl ag RPS gas_flow working_volume = Ok k →
         magnitude k
         = 1080 * pow_val ((lower_gassed_power P cl ag RPS gas_flow
                            + upper_gassed_power cl ag RPS gas_flow)
                           / working_volume) 0.39
           * pow_val (gas_flow / kla_CSA cl) 0.79
         ∧ units k = "1/min")
    ∧ (∀ RPS gas_flow working_volume,
         0 < RPS → 0 < gas_flow → 0 < working_volume →
         0 <= lower_gassed_power P cl ag RPS gas_flow
              + upper_gassed_power cl ag RPS gas_flow →
         ∃ k, kla_func P cl ag RPS gas_flow working_volume = Ok k).
Proof.
  intros Hd HD. eexists. split; [apply create_kla_function_defined; assumption |].
  cbn [A B C kla_CSA]. repeat split.
  - apply (kla_func_returns _ _ _ _ _ _ H).
  - apply (kla_func_returns _ _ _ _ _ _ H).
  - intros RPS gas_flow working_volume HRPS Hgas Hv Hpower.
    apply kla_func_defined; try assumption; cbn [froude_coeff kla_CSA].
    + left. apply Rdiv_lt_0_compat; lra.
    + apply Rdiv_lt_0_compat; [| lra].
      apply Rmult_lt_0_compat; [apply PI_RGT_0 | apply pow_lt; assumption].
Qed.

End kLa.

(** ** The composition of the gas phase *)

Section GasPhase.

Variable P : param.

(** The total is computed only if the command has every flow. *)
Lemma total_flow_flows (actuation : gmap string R) (components : list string) :
  ∀ start total,
    total_flow actuation components start = Ok total →
    ∀ c, c ∈ components → is_Some (actuation !! c).
Proof.
  induction components as [| x rest IH]; intros start total Htotal c Hin.
  - inversion Hin.
  - simpl in Htotal. unfold getitem in Htotal.
    destruct (actuation !! x) as [flow |] eqn:Hflow; [| discriminate].
    rsimpl in Htotal. apply elem_of_cons in Hin as [-> | Hin].
    + rewrite Hflow. eexists. reflexivity.
    + apply (IH _ _ Htotal). assumption.
Qed.

(** With a zero total the first division of the second loop has no value. *)
Lemma fractions_zero_total (actuation : gmap string R) (components : list string)
    (percent : gmap string R) :
  components ≠ [] →
  (∀ c, c ∈ components → is_Some (actuation !! c)) →
  fractions actuation components 0 percent = Raise ZeroDivisionError.
Proof.
  destruct components as [| x rest]; intros Hne Hflows; [contradiction |].
  destruct (Hflows x) as [flow Hflow]; [left |].
  simpl. rewrite (getitem_ok _ _ _ Hflow). rsimpl. rewrite qdiv_zero. reflexivity.
Qed.

Lemma prefixed_inj (c1 c2 : string) : "d" +:+ c1 = "d" +:+ c2 → c1 = c2.
Proof. intros H. injection H as H. exact H. Qed.

(** With a non-zero total the second loop returns, every component has its
    flow over the total, and the other keys are as they were. *)
Lemma fractions_defined (actuation : gmap string R) (total : R)
    (components : list string) :
  total ≠ 0 →
  (∀ c, c ∈ components → is_Some (actuation !! c)) →
  ∀ percent, ∃ filled,
    fractions actuation components total percent = Ok filled
    ∧ (∀ c flow, c ∈ components → actuation !! c = Some flow →
         filled !! ("d" +:+ c) = Some (flow / total))
    ∧ (∀ k, (∀ c, c ∈ components → k ≠ "d" +:+ c) → filled !! k = percent !! k).
Proof.
  intros Htotal. induction components as [| x rest IH]; intros Hflows percent.
  - exists percent. split; [reflexivity |]. split.
    + intros c flow Hin. inversion Hin.
    + reflexivity.
  - destruct (Hflows x) as [flow Hflow]; [left |].
    destruct (IH (λ c Hc, Hflows c (list_elem_of_further _ _ _ Hc))
                 (<["d" +:+ x := flow / total]> percent))
      as (filled & Hrun & Hin & Hout).
    exists filled. split; [| split].
    + cbn [fractions]. rewrite (getitem_ok _ _ _ Hflow). rsimpl.
      rewrite (qdiv_ok _ _ Htotal). rsimpl. exact Hrun.
    + intros c v Hc Hv. destruct (decide (c ∈ rest)) as [Hrest | Hrest].
      * apply Hin; assumption.
      * apply elem_of_cons in Hc as [-> | Hc]; [| contradiction].
        rewrite Hout.
        -- rewrite lookup_insert_eq. congruence.
        -- intros c Hc E. apply prefixed_inj in E as ->. contradiction.
    + intros k Hk. rewrite Hout.
      * apply lookup_insert_ne. intros E. apply (Hk x); [left | congruence].
      * intros c Hc. apply Hk. right. assumption.
Qed.

(** With a zero total no fractions are returned. *)
Lemma calc_gas_percentages_zero (actuation : gmap string R) :
  total_flow actuation (gas_components P) 0 = Ok 0 →
  gas_components P ≠ [] →
  calc_gas_percentages P actuation = Raise ZeroDivisionError.
Proof.
  intros Htotal Hne.
  pose proof (total_flow_flows _ _ _ _ Htotal) as Hflows.
  unfold calc_gas_percentages, Q. rewrite Htotal. rsimpl.
  rewrite (fractions_zero_total _ _ _ Hne Hflows). reflexivity.
Qed.

(** With a non-zero total the fractions are returned, the share of air
    folded into those of dO2 and dCO2. *)
Lemma calc_gas_percentages_defined (actuation : gmap string R) (total : R) :
  total_flow actuation (gas_components P) 0 = Ok total →
  total ≠ 0 →
  "O2" ∈ gas_components P → "CO2" ∈ gas_components P →
  "air" ∈ gas_components P →
  ∃ percent O2 CO2 air,
    actuation !! "O2" = Some O2 ∧ actuation !! "CO2" = Some CO2
    ∧ actuation !! "air" = Some air
    ∧ calc_gas_percentages P actuation = Ok percent
    ∧ percent !! "dO2" = Some (O2 / total + air / total * 0.21)
    ∧ percent !! "dCO2" = Some (CO2 / total + air / total * 0.00045)
    ∧ (∀ c flow, c ∈ gas_components P → c ≠ "O2" → c ≠ "CO2" →
         actuation !! c = Some flow →
         percent !! ("d" +:+ c) = Some (flow / total)).
Proof.
  intros Htotal Hnz HO2 HCO2 Hair.
  pose proof (total_flow_flows _ _ _ _ Htotal) as Hflows.
  unfold calc_gas_percentages, Q. rewrite Htotal. rsimpl.
  destruct (Hflows _ HO2) as [O2 HaO2]. destruct (Hflows _ HCO2) as [CO2 HaCO2].
  destruct (Hflows _ Hair) as [air Haair].
  destruct (fractions_defined actuation total _ Hnz Hflows ∅)
    as (filled & -> & Hin & _).
  pose proof (Hin _ _ HO2 HaO2) as HdO2.
  pose proof (Hin _ _ HCO2 HaCO2) as HdCO2.
  pose proof (Hin _ _ Hair Haair) as Hdair.
  change ("d" +:+ "O2") with "dO2" in HdO2.
  change ("d" +:+ "CO2") with "dCO2" in HdCO2.
  change ("d" +:+ "air") with "dair" in Hdair.
  exists (<["dCO2" := CO2 / total + air / total * 0.00045]>
            (<["dO2" := O2 / total + air / total * 0.21]> filled)), O2, CO2, air.
  repeat split; try assumption.
  - rsimpl.
    rewrite (getitem_ok _ _ _ HdO2). rsimpl.
    rewrite (getitem_ok _ _ _ Hdair). rsimpl.
    rewrite (getitem_ok _ "dCO2" (CO2 / total)). 2:{
      rewrite lookup_insert_ne by discriminate. assumption. }
    rsimpl.
    rewrite (getitem_ok _ "dair" (air / total)). 2:{
      rewrite lookup_insert_ne by discriminate. assumption. }
    reflexivity.
  - rewrite lookup_insert_ne by discriminate. apply lookup_insert_eq.
  - apply lookup_insert_eq.
  - intros c flow Hc HnO2 HnCO2 Hflow.
    rewrite lookup_insert_ne.
    + rewrite lookup_insert_ne; [apply Hin; assumption |].
      intros E. apply (prefixed_inj "O2" c) in E. congruence.
    + intros E. apply (prefixed_inj "CO2" c) in E. congruence.
Qed.

(** C5, as the code has it: there is no guard on the total flow.  When the
    flows sum to zero the division by the total has no value and no
    fractions are returned; when they do not, every gas component has its
    flow over the total, and 21% and 0.045% of the fraction of air are added
    to the fractions of dO2 and dCO2. *)
Theorem calc_gas_percentages_unguarded (actuation : gmap string R) (total : R) :
  total_flow actuation (gas_components P) 0 = Ok total →
  (total = 0 → gas_components P ≠ [] →
     calc_gas_percentages P actuation = Raise ZeroDivisionError)
  ∧ (total ≠ 0 →
     "O2" ∈ gas_components P → "CO2" ∈ gas_components P →
     "air" ∈ gas_components P →
     ∃ percent O2 CO2 air,
       actuation !! "O2" = Some O2 ∧ actuation !! "CO2" = Some CO2
       ∧ actuation !! "air" = Some air
       ∧ calc_gas_percentages P actuation = Ok percent
       ∧ percent !! "dO2" = Some (O2 / total + air / total * 0.21)
       ∧ percent !! "dCO2" = Some (CO2 / total + air / total * 0.00045)
       ∧ (∀ c flow, c ∈ gas_components P → c ≠ "O2" → c ≠ "CO2" →
            actuation !! c = Some flow →
            percent !! ("d" +:+ c) = Some (flow / total))).
Proof.
  intros Htotal. split.
  - intros ->. apply calc_gas_percentages_zero. assumption.
  - apply calc_gas_percentages_defined. assumption.
Qed.

End GasPhase.

(** ** The change-detection cache *)

Section Cache.

Variable P : param.

Lemma update_shear_returns (RPS : R) (self : bioreactor) :
  0 < ag_diameter (br_agitator self) → 0 < diameter self →
  ag_width (br_agitator self) ≠ 0 →
  update_shear RPS self
  = (set_max_shear (mean_shear_rate (br_agitator self) (diameter self) RPS
                    / 4.2 * 9.7)
       (set_mean_shear (mean_shear_rate (br_agitator self) (diameter self) RPS)
          self),
     Ok tt).
Proof.
  intros Hd HD Hw. unfold update_shear.
  rewrite bind_get, bind_pure, qdiv_ok by lra.
  assert (0 < ag_diameter (br_agitator self) / diameter self) as Hr
    by (apply Rdiv_lt_0_compat; assumption).
  rewrite bind_pure, (fpow_pos _ _ Hr), bind_pure, (qdiv_ok _ _ Hw).
  rewrite bind_assign, bind_getattr.
  unfold mean_shear_rate, Q. rewrite (pow_val_pos _ _ Hr). reflexivity.
Qed.

(** The cache is reused when the command is the remembered one and feeds
    no liquid: only the clock moves. *)
Lemma check_and_update_reuses (actuation : gmap string R) (self : bioreactor) :
  actuation = old self → actuation !! "liquid_volume" = Some 0 →
  check_and_update P actuation self
  = (set_current_time (current_time self + resolution P) self, Ok tt).
Proof.
  intros Hold Hliquid. unfold check_and_update.
  rewrite bind_assign, bind_get. cbn [old set_current_time].
  destruct (decide (actuation = old self)); [| contradiction].
  erewrite (bind_step _ _ _ _ true); [reflexivity |].
  rewrite bind_pure, (getitem_ok _ _ _ Hliquid). unfold Q.
  rewrite bool_decide_eq_true_2 by reflexivity. reflexivity.
Qed.

(** Otherwise the remembered command is replaced and kLa, the gas fractions
    and the shear rates are computed anew. *)
Lemma check_and_update_recomputes (actuation : gmap string R) (self : bioreactor)
    (liquid_volume RPS gas_volume : R) (new_kla : quantity)
    (percentages : gmap string R) :
  actuation !! "liquid_volume" = Some liquid_volume →
  actuation ≠ old self ∨ liquid_volume ≠ 0 →
  actuation !! "RPS" = Some RPS →
  actuation !! "gas_volume" = Some gas_volume →
  kla_func P (br_kla_func self) (br_agitator self) RPS gas_volume
    (working_volume self) = Ok new_kla →
  calc_gas_percentages P actuation = Ok percentages →
  0 < ag_diameter (br_agitator self) → 0 < diameter self →
  ag_width (br_agitator self) ≠ 0 →
  check_and_update P actuation self
  = (set_max_shear (mean_shear_rate (br_agitator self) (diameter self) RPS
                    / 4.2 * 9.7)
       (set_mean_shear (mean_shear_rate (br_agitator self) (diameter self) RPS)
          (set_gas_percentages percentages
             (set_kla (magnitude new_kla)
                (set_old actuation
                   (set_current_time (current_time self + resolution P) self))))),
     Ok tt).
Proof.
  intros Hliquid Hchanged HRPS Hgas Hkla Hpercent Hd HD Hw.
  unfold check_and_update.
  rewrite bind_assign, bind_get. cbn [old set_current_time].
  erewrite (bind_step _ _ _ _ false).
  2:{ destruct (decide (actuation = old self)) as [Hsame | Hdiff]; [| reflexivity].
      rewrite bind_pure, (getitem_ok _ _ _ Hliquid). unfold Q.
      destruct Hchanged as [Hdiff | Hnz]; [contradiction |].
      rewrite bool_decide_eq_false_2 by assumption. reflexivity. }
  cbn [negb].
  rewrite bind_assign, bind_pure, (getitem_ok _ _ _ HRPS).
  rewrite bind_pure, (getitem_ok _ _ _ Hgas), bind_get.
  cbn [br_kla_func br_agitator working_volume set_old set_current_time].
  rewrite bind_pure, Hkla, bind_assign, bind_pure, Hpercent, bind_assign.
  rewrite bind_pure, update_shear_returns by assumption. reflexivity.
Qed.

(** C3, as the code has it: the cached kLa, gas fractions and shear rates
    are left as they were exactly when the command is the remembered one
    AND feeds no liquid; when the command differs from the remembered one OR
    the liquid feed rate is not zero, the command is remembered and the
    three are computed anew from it. *)
Theorem check_and_update_cache (actuation : gmap string R) (self : bioreactor)
    (liquid_volume : R) :
  actuation !! "liquid_volume" = Some liquid_volume →
  (actuation = old self ∧ liquid_volume = 0 →
     ∃ after, check_and_update P actuation self = (after, Ok tt)
       ∧ old after = old self
       ∧ kla after = kla self
       ∧ gas_percentages after = gas_percentages self
       ∧ mean_shear after = mean_shear self
       ∧ max_shear after = max_shear self)
  ∧ (actuation ≠ old self ∨ liquid_volume ≠ 0 →
     ∀ RPS gas_volume new_kla percentages,
       actuation !! "RPS" = Some RPS →
       actuation !! "gas_volume" = Some gas_volume →
       kla_func P (br_kla_func self) (br_agitator self) RPS gas_volume
         (working_volume self) = Ok new_kla →
       calc_gas_percentages P actuation = Ok percentages →
       0 < ag_diameter (br_agitator self) → 0 < diameter self →
       ag_width (br_agitator self) ≠ 0 →
       ∃ after, check_and_update P actuation self = (after, Ok tt)
         ∧ old after = actuation
         ∧ kla after = Some (magnitude new_kla)
         ∧ gas_percentages after = Some percentages
         ∧ mean_shear after
           = Some (mean_shear_rate (br_agitator self) (diameter self) RPS)
         ∧ max_shear after
           = Some (mean_shear_rate (br_agitator self) (diameter self) RPS
                   / 4.2 * 9.7)).
Proof.
  intros Hliquid. split.
  - intros [Hsame ->]. eexists. split.
    + apply check_and_update_reuses; assumption.
    + repeat split.
  - intros Hchanged RPS gas_volume new_kla percentages HRPS Hgas Hkla Hpercent
      Hd HD Hw.
    eexists. split.
    + apply (check_and_update_recomputes _ _ liquid_volume RPS gas_volume);
        eassumption.
    + repeat split.
Qed.

End Cache.

(** ** A single impeller in a tank of usual proportions *)

Lemma exp_nonpos_le_1 (x : R) : x <= 0 → exp x <= 1.
Proof.
  intros [Hx | ->].
  - left. rewrite <- exp_0. apply exp_increasing. assumption.
  - rewrite exp_0. lra.
Qed.

Lemma Rpower_le_1 (x y : R) : 0 < x <= 1 → 0 <= y → Rpower x y <= 1.
Proof.
  intros [Hpos [Hlt | ->]] Hy; unfold Rpower; apply exp_nonpos_le_1.
  - pose proof (ln_increasing x 1 Hpos Hlt) as Hln. rewrite ln_1 in Hln. nra.
  - rewrite ln_1. lra.
Qed.

Lemma Rpower_pos (x y : R) : 0 < Rpower x y.
Proof. unfold Rpower. apply exp_pos. Qed.

Lemma pow_val_unit_interval (x y : R) :
  0 <= x <= 1 → 0 < y → 0 <= pow_val x y <= 1.
Proof.
  intros [[Hpos | <-] Hle] Hy.
  - rewrite pow_val_pos by assumption.
    pose proof (Rpower_pos x y). pose proof (Rpower_le_1 x y). lra.
  - rewrite pow_val_zero by assumption. lra.
Qed.

Lemma tanh_bounds (x : R) : 0 <= x → 0 <= tanh x < 1.
Proof.
  intros Hx. unfold tanh, sinh, cosh.
  pose proof (exp_pos x) as Ha. pose proof (exp_pos (- x)) as Hb.
  assert (exp (- x) <= exp x) as Hle.
  { destruct Hx as [Hx | <-].
    - left. apply exp_increasing. lra.
    - rewrite Ropp_0. lra. }
  replace ((exp x - exp (- x)) / 2 / ((exp x + exp (- x)) / 2))
    with ((exp x - exp (- x)) / (exp x + exp (- x))) by (field; lra).
  split.
  - apply Rmult_le_pos; [lra | left; apply Rinv_0_lt_compat; lra].
  - apply (Rmult_lt_reg_r (exp x + exp (- x))); [lra |].
    unfold Rdiv. rewrite Rmult_assoc, Rinv_l by lra. lra.
Qed.

Section SingleImpeller.

Variables (P : param) (cl : kla_closure) (ag : agitator) (RPS gas_flow : R).

Hypothesis single : ag_number ag = 1%Z.
Hypothesis coeff_pos : 0 < ag_ungassed_power_coeff ag.
Hypothesis diameter_pos : 0 < ag_diameter ag.
Hypothesis speed_pos : 0 < RPS.
Hypothesis flow_pos : 0 < gas_flow.
Hypothesis A_viscosity : 0 <= A cl * viscosity P.
Hypothesis B_bounds : 0 <= B cl <= 0.47.
Hypothesis C_nonneg : 0 <= C cl.
Hypothesis froude_bounds : 0 <= froude_number cl RPS <= 1.

(** The gassed power of a single impeller is positive: the correction
    [(B - A viscosity) Fr^0.25 tanh (C Na)] stays below 0.47. *)
Lemma single_impeller_power_pos :
  0 < lower_gassed_power P cl ag RPS gas_flow
      + upper_gassed_power cl ag RPS gas_flow.
Proof.
  unfold upper_gassed_power, lower_gassed_power. rewrite single.
  assert (0 < ungassed_power ag RPS) as Hpower.
  { unfold ungassed_power. apply Rmult_lt_0_compat; [apply pow_lt |]; assumption. }
  pose proof (pow_val_unit_interval (froude_number cl RPS) 0.25 froude_bounds
                ltac:(lra)) as Hf.
  assert (0 <= C cl * aeration_number ag RPS gas_flow) as Harg.
  { apply Rmult_le_pos; [assumption |]. unfold aeration_number.
    left. apply Rdiv_lt_0_compat; [assumption |].
    apply Rmult_lt_0_compat; [| apply pow_lt]; assumption. }
  pose proof (tanh_bounds _ Harg) as Ht.
  set (f := pow_val (froude_number cl RPS) 0.25) in *.
  set (t := tanh (C cl * aeration_number ag RPS gas_flow)) in *.
  assert ((B cl - A cl * viscosity P) * f * t <= 0.47) as Hcorr.
  { assert (0 <= f * t <= 1) as Hft by nra.
    rewrite Rmult_assoc. set (ft := f * t) in *.
    destruct (Rle_dec (B cl - A cl * viscosity P) 0); nra. }
  replace ((1 - 1) * ungassed_power ag RPS
           * (1 - (A cl + B cl * froude_number cl RPS)
                  * pow_val (aeration_number ag RPS gas_flow)
                      (C cl + 0.04 * froude_number cl RPS)))
    with 0 by ring.
  rewrite Rplus_0_r. apply Rmult_lt_0_compat; lra.
Qed.

End SingleImpeller.

(** ** The scenario *)

Lemma scenario_agitator_constructed :
  agitator_init "rushton" 1 0.06 0.02 = Ok scenario_agitator.
Proof. reflexivity. Qed.

Lemma scenario_reactor_constructed :
  bioreactor_init scenario_param 0 (<["dO2" := 0]> ∅) 1 30 3 scenario_agitator
    0.13 0.02 0.00002 760 50
  = Ok scenario_reactor.
Proof.
  unfold bioreactor_init.
  rewrite create_kla_function_defined by (simpl; lra). rsimpl.
  rewrite qdiv_ok.
  - reflexivity.
  - pose proof PI_RGT_0. nra.
Qed.

Lemma scenario_closure_bounds :
  0 <= A scenario_closure * viscosity scenario_param
  ∧ 0 <= B scenario_closure <= 0.47
  ∧ 0 <= C scenario_closure.
Proof.
  cbn [A B C scenario_closure viscosity scenario_param]. repeat split.
  - pose proof (exp_pos (-5.4 * (0.06 / 0.13))). nra.
  - pose proof (pow_val_unit_interval (0.06 / 0.13) 1.3). lra.
  - pose proof (pow_val_unit_interval (0.06 / 0.13) 1.3). lra.
  - lra.
Qed.

(** At a speed up to 12 revolutions per second the Froude number of the
    scenario is at most 1, and [kla_func] returns a positive coefficient. *)
Lemma scenario_kla_returns (RPS : R) :
  0 < RPS <= 12 →
  ∃ k, kla_func scenario_param scenario_closure scenario_agitator RPS 0.5 1 = Ok k
       ∧ 0 < magnitude k.
Proof.
  intros [Hpos Hle].
  destruct scenario_closure_bounds as (HA & HB & HC).
  assert (0 < lower_gassed_power scenario_param scenario_closure scenario_agitator
                RPS 0.5
              + upper_gassed_power scenario_closure scenario_agitator RPS 0.5)
    as Hpower.
  { apply single_impeller_power_pos; try assumption; try reflexivity.
    - simpl. lra.
    - simpl. lra.
    - lra.
    - unfold froude_number. cbn [froude_coeff scenario_closure].
      assert (0 <= RPS ^ 2 <= 144) by nra. lra. }
  destruct (kla_func_defined scenario_param scenario_closure scenario_agitator
              RPS 0.5 1) as [k Hk]; try lra.
  - simpl. lra.
  - cbn [froude_coeff scenario_closure]. lra.
  - cbn [kla_CSA scenario_closure]. pose proof PI_RGT_0. nra.
  - exists k. split; [assumption |].
    destruct (kla_func_returns _ _ _ _ _ _ _ Hk) as [-> _].
    unfold kLa_correlation, superficial_velocity.
    rewrite !pow_val_pos.
    + pose proof (Rpower_pos ((lower_gassed_power scenario_param scenario_closure
                                 scenario_agitator RPS 0.5
                               + upper_gassed_power scenario_closure
                                   scenario_agitator RPS 0.5) / 1) 0.39).
      pose proof (Rpower_pos (0.5 / kla_CSA scenario_closure) 0.79).
      apply Rmult_lt_0_compat; [apply Rmult_lt_0_compat |]; lra.
    + apply Rdiv_lt_0_compat; [lra |].
      cbn [kla_CSA scenario_closure]. pose proof PI_RGT_0. nra.
    + lra.
Qed.

(** The air of the scenario gives the fractions 0.21 and 0.00045. *)
Lemma scenario_percentages (RPS : R) :
  ∃ percent,
    calc_gas_percentages scenario_param (scenario_actuation RPS) = Ok percent
    ∧ percent !! "dO2" = Some (0 / (0 + 0 + 0 + 0.5) + 0.5 / (0 + 0 + 0 + 0.5) * 0.21)
    ∧ percent !! "dCO2"
      = Some (0 / (0 + 0 + 0 + 0.5) + 0.5 / (0 + 0 + 0 + 0.5) * 0.00045).
Proof.
  destruct (calc_gas_percentages_defined scenario_param (scenario_actuation RPS)
              (0 + 0 + 0 + 0.5))
    as (percent & O2 & CO2 & air & HO2 & HCO2 & Hair & Hcalc & HdO2 & HdCO2 & _).
  - reflexivity.
  - lra.
  - set_solver.
  - set_solver.
  - set_solver.
  - exists percent. injection HO2 as <-. injection HCO2 as <-. injection Hair as <-.
    repeat split; assumption.
Qed.

(** *** The claims on the scenario *)

Lemma kla_correlation_fidelity_witness :
  ∃ cl, create_kla_function scenario_agitator 0.13 = Ok cl
    ∧ A cl = 5.3 * exp (-5.4 * (0.06 / 0.13))
    ∧ B cl = 0.47 * pow_val (0.06 / 0.13) 1.3
    ∧ C cl = 0.64 - 1.1 * (0.06 / 0.13)
    ∧ ∃ k, kla_func scenario_param cl scenario_agitator 3 0.5 1 = Ok k
           ∧ units k = "1/min".
Proof.
  destruct (kla_correlation_fidelity scenario_param scenario_agitator 0.13)
    as (cl & Hcl & HA & HB & HC & HCSA & Hreturns & Hdefined).
  - simpl. lra.
  - lra.
  - exists cl. repeat split; try assumption.
    destruct (Hdefined 3 0.5 1) as [k Hk]; try lra.
    + rewrite create_kla_function_defined in Hcl by (simpl; lra).
      injection Hcl as <-.
      destruct (scenario_kla_returns 3) as [k Hk]; [lra |].
      destruct scenario_closure_bounds as (HA' & HB' & HC').
      left. apply single_impeller_power_pos; try assumption; try reflexivity.
      * simpl. lra.
      * simpl. lra.
      * lra.
      * lra.
      * unfold froude_number. simpl. lra.
    + exists k. split; [assumption |]. apply (Hreturns _ _ _ _ Hk).
Defined.

(** The saline reactor holds charged species: its net charge is a quantity,
    of magnitude 0. *)
Lemma saline_net_charge :
  net_charge scenario_param saline_reactor = Ok (Scaled 1 0).
Proof.
  unfold net_charge. cbn [mole working_volume saline_reactor set_mole scenario_reactor].
  replace (map_to_list (<["Cl" := 5]> (<["Na" := 5]> (<["dCO2" := 0]> ∅))))
    with [("Cl", 5); ("Na", 5); ("dCO2", 0)] by reflexivity.
  cbn [concentrations positively_charged negatively_charged scenario_param].
  repeat match goal with
         | |- context [decide (?x ∈ [?y])] =>
             let H := fresh in
             destruct (decide (x ∈ [y])) as [H | H];
             [try (apply list_elem_of_singleton in H; discriminate H)
             | try (exfalso; apply H; left)];
             try clear H
         end.
  rewrite !qdiv_ok by lra. rsimpl. rewrite !q_sum_scaled.
  cbn [q_sub in_unit]. unfold sum, Q. cbn [foldl]. do 2 f_equal. field.
Qed.

(** The reactor of the scenario holds no charged species: its net charge is
    the number 0. *)
Lemma scenario_net_charge :
  net_charge scenario_param scenario_reactor = Ok (Plain 0).
Proof.
  unfold net_charge. cbn [mole working_volume scenario_reactor].
  replace (map_to_list (<["glucose" := 0]> (<["dCO2" := 0]> (<["dO2" := 0]> ∅))))
    with [("glucose", 0); ("dO2", 0); ("dCO2", 0)] by reflexivity.
  cbn [concentrations positively_charged negatively_charged scenario_param].
  repeat match goal with
         | |- context [decide (?x ∈ [?y])] =>
             let H := fresh in
             destruct (decide (x ∈ [y])) as [H | H];
             [try (apply list_elem_of_singleton in H; discriminate H)
             | try (exfalso; apply H; left)];
             try clear H
         end.
  rsimpl. cbn [fmap list_fmap q_sum foldl q_sub]. do 2 f_equal. lra.
Qed.

Lemma pH_pure_water_witness :
  (pH scenario_param scenario_reactor = Ok 5.5
   ∧ pH scenario_param scenario_reactor ≠ Ok 7)
  ∧ (pH scenario_param saline_reactor = Ok 1
     ∧ pH scenario_param saline_reactor ≠ Ok 7).
Proof.
  split.
  - apply (pH_pure_water scenario_param scenario_reactor (Plain 0)).
    + simpl. lra.
    + apply scenario_net_charge.
    + reflexivity.
    + reflexivity.
  - apply (pH_pure_water scenario_param saline_reactor (Scaled 1 0)).
    + simpl. lra.
    + apply saline_net_charge.
    + reflexivity.
    + reflexivity.
Defined.



(** C5 as stated fails: with every gas flow at zero the calculation divides
    by the zero total, and returns no fractions, all-zero or other. *)
Lemma calc_gas_percentages_zero_flow_counterexample :
  (∀ c, c ∈ gas_components scenario_param → no_gas_actuation !! c = Some 0)
  ∧ calc_gas_percentages scenario_param no_gas_actuation = Raise ZeroDivisionError
  ∧ ¬ ∃ percent,
        calc_gas_percentages scenario_param no_gas_actuation = Ok percent
        ∧ ∀ k v, percent !! k = Some v → v = 0.
Proof.
  assert (calc_gas_percentages scenario_param no_gas_actuation
          = Raise ZeroDivisionError) as Hraise.
  { apply calc_gas_percentages_zero; [| discriminate].
    transitivity (Ok (0 + 0 + 0 + 0) : result R); [reflexivity | f_equal; lra]. }
  split; [| split].
  - intros c Hc. cbn [gas_components scenario_param] in Hc.
    repeat (apply elem_of_cons in Hc as [-> | Hc]; [reflexivity |]).
    inversion Hc.
  - exact Hraise.
  - intros (percent & Hok & _). rewrite Hraise in Hok. discriminate.
Qed.

Lemma calc_gas_percentages_unguarded_witness :
  ∃ percent,
    calc_gas_percentages scenario_param (scenario_actuation 3) = Ok percent
    ∧ percent !! "dO2"
      = Some (0 / (0 + 0 + 0 + 0.5) + 0.5 / (0 + 0 + 0 + 0.5) * 0.21).
Proof.
  destruct (calc_gas_percentages_unguarded scenario_param (scenario_actuation 3)
              (0 + 0 + 0 + 0.5) eq_refl) as [_ Hdefined].
  destruct Hdefined
    as (percent & O2 & CO2 & air & HO2 & HCO2 & Hair & Hcalc & HdO2 & _).
  - lra.
  - set_solver.
  - set_solver.
  - set_solver.
  - exists percent. split; [assumption |].
    injection HO2 as <-. injection Hair as <-. assumption.
Defined.

(** *** A step of the scenario *)

(** The first call of [check_and_update], and any later call with a command
    at another speed, computes the cache anew. *)
Lemma scenario_check_and_update (RPS : R) (self : bioreactor) :
  0 < RPS <= 12 →
  br_agitator self = scenario_agitator → diameter self = 0.13 →
  br_kla_func self = scenario_closure → working_volume self = 1 →
  scenario_actuation RPS ≠ old self →
  ∃ k percent,
    0 < k
    ∧ percent !! "dO2" = Some (0 / (0 + 0 + 0 + 0.5) + 0.5 / (0 + 0 + 0 + 0.5) * 0.21)
    ∧ percent !! "dCO2"
      = Some (0 / (0 + 0 + 0 + 0.5) + 0.5 / (0 + 0 + 0 + 0.5) * 0.00045)
    ∧ check_and_update scenario_param (scenario_actuation RPS) self
      = (set_max_shear (mean_shear_rate scenario_agitator 0.13 RPS / 4.2 * 9.7)
           (set_mean_shear (mean_shear_rate scenario_agitator 0.13 RPS)
              (set_gas_percentages percent
                 (set_kla k
                    (set_old (scenario_actuation RPS)
                       (set_current_time (current_time self + 1) self))))),
         Ok tt).
Proof.
  intros HRPS Hag HD Hcl Hv Hdiff.
  destruct (scenario_kla_returns RPS HRPS) as (k & Hk & Hpos).
  destruct (scenario_percentages RPS) as (percent & Hpercent & HdO2 & HdCO2).
  exists (magnitude k), percent. repeat split; try assumption.
  rewrite (check_and_update_recomputes scenario_param (scenario_actuation RPS) self
             0 RPS 0.5 k percent); rewrite ?Hag, ?HD, ?Hcl, ?Hv;
    try reflexivity; try assumption.
  - left. assumption.
  - simpl. lra.
  - lra.
  - simpl. lra.
Qed.

Lemma scenario_actuation_differs (RPS RPS' : R) :
  RPS ≠ RPS' → scenario_actuation RPS ≠ scenario_actuation RPS'.
Proof.
  intros Hne E. apply Hne.
  assert (scenario_actuation RPS !! "RPS" = scenario_actuation RPS' !! "RPS") as H
    by (rewrite E; reflexivity).
  unfold scenario_actuation in H. rewrite !lookup_insert_eq in H.
  injection H as H. exact H.
Qed.

Lemma scenario_actuation_not_empty (RPS : R) : scenario_actuation RPS ≠ ∅.
Proof.
  intros E.
  assert (scenario_actuation RPS !! "RPS" = (∅ : gmap string R) !! "RPS") as H
    by (rewrite E; reflexivity).
  unfold scenario_actuation in H. rewrite lookup_insert_eq in H. discriminate.
Qed.

(** C3 as stated fails: after a first step at 3 revolutions per second, a
    command at 5 with no liquid feed differs from the remembered one, the
    liquid feed rate is zero, and the shear rate is computed anew all the
    same. *)
Lemma check_and_update_cache_counterexample :
  ∃ first second,
    check_and_update scenario_param (scenario_actuation 3) scenario_reactor
    = (first, Ok tt)
    ∧ check_and_update scenario_param (scenario_actuation 5) first
      = (second, Ok tt)
    ∧ scenario_actuation 5 ≠ old first
    ∧ scenario_actuation 5 !! "liquid_volume" = Some 0
    ∧ mean_shear second ≠ mean_shear first.
Proof.
  destruct (scenario_check_and_update 3 scenario_reactor)
    as (k3 & p3 & _ & _ & _ & Hfirst);
    try reflexivity; [lra | apply scenario_actuation_not_empty |].
  eexists. 
  destruct (scenario_check_and_update 5
              (set_max_shear (mean_shear_rate scenario_agitator 0.13 3 / 4.2 * 9.7)
                 (set_mean_shear (mean_shear_rate scenario_agitator 0.13 3)
                    (set_gas_percentages p3
                       (set_kla k3
                          (set_old (scenario_actuation 3)
                             (set_current_time
                                (current_time scenario_reactor + 1)
                                scenario_reactor)))))))
    as (k5 & p5 & _ & _ & _ & Hsecond);
    try reflexivity; [lra | apply scenario_actuation_differs; lra |].
  eexists. split; [exact Hfirst |]. split; [exact Hsecond |].
  split; [apply scenario_actuation_differs; lra |].
  split; [reflexivity |].
  cbn [mean_shear set_max_shear set_mean_shear]. intros [= E].
  unfold mean_shear_rate in E. cbn [ag_diameter ag_width scenario_agitator] in E.
  assert (0 < 0.06 / 0.13) as Hr by lra.
  rewrite (pow_val_pos _ _ Hr) in E.
  pose proof (Rpower_pos (0.06 / 0.13) 0.3). nra.
Qed.

Lemma check_and_update_cache_witness :
  ∃ first,
    check_and_update scenario_param (scenario_actuation 3) scenario_reactor
    = (first, Ok tt)
    ∧ old first = scenario_actuation 3
    ∧ mean_shear first = Some (mean_shear_rate scenario_agitator 0.13 3)
    ∧ ∃ second,
        check_and_update scenario_param (scenario_actuation 3) first
        = (second, Ok tt)
        ∧ kla second = kla first
        ∧ gas_percentages second = gas_percentages first
        ∧ mean_shear second = mean_shear first
        ∧ max_shear second = max_shear first.
Proof.
  destruct (check_and_update_cache scenario_param (scenario_actuation 3)
              scenario_reactor 0 eq_refl) as [_ Hrecompute].
  destruct (scenario_kla_returns 3) as (k & Hk & _); [lra |].
  destruct (scenario_percentages 3) as (percent & Hpercent & _).
  destruct (Hrecompute (or_introl (scenario_actuation_not_empty 3))
              3 0.5 k percent eq_refl eq_refl Hk Hpercent)
    as (first & Hfirst & Hold & _ & _ & Hshear & _).
  - simpl. lra.
  - simpl. lra.
  - simpl. lra.
  - exists first. repeat split; try assumption.
    destruct (check_and_update_cache scenario_param (scenario_actuation 3)
                first 0 eq_refl) as [Hreuse _].
    destruct (Hreuse (conj (eq_sym Hold) eq_refl))
      as (second & Hsecond & _ & Hkla & Hgas & Hmean & Hmax).
    exists second. repeat split; assumption.
Defined.

(** The relaxation of dCO2 in the scenario does not go below zero. *)
Lemma scenario_dCO2_nonneg (k g : R) :
  0 < k → 0 <= g →
  0 <= relaxation (k * 0.9) 1 0
         (g * (0.02 / 2 * 1000 * 9.81 + 760) * (48.39 - 30 * 0.61)) 1 0.
Proof.
  intros Hk Hg. unfold relaxation.
  pose proof (exp_pos (- (k * 0.9 * 1))) as Hpos.
  pose proof (exp_nonpos_le_1 (- (k * 0.9 * 1)) ltac:(lra)) as Hle.
  set (e := exp (- (k * 0.9 * 1))) in *.
  replace (0 / (k * 0.9)) with 0 by (unfold Rdiv; ring).
  assert (0 <= g * (0.02 / 2 * 1000 * 9.81 + 760) * (48.39 - 30 * 0.61)) as HC.
  { apply Rmult_le_pos; [apply Rmult_le_pos |]; lra. }
  nra.
Qed.

Lemma glucose_not_exchanged : drop1 "glucose" ∉ gas_components scenario_param.
Proof.
  intros H. cbn [gas_components scenario_param drop1] in H.
  repeat (apply elem_of_cons in H as [H | H]; [discriminate H |]).
  inversion H.
Qed.

(** The first step of the scenario returns a snapshot. *)
Lemma scenario_step_returns :
  ∃ after environment,
    step scenario_param (scenario_actuation 3) scenario_cells scenario_reactor
    = (after, Ok environment).
Proof.
  destruct (scenario_check_and_update 3 scenario_reactor)
    as (k & percent & Hk & HdO2 & HdCO2 & Hcheck);
    try reflexivity; [lra | apply scenario_actuation_not_empty |].
  unfold step. rewrite (bind_step _ _ _ _ _ Hcheck).
  rewrite bind_get, bind_pure, qdiv_ok by (simpl; lra).
  cbn [for_each liquid_components scenario_param].
  erewrite bind_step.
  2:{ erewrite bind_step.
      2:{ eapply (update_component_gas_returns scenario_param _ _ "dO2");
            try reflexivity; [set_solver | exact HdO2 | lra]. }
      erewrite bind_step.
      2:{ eapply (update_component_gas_returns scenario_param _ _ "dCO2");
            try reflexivity; [set_solver | exact HdCO2 | lra]. }
      erewrite bind_step.
      2:{ eapply (update_component_liquid_returns scenario_param _ _ "glucose");
            try reflexivity. apply glucose_not_exchanged. }
      reflexivity. }
  rewrite bind_pure, (getitem_ok _ "liquid_volume" 0) by reflexivity.
  rewrite bind_assign.
  rewrite bind_pure, (getitem_ok _ "heat" 0) by reflexivity.
  rewrite bind_get. cbv zeta.
  rewrite bind_pure, qdiv_ok by (simpl; lra).
  rewrite bind_assign, bind_get.
  rewrite bind_pure, qdiv_ok by (unfold Q; simpl; lra).
  rewrite bind_getattr. cbn [mean_shear set_temperature set_working_volume
    setitem_mole set_mole set_max_shear set_mean_shear].
  rewrite bind_getattr. cbn [max_shear set_temperature set_working_volume
    setitem_mole set_mole set_max_shear].
  match goal with
  | |- context [pure (pH scenario_param ?s)] =>
      destruct (pH_returns scenario_param s
                  (relaxation (k * 0.9) 1 0
                     ((0 / (0 + 0 + 0 + 0.5) + 0.5 / (0 + 0 + 0 + 0.5) * 0.00045)
                      * (0.02 / 2 * 1000 * 9.81 + 760) * (48.39 - 30 * 0.61)) 1 0))
        as [acidity Hacidity];
        [simpl; lra | reflexivity | apply scenario_dCO2_nonneg; lra |];
      rewrite bind_pure, Hacidity; cbv zeta;
      match goal with
      | |- context [add_concentrations s ?l ?e] =>
          destruct (add_concentrations_defined s l) with (environment := e)
            as [filled Hfilled]
      end
  end.
  - simpl. lra.
  - intros c Hc. cbn [liquid_components scenario_param] in Hc.
    repeat (apply elem_of_cons in Hc as [-> | Hc]; [eexists; reflexivity |]).
    inversion Hc.
  - rewrite Hfilled. eexists. eexists. reflexivity.
Qed.

Lemma scenario_liquid_components_distinct :
  NoDup (liquid_components scenario_param).
Proof.
  cbn [liquid_components scenario_param].
  repeat (apply NoDup_cons; split;
          [intros H; repeat (apply elem_of_cons in H as [H | H]; [discriminate H |]);
           inversion H |]).
  apply NoDup_nil. exact I.
Qed.

Lemma step_relaxes_gas_exchanged_witness :
  ∃ after environment,
    step scenario_param (scenario_actuation 3) scenario_cells scenario_reactor
    = (after, Ok environment)
    ∧ ∃ k gp g ratio m u,
        kla after = Some k ∧ gas_percentages after = Some gp
        ∧ gp !! "dO2" = Some g
        ∧ kla_ratio scenario_param !! "dO2" = Some ratio
        ∧ mole scenario_reactor !! "dO2" = Some m
        ∧ mass_transfer scenario_cells !! "dO2" = Some u
        ∧ mole after !! "dO2"
          = Some (relaxation (k * ratio) (q_res scenario_param) m
                    (g * pressure scenario_reactor
                     * (1.58 - temperature scenario_reactor * 0.015))
                    (working_volume scenario_reactor) u).
Proof.
  destruct scenario_step_returns as (after & environment & Hstep).
  exists after, environment. split; [exact Hstep |].
  destruct (step_relaxes_gas_exchanged scenario_param (scenario_actuation 3)
              scenario_cells scenario_reactor after environment "dO2")
    as (k & gp & g & intercept & slope & ratio & m & u & Hk & Hgp & Hg & Hlaw
        & Hratio & Hm & Hu & Hafter).
  - apply scenario_liquid_components_distinct.
  - left.
  - left.
  - exact Hstep.
  - exists k, gp, g, ratio, m, u.
    destruct Hlaw as [(_ & -> & ->) | (Hc & _)]; [| discriminate Hc].
    repeat split; assumption.
Defined.

Lemma step_conserves_unfed_witness :
  mole (step scenario_param (scenario_actuation 3) scenario_cells
          scenario_reactor).1 !! "glucose"
  = mole scenario_reactor !! "glucose".
Proof.
  apply (step_conserves_unfed scenario_param (scenario_actuation 3) scenario_cells
           scenario_reactor "glucose").
  - apply glucose_not_exchanged.
  - reflexivity.
  - reflexivity.
Defined.

Lemma step_advances_time_witness :
  current_time scenario_reactor
  < current_time
      (run scenario_param
         [(scenario_actuation 3, scenario_cells);
          (scenario_actuation 5, scenario_cells)] scenario_reactor).1.1.
Proof.
  apply (proj2 (step_advances_time scenario_param)).
  - simpl. lra.
  - discriminate.
Defined.

(** * Further properties of the reactor *)

(** ** What a step that returns has done *)

Section StepReturns.

Variable P : param.

Lemma step_time (actuation : gmap string R) (cells : cells_state)
    (self : bioreactor) :
  current_time (step P actuation cells self).1
  = current_time self + resolution P.
Proof.
  unfold step. unfold mbind at 1. unfold M_bind at 1.
  pose proof (check_and_update_time P actuation self) as Htime.
  destruct (check_and_update P actuation self) as [after [[] | e]]; simpl in Htime.
  - rewrite <- Htime.
    lazymatch goal with
    | |- ?f (?m ?s).1 = _ => assert (preserves f m) as Hpres
    end.
    { preserves_tac; try reflexivity.
      apply preserves_for_each. intros c _. apply update_component_time. }
    apply Hpres.
  - exact Htime.
Qed.

(** The parts of a call of [step] that returns. *)
Lemma step_returns_inv (actuation : gmap string R) (cells : cells_state)
    (self after : bioreactor) (environment : gmap string R) :
  step P actuation cells self = (after, Ok environment) →
  ∃ checked updated liquid_volume heat shear highest acidity,
    check_and_update P actuation self = (checked, Ok tt)
    ∧ working_volume checked ≠ 0
    ∧ for_each (liquid_components P) (update_component P actuation cells) checked
      = (updated, Ok tt)
    ∧ actuation !! "liquid_volume" = Some liquid_volume
    ∧ actuation !! "heat" = Some heat
    ∧ (working_volume updated + liquid_volume * q_res P)
      * volumetric_heat_capacity P ≠ 0
    ∧ after
      = set_temperature
          (temperature updated
           + (heat + (environment_temperature P - temperature updated)
                     * overall_heat_transfer_coeff updated) * q_res P
             / ((working_volume updated + liquid_volume * q_res P)
                * volumetric_heat_capacity P))
          (set_working_volume
             (working_volume updated + liquid_volume * q_res P) updated)
    ∧ mean_shear after = Some shear ∧ max_shear after = Some highest
    ∧ pH P after = Ok acidity
    ∧ add_concentrations after (liquid_components P)
        (<["time" := current_time after]>
         (<["temperature" := temperature after]>
         (<["pH" := acidity]>
         (<["mOsm" := total_moles after
                      / (working_volume after
                         * (1 - total_cells cells * cell_volume cells / Q 1 "ce"
                                / working_volume checked))]>
         (<["volume" := working_volume after]>
         (<["max_shear" := highest]>
         (<["shear" := shear]> ∅)))))))
      = Ok environment.
Proof.
  intros Hstep. unfold step in Hstep.
  apply bind_returns in Hstep as (checked & [] & Hcheck & Hstep).
  rewrite bind_get, bind_pure in Hstep.
  destruct (qdiv _ (working_volume checked)) as [cell_fraction |] eqn:Hcf;
    [| discriminate].
  apply qdiv_inv in Hcf as [Hv ->].
  apply bind_returns in Hstep as (updated & [] & Hloop & Hstep).
  rewrite bind_pure in Hstep.
  destruct (getitem actuation "liquid_volume") as [liquid_volume |] eqn:Hliquid;
    [| discriminate].
  rewrite bind_assign, bind_pure in Hstep.
  destruct (getitem actuation "heat") as [heat |] eqn:Hheat; [| discriminate].
  rewrite bind_get in Hstep. cbv zeta in Hstep. rewrite bind_pure in Hstep.
  destruct (qdiv _ _) as [warming |] eqn:Hwarm in Hstep; [| discriminate].
  apply qdiv_inv in Hwarm as [Hcap ->].
  rewrite bind_assign, bind_get, bind_pure in Hstep.
  destruct (qdiv _ _) as [osmo |] eqn:Hosmo in Hstep; [| discriminate].
  apply qdiv_inv in Hosmo as [_ ->].
  rewrite bind_getattr in Hstep.
  destruct (mean_shear _) as [shear |] eqn:Hshear in Hstep; [| discriminate].
  rewrite bind_getattr in Hstep.
  destruct (max_shear _) as [highest |] eqn:Hhighest in Hstep; [| discriminate].
  rewrite bind_pure in Hstep.
  destruct (pH P _) as [acidity |] eqn:HpH in Hstep; [| discriminate].
  cbv zeta in Hstep. unfold pure in Hstep.
  injection Hstep as Hafter Henv.
  exists checked, updated, liquid_volume, heat, shear, highest, acidity.
  rewrite <- Hafter.
  cbn [working_volume temperature overall_heat_transfer_coeff
       set_working_volume set_temperature] in *.
  repeat split; try assumption; try (apply getitem_inv; assumption).
Qed.

End StepReturns.

(** ** The explicit regime, the volume and the temperature *)

Section StepUpdates.

Variable P : param.

Lemma update_component_liquid_inv (actuation : gmap string R)
    (cells : cells_state) (c : string) (self after : bioreactor) :
  drop1 c ∉ gas_components P →
  update_component P actuation cells c self = (after, Ok tt) →
  ∃ rate m u,
    actuation !! c = Some rate ∧ mole self !! c = Some m
    ∧ mass_transfer cells !! c = Some u
    ∧ mole after !! c = Some (m + (rate + u) * q_res P).
Proof.
  intros Hgas. unfold update_component.
  destruct (decide (drop1 c ∈ gas_components P)); [contradiction |].
  rewrite bind_pure.
  destruct (getitem actuation c) as [rate |] eqn:Hrate; [| discriminate].
  rewrite bind_get, bind_pure.
  destruct (getitem (mole self) c) as [m |] eqn:Hm; [| discriminate].
  rewrite bind_pure.
  destruct (getitem (mass_transfer cells) c) as [u |] eqn:Hu; [| discriminate].
  unfold assign. intros [= <-].
  exists rate, m, u. repeat split; try (apply getitem_inv; assumption).
  unfold setitem_mole. simpl. apply lookup_insert_eq.
Qed.

(** The loop over the liquid components, when it returns, has added feed
    and uptake over the step to every component that is not gas-exchanged. *)
Lemma for_each_feeds (actuation : gmap string R) (cells : cells_state)
    (c : string) (components : list string) :
  NoDup components → c ∈ components → drop1 c ∉ gas_components P →
  ∀ self after,
    for_each components (update_component P actuation cells) self = (after, Ok tt) →
    ∃ rate m u,
      actuation !! c = Some rate ∧ mole self !! c = Some m
      ∧ mass_transfer cells !! c = Some u
      ∧ mole after !! c = Some (m + (rate + u) * q_res P).
Proof.
  intros Hnodup Hin Hgas.
  induction components as [| x rest IH]; intros self after Hrun.
  - inversion Hin.
  - simpl in Hrun. apply bind_returns in Hrun as (between & [] & Hx & Hrest).
    apply NoDup_cons in Hnodup as [Hfresh Hnodup].
    destruct (decide (x = c)) as [-> | Hne].
    + destruct (update_component_liquid_inv _ _ _ _ _ Hgas Hx)
        as (rate & m & u & Hrate & Hm & Hu & Hlook).
      exists rate, m, u. repeat split; try assumption. rewrite <- Hlook.
      apply (preserves_at (λ self, mole self !! c) _ _ _ _
               (preserves_for_each _ rest _
                  (λ y Hy, update_component_other P actuation cells c y
                             (λ E, Hfresh (eq_ind y (λ z, z ∈ rest) Hy c E))))
               Hrest).
    + apply elem_of_cons in Hin as [-> | Hin]; [contradiction |].
      destruct (IH Hnodup Hin between after Hrest)
        as (rate & m & u & Hrate & Hm & Hu & Hlook).
      exists rate, m, u. repeat split; try assumption. rewrite <- Hm.
      symmetry.
      apply (preserves_at (λ self, mole self !! c) _ _ _ _
               (update_component_other P actuation cells c x Hne) Hx).
Qed.

Lemma check_and_update_geometry (actuation : gmap string R) :
  preserves geometry (check_and_update P actuation).
Proof.
  unfold check_and_update. preserves_tac; try reflexivity.
  apply update_shear_preserves; reflexivity.
Qed.

Lemma update_component_geometry (actuation : gmap string R) (cells : cells_state)
    (component : string) :
  preserves geometry (update_component P actuation cells component).
Proof. unfold update_component. preserves_tac; reflexivity. Qed.

Lemma step_geometry (actuation : gmap string R) (cells : cells_state) :
  preserves geometry (step P actuation cells).
Proof.
  unfold step. preserves_tac; try reflexivity.
  - apply check_and_update_geometry.
  - apply preserves_for_each. intros c _. apply update_component_geometry.
Qed.

Lemma update_component_shear (actuation : gmap string R) (cells : cells_state)
    (component : string) :
  preserves (λ self, (mean_shear self, max_shear self))
            (update_component P actuation cells component).
Proof. unfold update_component. preserves_tac; reflexivity. Qed.

(** The object a returning step leaves, against the object it found: what
    the loop and [check_and_update] leave alone. *)
Lemma step_returns_frame (actuation : gmap string R) (cells : cells_state)
    (self checked updated : bioreactor) :
  check_and_update P actuation self = (checked, Ok tt) →
  for_each (liquid_components P) (update_component P actuation cells) checked
  = (updated, Ok tt) →
  working_volume updated = working_volume self
  ∧ temperature updated = temperature self
  ∧ overall_heat_transfer_coeff updated = overall_heat_transfer_coeff self
  ∧ working_volume checked = working_volume self
  ∧ mole checked = mole self
  ∧ kla updated = kla checked
  ∧ mean_shear updated = mean_shear checked
  ∧ max_shear updated = max_shear checked.
Proof.
  intros Hcheck Hloop.
  pose proof (preserves_at _ _ _ _ _ (check_and_update_inputs P actuation) Hcheck)
    as [= _ Htemperature Hvolume Hmole].
  pose proof (preserves_at _ _ _ _ _ (check_and_update_geometry actuation) Hcheck)
    as [= _ _ _ _ _ _ _ _ Hcoeff].
  assert (conditions updated = conditions checked) as [= Hkla _ _ Htemperature' Hvolume'].
  { apply (preserves_at conditions _ _ _ _
             (preserves_for_each _ _ _
                (λ x _, update_component_conditions P actuation cells x)) Hloop). }
  assert (geometry updated = geometry checked) as [= _ _ _ _ _ _ _ _ Hcoeff'].
  { apply (preserves_at geometry _ _ _ _
             (preserves_for_each _ _ _
                (λ x _, update_component_geometry actuation cells x)) Hloop). }
  assert ((mean_shear updated, max_shear updated)
          = (mean_shear checked, max_shear checked)) as [= Hmean Hmax].
  { apply (preserves_at (λ self, (mean_shear self, max_shear self)) _ _ _ _
             (preserves_for_each _ _ _
                (λ x _, update_component_shear actuation cells x)) Hloop). }
  repeat split; congruence.
Qed.

(** X1: When a call of [step] returns, every liquid component that is not
    gas-exchanged has gained its feed rate plus its mass-transfer rate, times
    the step. *)
Theorem step_feeds_liquid_component (actuation : gmap string R)
    (cells : cells_state) (self after : bioreactor)
    (environment : gmap string R) (c : string) :
  NoDup (liquid_components P) →
  c ∈ liquid_components P →
  drop1 c ∉ gas_components P →
  step P actuation cells self = (after, Ok environment) →
  ∃ rate m u,
    actuation !! c = Some rate ∧ mole self !! c = Some m
    ∧ mass_transfer cells !! c = Some u
    ∧ mole after !! c = Some (m + (rate + u) * q_res P).
Proof.
  intros Hnodup Hin Hgas Hstep.
  destruct (step_returns_inv P _ _ _ _ _ Hstep)
    as (checked & updated & lv & heat & shear & highest & acidity & Hcheck & _
        & Hloop & _ & _ & _ & -> & _).
  destruct (for_each_feeds actuation cells c _ Hnodup Hin Hgas _ _ Hloop)
    as (rate & m & u & Hrate & Hm & Hu & Hlook).
  destruct (step_returns_frame _ _ _ _ _ Hcheck Hloop)
    as (_ & _ & _ & _ & Hmole & _).
  exists rate, m, u. rewrite <- Hmole. repeat split; assumption.
Qed.

Lemma step_new_volume_and_temperature (actuation : gmap string R)
    (cells : cells_state) (self after : bioreactor)
    (environment : gmap string R) :
  step P actuation cells self = (after, Ok environment) →
  ∃ liquid_volume heat,
    actuation !! "liquid_volume" = Some liquid_volume
    ∧ actuation !! "heat" = Some heat
    ∧ working_volume after = working_volume self + liquid_volume * q_res P
    ∧ working_volume after * volumetric_heat_capacity P ≠ 0
    ∧ temperature after
      = temperature self
        + (heat + (environment_temperature P - temperature self)
                  * overall_heat_transfer_coeff self) * q_res P
          / (working_volume after * volumetric_heat_capacity P).
Proof.
  intros Hstep.
  destruct (step_returns_inv P _ _ _ _ _ Hstep)
    as (checked & updated & lv & heat & shear & highest & acidity & Hcheck & _
        & Hloop & Hlv & Hheat & Hcap & -> & _).
  destruct (step_returns_frame _ _ _ _ _ Hcheck Hloop)
    as (Hvolume & Htemperature & Hcoeff & _).
  exists lv, heat. cbn [working_volume temperature set_temperature set_working_volume].
  rewrite <- Hvolume, <- Htemperature, <- Hcoeff.
  repeat split; assumption.
Qed.

(** X2: When a call of [step] returns, the working volume has grown by the
    liquid feed rate times the step, and the temperature by the heat input
    plus the exchange with the surroundings, times the step, over the heat
    capacity of the new volume. *)
Theorem step_volume_and_temperature (actuation : gmap string R)
    (cells : cells_state) (self after : bioreactor)
    (environment : gmap string R) :
  step P actuation cells self = (after, Ok environment) →
  ∃ liquid_volume heat,
    actuation !! "liquid_volume" = Some liquid_volume
    ∧ actuation !! "heat" = Some heat
    ∧ working_volume after = working_volume self + liquid_volume * q_res P
    ∧ working_volume after * volumetric_heat_capacity P ≠ 0
    ∧ temperature after
      = temperature self
        + (heat + (environment_temperature P - temperature self)
                  * overall_heat_transfer_coeff self) * q_res P
          / (working_volume after * volumetric_heat_capacity P).
Proof. apply step_new_volume_and_temperature. Qed.

(** X3: With no heat input and positive transfer coefficient, step, volume and
    heat capacity, the temperature moves towards that of the surroundings:
    up when it is below, down when it is above, and not at all when it is
    equal. *)
Theorem step_temperature_towards_ambient (actuation : gmap string R)
    (cells : cells_state) (self after : bioreactor)
    (environment : gmap string R) :
  step P actuation cells self = (after, Ok environment) →
  actuation !! "heat" = Some 0 →
  0 < overall_heat_transfer_coeff self → 0 < q_res P →
  0 < working_volume after → 0 < volumetric_heat_capacity P →
  (temperature self < environment_temperature P →
     temperature self < temperature after)
  ∧ (environment_temperature P < temperature self →
     temperature after < temperature self)
  ∧ (temperature self = environment_temperature P →
     temperature after = temperature self).
Proof.
  intros Hstep Hheat HU Hdt Hv Hcp.
  destruct (step_new_volume_and_temperature _ _ _ _ _ Hstep)
    as (lv & heat & _ & Hheat' & _ & _ & ->).
  rewrite Hheat in Hheat'. injection Hheat' as <-.
  assert (0 < / (working_volume after * volumetric_heat_capacity P)) as Hinv.
  { apply Rinv_0_lt_compat. apply Rmult_lt_0_compat; assumption. }
  unfold Rdiv.
  set (i := / (working_volume after * volumetric_heat_capacity P)) in *.
  set (U := overall_heat_transfer_coeff self) in *.
  set (d := environment_temperature P - temperature self).
  assert (0 < U * q_res P * i) as Hgain
    by (apply Rmult_lt_0_compat; [apply Rmult_lt_0_compat |]; assumption).
  replace ((0 + d * U) * q_res P * i) with (d * (U * q_res P * i)) by ring.
  unfold d. repeat split; intros H.
  - assert (0 < (environment_temperature P - temperature self) * (U * q_res P * i))
      by (apply Rmult_lt_0_compat; lra). lra.
  - assert (0 < (temperature self - environment_temperature P) * (U * q_res P * i))
      by (apply Rmult_lt_0_compat; lra).
    lra.
  - rewrite H. lra.
Qed.

End StepUpdates.

(** ** The snapshot *)

Section Snapshot.

Variable P : param.

(** The last loop of [step] writes the concentration of every liquid
    component and leaves the other keys as they are. *)
Lemma add_concentrations_lookup (self : bioreactor) (components : list string) :
  ∀ environment filled,
    add_concentrations self components environment = Ok filled →
    (∀ c, c ∈ components →
       ∃ m, mole self !! c = Some m
            ∧ filled !! c = Some (m / working_volume self))
    ∧ (∀ k, k ∉ components → filled !! k = environment !! k).
Proof.
  induction components as [| x rest IH]; intros environment filled Hrun.
  - injection Hrun as <-. split; [intros c Hc; inversion Hc | reflexivity].
  - cbn [add_concentrations] in Hrun.
    destruct (getitem (mole self) x) as [m |] eqn:Hm; [| discriminate].
    rsimpl in Hrun.
    destruct (qdiv m (working_volume self)) as [q |] eqn:Hq; [| discriminate].
    rsimpl in Hrun. apply qdiv_inv in Hq as [_ ->]. apply getitem_inv in Hm.
    destruct (IH _ _ Hrun) as [Hin Hout]. split.
    + intros c Hc. destruct (decide (c ∈ rest)) as [Hrest | Hrest].
      * apply Hin. assumption.
      * apply elem_of_cons in Hc as [-> | Hc]; [| contradiction].
        exists m. split; [assumption |].
        rewrite (Hout _ Hrest). apply lookup_insert_eq.
    + intros k Hk. rewrite Hout.
      * apply lookup_insert_ne. intros ->. apply Hk. left.
      * intros Hrest. apply Hk. right. assumption.
Qed.

(** X4: The snapshot a call of [step] returns: for every liquid component its
    amount after the step over the working volume after the step; and, under
    each of the keys 'time', 'volume', 'temperature', 'pH', 'shear',
    'max_shear' and 'mOsm' that is not also the name of a liquid component,
    the time before the call plus the resolution, and the working volume,
    temperature, pH, shear rates and osmolality of the object after the
    step.  It has no other keys. *)
Theorem step_snapshot (actuation : gmap string R) (cells : cells_state)
    (self after : bioreactor) (environment : gmap string R) :
  step P actuation cells self = (after, Ok environment) →
  (∀ c, c ∈ liquid_components P →
     ∃ m, mole after !! c = Some m
          ∧ environment !! c = Some (m / working_volume after))
  ∧ ("time" ∉ liquid_components P →
     environment !! "time" = Some (current_time self + resolution P))
  ∧ ("volume" ∉ liquid_components P →
     environment !! "volume" = Some (working_volume after))
  ∧ ("temperature" ∉ liquid_components P →
     environment !! "temperature" = Some (temperature after))
  ∧ ("pH" ∉ liquid_components P →
     ∃ acidity, pH P after = Ok acidity ∧ environment !! "pH" = Some acidity)
  ∧ ("shear" ∉ liquid_components P →
     environment !! "shear" = mean_shear after)
  ∧ ("max_shear" ∉ liquid_components P →
     environment !! "max_shear" = max_shear after)
  ∧ ("mOsm" ∉ liquid_components P →
     environment !! "mOsm"
     = Some (total_moles after
             / (working_volume after
                * (1 - total_cells cells * cell_volume cells
                       / working_volume self))))
  ∧ (∀ k, is_Some (environment !! k) →
          k ∈ snapshot_keys ∨ k ∈ liquid_components P).
Proof.
  intros Hstep.
  pose proof (step_time P actuation cells self) as Htime.
  rewrite Hstep in Htime. cbn [fst] in Htime.
  destruct (step_returns_inv P _ _ _ _ _ Hstep)
    as (checked & updated & lv & heat & shear & highest & acidity & Hcheck & _
        & Hloop & _ & _ & _ & _ & Hshear & Hhighest & HpH & Hfill).
  destruct (step_returns_frame P _ _ _ _ _ Hcheck Hloop)
    as (_ & _ & _ & Hvolume & _).
  rewrite Hvolume in Hfill. unfold Q in Hfill.
  destruct (add_concentrations_lookup _ _ _ _ Hfill) as [Hin Hout].
  split; [exact Hin |].
  repeat split.
  - intros Hk. rewrite (Hout _ Hk), lookup_insert_eq, Htime. reflexivity.
  - intros Hk. rewrite (Hout _ Hk). reflexivity.
  - intros Hk. rewrite (Hout _ Hk). reflexivity.
  - intros Hk. exists acidity. split; [assumption |].
    rewrite (Hout _ Hk). reflexivity.
  - intros Hk. rewrite (Hout _ Hk), Hshear. reflexivity.
  - intros Hk. rewrite (Hout _ Hk), Hhighest. reflexivity.
  - intros Hk. rewrite (Hout _ Hk).
    rewrite lookup_insert_ne by discriminate.
    rewrite lookup_insert_ne by discriminate.
    rewrite lookup_insert_ne by discriminate.
    rewrite lookup_insert_eq. do 3 f_equal. f_equal. lra.
  - intros k Hsome.
    destruct (decide (k ∈ liquid_components P)) as [Hk | Hk]; [right; assumption |].
    left. rewrite (Hout _ Hk) in Hsome. unfold snapshot_keys.
    repeat (apply lookup_insert_is_Some in Hsome as [<- | [_ Hsome]];
            [solve [repeat first [apply list_elem_of_here
                                 | apply list_elem_of_further]] |]).
    rewrite lookup_empty in Hsome. destruct Hsome as [? Hsome]. discriminate.
Qed.

End Snapshot.

(** ** The relaxation does not overshoot *)

Lemma relaxation_gap (kLa_i dt m C_star V u : R) :
  relaxation kLa_i dt m C_star V u - equilibrium kLa_i C_star V u
  = exp (- (kLa_i * dt)) * (m - equilibrium kLa_i C_star V u).
Proof. unfold relaxation, equilibrium. ring. Qed.

Lemma relaxation_between (kLa_i dt m C_star V u : R) :
  0 <= kLa_i * dt →
  Rmin m (equilibrium kLa_i C_star V u)
  <= relaxation kLa_i dt m C_star V u
  <= Rmax m (equilibrium kLa_i C_star V u).
Proof.
  intros Hk. pose proof (relaxation_gap kLa_i dt m C_star V u) as Hgap.
  pose proof (exp_pos (- (kLa_i * dt))) as Hpos.
  pose proof (exp_nonpos_le_1 (- (kLa_i * dt)) ltac:(lra)) as Hle.
  set (e := exp (- (kLa_i * dt))) in *.
  set (q := equilibrium kLa_i C_star V u) in *.
  set (r := relaxation kLa_i dt m C_star V u) in *.
  unfold Rmin, Rmax. destruct (Rle_dec m q); split; nra.
Qed.

Section Relaxation.

Variable P : param.

(** X5: When a call of [step] returns, the distance of a gas-exchanged component
    from its equilibrium amount [C_star V - uptake / kLa_i] has been
    multiplied by [e^(-kLa_i dt)]; so, for a non-negative [kLa_i dt], the
    new amount lies between the old amount and the equilibrium. *)
Theorem step_relaxation_no_overshoot (actuation : gmap string R)
    (cells : cells_state) (self after : bioreactor)
    (environment : gmap string R) (c : string) :
  NoDup (liquid_components P) →
  c ∈ liquid_components P →
  drop1 c ∈ gas_components P →
  step P actuation cells self = (after, Ok environment) →
  ∃ k gp g sol ratio m u m',
    kla after = Some k ∧ gas_percentages after = Some gp ∧ gp !! c = Some g
    ∧ solubility c = Ok sol ∧ kla_ratio P !! c = Some ratio
    ∧ mole self !! c = Some m ∧ mass_transfer cells !! c = Some u
    ∧ mole after !! c = Some m'
    ∧ let target :=
        equilibrium (k * ratio) (g * pressure self * sol (temperature self))
          (working_volume self) u in
      m' - target = exp (- (k * ratio * q_res P)) * (m - target)
      ∧ (0 <= k * ratio * q_res P → Rmin m target <= m' <= Rmax m target).
Proof.
  intros Hnodup Hin Hgas Hstep.
  destruct (step_returns_inv P _ _ _ _ _ Hstep)
    as (checked & updated & lv & heat & shear & highest & acidity & Hcheck & _
        & Hloop & _ & _ & _ & -> & _).
  destruct (for_each_relaxes P actuation cells c _ Hnodup Hin Hgas _ _ Hloop)
    as (v & (k & gp & g & sol & ratio & m & u & Hk & Hgp & Hg & Hsol & Hratio
             & Hm & Hu & _ & ->) & Hlook).
  pose proof (preserves_at _ _ _ _ _ (check_and_update_inputs P actuation) Hcheck)
    as [= Hpressure Htemperature Hvolume Hmole].
  assert (conditions updated = conditions checked) as [= Hk' Hgp' _ _ _].
  { apply (preserves_at conditions _ _ _ _
             (preserves_for_each _ _ _
                (λ x _, update_component_conditions P actuation cells x)) Hloop). }
  eexists k, gp, g, sol, ratio, m, u, _.
  cbn [kla gas_percentages mole set_temperature set_working_volume].
  rewrite Hk', Hgp', <- Hpressure, <- Htemperature, <- Hvolume, <- Hmole.
  cbv zeta. repeat split; try eassumption.
  - apply relaxation_gap.
  - apply relaxation_between. assumption.
  - apply relaxation_between. assumption.
Qed.

End Relaxation.

(** ** What a run keeps *)

Section RunInvariants.

Variable P : param.

(** What every step leaves alone, a run leaves alone. *)
Lemma run_preserves {Y : Type} (f : bioreactor → Y) :
  (∀ actuation cells, preserves f (step P actuation cells)) →
  ∀ inputs self, f (run P inputs self).1.1 = f self.
Proof.
  intros Hstep. induction inputs as [| [actuation cells] rest IH]; intros self.
  - reflexivity.
  - simpl. specialize (Hstep actuation cells self).
    destruct (step P actuation cells self) as [between [environment | e]];
      simpl in Hstep.
    + specialize (IH between).
      destruct (run P rest between) as [[final environments] raised].
      simpl in *. congruence.
    + simpl. assumption.
Qed.

Lemma run_keeps (I : bioreactor → Prop) :
  (∀ actuation cells, keeps I (step P actuation cells)) →
  ∀ inputs self, I self → I (run P inputs self).1.1.
Proof.
  intros Hstep. induction inputs as [| [actuation cells] rest IH]; intros self HI.
  - assumption.
  - simpl. specialize (Hstep actuation cells self HI).
    destruct (step P actuation cells self) as [between [environment | e]];
      simpl in Hstep.
    + specialize (IH between Hstep).
      destruct (run P rest between) as [[final environments] raised].
      simpl in *. assumption.
    + simpl. assumption.
Qed.

(** An update of a component assigns only to a key that is there. *)
Lemma update_component_species (actuation : gmap string R) (cells : cells_state)
    (component : string) :
  preserves (λ self, dom (mole self))
            (update_component P actuation cells component).
Proof.
  intros self. unfold update_component.
  assert (∀ m v, mole self !! component = Some m →
            dom (mole (setitem_mole component v self)) = dom (mole self)) as Hset.
  { intros m v Hm. unfold setitem_mole. simpl.
    apply dom_insert_lookup_L. rewrite Hm. eexists. reflexivity. }
  destruct (decide (drop1 component ∈ gas_components P)).
  - rewrite bind_getattr. destruct (gas_percentages self); [| reflexivity].
    rewrite bind_pure. destruct (getitem _ component); [| reflexivity].
    rewrite bind_get, bind_pure. destruct (solubility component); [| reflexivity].
    cbv zeta. rewrite bind_getattr. destruct (kla self); [| reflexivity].
    rewrite bind_pure. destruct (getitem (kla_ratio P) component); [| reflexivity].
    rewrite bind_pure.
    destruct (getitem (mole self) component) as [m |] eqn:Hm; [| reflexivity].
    rewrite bind_pure.
    destruct (getitem (mass_transfer cells) component); [| reflexivity].
    rewrite bind_pure. destruct (qdiv _ _); [| reflexivity].
    apply (Hset m). apply getitem_inv. assumption.
  - rewrite bind_pure. destruct (getitem actuation component); [| reflexivity].
    rewrite bind_get, bind_pure.
    destruct (getitem (mole self) component) as [m |] eqn:Hm; [| reflexivity].
    rewrite bind_pure.
    destruct (getitem (mass_transfer cells) component); [| reflexivity].
    apply (Hset m). apply getitem_inv. assumption.
Qed.

Lemma step_species (actuation : gmap string R) (cells : cells_state) :
  preserves (λ self, dom (mole self)) (step P actuation cells).
Proof.
  unfold step. preserves_tac; try reflexivity.
  - apply (preserves_compose mole (λ m : gmap string R, dom m)).
    apply check_and_update_mole.
  - apply preserves_for_each. intros c _. apply update_component_species.
Qed.

(** X6: However many steps are made, and whether they return or raise, the
    species in [self.mole] stay the same: no key is ever added or removed. *)
Theorem run_keeps_species (inputs : list (gmap string R * cells_state))
    (self : bioreactor) :
  dom (mole (run P inputs self).1.1) = dom (mole self).
Proof. apply (run_preserves (λ self, dom (mole self))). apply step_species. Qed.

(** X7: However many steps are made, the vessel volume, the agitator, the
    cross-section, the diameter, the sparger, the kLa closure, the pressure
    and the heat-transfer coefficient stay as [__init__] set them. *)
Theorem run_keeps_geometry (inputs : list (gmap string R * cells_state))
    (self : bioreactor) :
  geometry (run P inputs self).1.1 = geometry self.
Proof. apply (run_preserves geometry). apply step_geometry. Qed.

(** X8: The time at the end of a run is the time at its start plus the
    resolution for every call of [step] made, the one that raised included;
    a run returns at most one snapshot for each input, and one for each
    exactly when no call raised. *)
Theorem run_time_counts_calls (inputs : list (gmap string R * cells_state))
    (self : bioreactor) :
  current_time (run P inputs self).1.1
  = current_time self + INR (calls_made (run P inputs self)) * resolution P
  ∧ (length (run P inputs self).1.2 <= length inputs)%nat
  ∧ ((run P inputs self).2 = None
     ↔ length (run P inputs self).1.2 = length inputs).
Proof.
  revert self. induction inputs as [| [actuation cells] rest IH]; intros self.
  - unfold calls_made. simpl. repeat split; try lra; try lia; reflexivity.
  - simpl. pose proof (step_time P actuation cells self) as Hstep.
    destruct (step P actuation cells self) as [between [environment | e]];
      simpl in Hstep.
    + specialize (IH between). unfold calls_made in *.
      destruct (run P rest between) as [[final environments] raised].
      cbn [fst snd length] in *. destruct IH as (Htime & Hle & Hiff).
      repeat split.
      * rewrite Htime, Hstep.
        change (S (length environments) + match raised with Some _ => 1 | None => 0 end)%nat
          with (S (length environments + match raised with Some _ => 1 | None => 0 end)).
        rewrite S_INR. lra.
      * lia.
      * intros H. apply Hiff in H. lia.
      * intros H. apply Hiff. lia.
    + unfold calls_made. cbn [fst snd length]. repeat split.
      * rewrite Hstep. simpl. lra.
      * lia.
      * discriminate.
      * discriminate.
Qed.

End RunInvariants.

(** ** The shear rates stay consistent *)

Section Keeps.

Context (I : bioreactor → Prop).

Lemma keeps_mret {X : Type} (x : X) : keeps I (mret x).
Proof. intros self H. exact H. Qed.

Lemma keeps_pure {X : Type} (r : result X) : keeps I (pure r).
Proof. intros self H. exact H. Qed.

Lemma keeps_get : keeps I get.
Proof. intros self H. exact H. Qed.

Lemma keeps_getattr {X : Type} (name : string) (field : bioreactor → option X) :
  keeps I (getattr name field).
Proof. intros self H. unfold getattr. destruct (field self); exact H. Qed.

Lemma keeps_assign (g : bioreactor → bioreactor) :
  (∀ self, I self → I (g self)) → keeps I (assign g).
Proof. intros Hg self H. apply Hg. exact H. Qed.

Lemma keeps_bind {X Z : Type} (m : M X) (k : X → M Z) :
  keeps I m → (∀ x, keeps I (k x)) → keeps I (m ≫= k).
Proof.
  intros Hm Hk self H. unfold mbind, M_bind.
  specialize (Hm self H). destruct (m self) as [between [x | e]]; simpl in *.
  - apply Hk. assumption.
  - assumption.
Qed.

Lemma keeps_for_each {X : Type} (l : list X) (body : X → M unit) :
  (∀ x, keeps I (body x)) → keeps I (for_each l body).
Proof.
  intros H. induction l as [| x rest IH]; simpl.
  - apply keeps_mret.
  - apply keeps_bind; [apply H | intros _; apply IH].
Qed.

End Keeps.

Ltac keeps_step :=
  lazymatch goal with
  | |- keeps _ (mbind _ _) => apply keeps_bind; [| intros ?]
  | |- keeps _ (mret _) => apply keeps_mret
  | |- keeps _ (pure _) => apply keeps_pure
  | |- keeps _ get => apply keeps_get
  | |- keeps _ (getattr _ _) => apply keeps_getattr
  | |- keeps _ (assign _) => apply keeps_assign; intros ? ?
  | |- keeps _ (if ?b then _ else _) => destruct b
  | |- keeps _ (let _ := _ in _) => cbv zeta
  end.
Ltac keeps_tac := repeat keeps_step.

Section Shear.

Variable P : param.

(** [update_shear] assigns both rates or neither. *)
Lemma update_shear_consistent (RPS : R) : keeps shear_consistent (update_shear RPS).
Proof.
  intros self H. unfold update_shear.
  rewrite bind_get, bind_pure. destruct (qdiv _ _); [| exact H].
  rewrite bind_pure. destruct (fpow _ _); [| exact H].
  rewrite bind_pure. destruct (qdiv _ _); [| exact H].
  rewrite bind_assign, bind_getattr. reflexivity.
Qed.

Lemma step_shear_consistent (actuation : gmap string R) (cells : cells_state) :
  keeps shear_consistent (step P actuation cells).
Proof.
  unfold step, check_and_update.
  keeps_tac; try assumption; try apply update_shear_consistent.
  apply keeps_for_each. intros c. unfold update_component.
  keeps_tac; assumption.
Qed.

(** X9: From construction on, however many steps are made and whether they
    return or raise, the two shear rates are either both unset or the
    maximum is the mean over 4.2 times 9.7. *)
Theorem run_shear_consistent
    (start_time : R) (initial_components : gmap string R)
    (seed_volume initial_temperature volume : R) (ag : agitator)
    (diameter sparger_height sparger_pore_size head_pressure
     heat_transfer_coeff : R) (self : bioreactor)
    (inputs : list (gmap string R * cells_state)) :
  bioreactor_init P start_time initial_components seed_volume
    initial_temperature volume ag diameter sparger_height sparger_pore_size
    head_pressure heat_transfer_coeff = Ok self →
  shear_consistent (run P inputs self).1.1.
Proof.
  intros Hinit. apply run_keeps; [intros; apply step_shear_consistent |].
  unfold bioreactor_init in Hinit.
  destruct (create_kla_function ag diameter); [| discriminate].
  rsimpl in Hinit. destruct (qdiv _ _); [| discriminate].
  injection Hinit as <-. exact I.
Qed.

End Shear.

(** ** A command is remembered before it is applied *)

Section Remembered.

Variable P : param.

(** A command that differs from the remembered one is remembered, whether
    the recomputation that follows returns or raises. *)
Lemma check_and_update_remembers (actuation : gmap string R) (self : bioreactor) :
  actuation ≠ old self → old (check_and_update P actuation self).1 = actuation.
Proof.
  intros Hdiff. unfold check_and_update.
  rewrite bind_assign, bind_get. cbn [old set_current_time].
  destruct (decide (actuation = old self)); [contradiction |].
  erewrite (bind_step _ _ _ _ false); [| reflexivity].
  cbn [negb]. rewrite bind_assign.
  lazymatch goal with
  | |- ?f (?m ?s).1 = _ => assert (preserves f m) as Hpres
  end.
  { preserves_tac; try reflexivity. apply update_shear_preserves; reflexivity. }
  rewrite Hpres. reflexivity.
Qed.

(** X10: If [check_and_update] raises on a command that differs from the
    remembered one and feeds no liquid, the command has been remembered all
    the same: the same command again returns without computing kLa, the gas
    fractions or the shear rates, which stay as the failed call left them. *)
Theorem failed_command_is_not_recomputed (actuation : gmap string R)
    (self failed : bioreactor) (e : exn) :
  actuation ≠ old self →
  actuation !! "liquid_volume" = Some 0 →
  check_and_update P actuation self = (failed, Raise e) →
  old failed = actuation
  ∧ ∃ retried,
      check_and_update P actuation failed = (retried, Ok tt)
      ∧ kla retried = kla failed
      ∧ gas_percentages retried = gas_percentages failed
      ∧ mean_shear retried = mean_shear failed
      ∧ max_shear retried = max_shear failed.
Proof.
  intros Hdiff Hliquid Hraise.
  pose proof (check_and_update_remembers actuation self Hdiff) as Hold.
  rewrite Hraise in Hold. cbn [fst] in Hold. split; [assumption |].
  eexists. split.
  - apply check_and_update_reuses; [symmetry |]; assumption.
  - repeat split.
Qed.

End Remembered.

(** ** Construction *)

Section Construction.

Variable P : param.

Lemma foldl_insert_zero_lookup (components : list string) (c : string) :
  ∀ m : gmap string R,
    foldl (λ m component, <[component := Q 0 "millimole"]> m) m components !! c
    = if decide (c ∈ components) then Some 0 else m !! c.
Proof.
  induction components as [| x rest IH]; intros m; simpl.
  - destruct (decide (c ∈ [])) as [H | _]; [inversion H | reflexivity].
  - rewrite IH. destruct (decide (c ∈ rest)) as [Hrest | Hrest].
    + destruct (decide (c ∈ x :: rest)) as [_ | H]; [reflexivity |].
      exfalso. apply H. right. assumption.
    + destruct (decide (c ∈ x :: rest)) as [H | H].
      * apply elem_of_cons in H as [-> | H]; [| contradiction].
        apply lookup_insert_eq.
      * apply lookup_insert_ne. intros ->. apply H. left.
Qed.

(** X11: With positive impeller and vessel diameters [__init__] returns a
    reactor; it holds the seed volume, the start time and the initial
    temperature, remembers no command and has no cached values; and
    [self.mole] has, for every species, the initial amount if one was given,
    else zero if the species is a liquid component, else no entry. *)
Theorem bioreactor_init_state
    (start_time : R) (initial_components : gmap string R)
    (seed_volume initial_temperature volume : R) (ag : agitator)
    (diameter sparger_height sparger_pore_size head_pressure
     heat_transfer_coeff : R) :
  0 < ag_diameter ag → 0 < diameter →
  ∃ self,
    bioreactor_init P start_time initial_components seed_volume
      initial_temperature volume ag diameter sparger_height sparger_pore_size
      head_pressure heat_transfer_coeff = Ok self
    ∧ working_volume self = seed_volume
    ∧ current_time self = start_time
    ∧ temperature self = initial_temperature
    ∧ old self = ∅
    ∧ kla self = None ∧ gas_percentages self = None
    ∧ mean_shear self = None ∧ max_shear self = None
    ∧ ∀ c, mole self !! c
           = match initial_components !! c with
             | Some amount => Some amount
             | None => if decide (c ∈ liquid_components P) then Some 0 else None
             end.
Proof.
  intros Hd HD. unfold bioreactor_init.
  rewrite create_kla_function_defined by assumption. rsimpl.
  rewrite qdiv_ok.
  - eexists. split; [reflexivity |]. cbn. repeat split.
    intros c. destruct (initial_components !! c) as [amount |] eqn:Hc.
    + apply lookup_union_Some_l. assumption.
    + rewrite lookup_union_r by assumption.
      rewrite foldl_insert_zero_lookup. rewrite lookup_empty. reflexivity.
  - apply Rgt_not_eq. apply Rmult_lt_0_compat; [| apply PI_RGT_0].
    apply Rdiv_lt_0_compat; [apply pow_lt; assumption | lra].
Qed.

End Construction.

(** ** No gas, no transfer *)

Section NoGas.

Variable P : param.

(** X12: With no gas flow the coefficient [kla_func] returns is zero. *)
Theorem kla_func_without_gas (cl : kla_closure) (ag : agitator)
    (RPS working_volume : R) (k : quantity) :
  kla_func P cl ag RPS 0 working_volume = Ok k → magnitude k = 0.
Proof.
  intros Hk. destruct (kla_func_returns P _ _ _ _ _ _ Hk) as [-> _].
  unfold kLa_correlation, superficial_velocity.
  rewrite Rdiv_0_l, pow_val_zero by lra. ring.
Qed.

End NoGas.

(** ** Only the proportions of the gas flows matter *)

Section GasScale.

Variable P : param.
Variables (actuation scaled : gmap string R) (factor : R).
Hypothesis factor_nonzero : factor ≠ 0.

Lemma total_flow_scaled (components : list string) :
  (∀ c, c ∈ components → scaled !! c = Rmult factor <$> actuation !! c) →
  ∀ total,
    total_flow scaled components (factor * total)
    = match total_flow actuation components total with
      | Ok sum => Ok (factor * sum)
      | Raise e => Raise e
      end.
Proof.
  induction components as [| x rest IH]; intros Hflows total.
  - reflexivity.
  - cbn [total_flow]. unfold getitem. rewrite (Hflows x) by left.
    destruct (actuation !! x) as [flow |]; [| reflexivity].
    cbn [fmap option_fmap option_map]. rsimpl.
    rewrite <- Rmult_plus_distr_l. apply IH.
    intros c Hc. apply Hflows. right. assumption.
Qed.

Lemma fractions_scaled (components : list string) (total : R) :
  (∀ c, c ∈ components → scaled !! c = Rmult factor <$> actuation !! c) →
  ∀ percent,
    fractions scaled components (factor * total) percent
    = fractions actuation components total percent.
Proof.
  induction components as [| x rest IH]; intros Hflows percent.
  - reflexivity.
  - cbn [fractions]. unfold getitem. rewrite (Hflows x) by left.
    destruct (actuation !! x) as [flow |]; [| reflexivity].
    cbn [fmap option_fmap option_map]. rsimpl.
    unfold qdiv.
    destruct (decide (total = 0)) as [-> | Hnz].
    + rewrite Rmult_0_r. destruct (decide (0 = 0)); [reflexivity | contradiction].
    + destruct (decide (factor * total = 0)) as [Hz | _].
      { apply Rmult_integral in Hz as [Hz | Hz]; contradiction. }
      rsimpl.
      replace (factor * flow / (factor * total)) with (flow / total)
        by (field; split; assumption).
      apply IH. intros c Hc. apply Hflows. right. assumption.
Qed.

(** X13: Multiplying every gas flow of a command by the same non-zero factor
    changes nothing in what [calc_gas_percentages] returns or raises. *)
Theorem calc_gas_percentages_scale_invariant :
  (∀ c, c ∈ gas_components P → scaled !! c = Rmult factor <$> actuation !! c) →
  calc_gas_percentages P scaled = calc_gas_percentages P actuation.
Proof.
  intros Hflows. unfold calc_gas_percentages, Q.
  replace 0 with (factor * 0) at 1 by ring.
  rewrite (total_flow_scaled _ Hflows).
  destruct (total_flow actuation (gas_components P) 0) as [total | e];
    [| reflexivity].
  rsimpl. rewrite (fractions_scaled _ _ Hflows). reflexivity.
Qed.

End GasScale.

(** ** The pH and the carbon dioxide *)

Section CarbonDioxide.

Variable P : param.

(** The argument of the logarithm, in one piece, in the two cases of the net
    charge. *)
Lemma pH_log_arg_value (self : bioreactor) (net : operand) (dCO2 : R) :
  0 < working_volume self → mole self !! "dCO2" = Some dCO2 → 0 <= dCO2 →
  net = Plain 0 ∨ (∃ n, net = Scaled 1 n) →
  let carbonic :=
    Rpower 10 (-6.36) * 1.0017 * dCO2 / working_volume self / Q 1 "M" in
  ∃ argument,
    pH_log_arg self net = Ok argument
    ∧ 0 < to_float argument
    ∧ to_float argument
      = match net with
        | Plain x =>
            - x / 2 + sqrt (((x / 2) ^ 2 + powerRZ 10 (-14)) * 1000 ^ 1 + carbonic)
        | Scaled _ n =>
            - n / 2
            + sqrt ((n / 2) ^ 2 + powerRZ 10 (-14) * 1000 ^ 2
                    + carbonic * 1000 ^ 2 / 1000 ^ 1) * 1000 ^ 1
        end.
Proof.
  intros Hv Hlook Hc Hshape carbonic.
  destruct (pH_log_arg_defined self net dCO2 Hv Hlook Hc Hshape)
    as (argument & Harg & Hpos).
  exists argument. split; [assumption |]. split; [assumption |].
  pose proof (carbonic_nonneg _ _ Hv Hc) as Hq. fold carbonic in Hq.
  pose proof powerRZ_10_14_pos as Hw.
  unfold pH_log_arg in Harg. destruct Hshape as [-> | [n ->]].
  - rewrite (pH_sqrt_arg_plain self 0 dCO2) in Harg by (assumption || lra).
    rsimpl in Harg. cbn [to_float] in Harg. fold carbonic in Harg.
    rewrite math_sqrt_ok in Harg by nra. rsimpl in Harg.
    injection Harg as <-. reflexivity.
  - rewrite (pH_sqrt_arg_scaled self n dCO2) in Harg by (assumption || lra).
    rsimpl in Harg. cbn [to_float] in Harg. fold carbonic in Harg.
    pose proof (pow2_ge_0 (n / 2)).
    rewrite math_sqrt_ok in Harg by nra. rsimpl in Harg.
    injection Harg as <-. reflexivity.
Qed.

Lemma log10_le (x y : R) : 0 < x → x <= y → log10 x <= log10 y.
Proof.
  intros Hx [Hlt | ->]; [| lra]. unfold log10.
  pose proof (ln_increasing x y Hx Hlt) as Hln.
  assert (0 < ln 10).
  { rewrite <- ln_1. apply ln_increasing; lra. }
  apply Rmult_le_compat_r; [left; apply Rinv_0_lt_compat; assumption | lra].
Qed.

(** X15: of two reactors with the same positive working volume and the same
    net charge, the one with more dCO2 has the lower pH (or the same). *)
Theorem pH_falls_with_CO2 (self other : bioreactor) (net : operand)
    (dCO2 dCO2' value value' : R) :
  0 < working_volume self → working_volume other = working_volume self →
  mole self !! "dCO2" = Some dCO2 → mole other !! "dCO2" = Some dCO2' →
  0 <= dCO2 <= dCO2' →
  net_charge P self = Ok net → net_charge P other = Ok net →
  pH P self = Ok value → pH P other = Ok value' →
  value' <= value.
Proof.
  intros Hv Hsame Hlook Hlook' [Hc Hle] Hnet Hnet' Hvalue Hvalue'.
  destruct (net_charge_defined P self) as (net0 & Hnet0 & Hshape); [lra |].
  rewrite Hnet in Hnet0. injection Hnet0 as <-.
  assert (0 < working_volume other) as Hv' by lra.
  destruct (pH_log_arg_value self net dCO2 Hv Hlook Hc Hshape)
    as (arg & Harg & Hpos & Heq).
  destruct (pH_log_arg_value other net dCO2' Hv' Hlook' ltac:(lra) Hshape)
    as (arg' & Harg' & Hpos' & Heq').
  unfold pH in Hvalue, Hvalue'.
  rewrite Hnet in Hvalue. rewrite Hnet' in Hvalue'.
  rsimpl in Hvalue. rsimpl in Hvalue'.
  rewrite Harg in Hvalue. rewrite Harg' in Hvalue'.
  rsimpl in Hvalue. rsimpl in Hvalue'.
  rewrite (math_log10_ok _ Hpos) in Hvalue.
  rewrite (math_log10_ok _ Hpos') in Hvalue'.
  injection Hvalue as <-. injection Hvalue' as <-.
  cut (to_float arg <= to_float arg').
  { intros Harg_le. pose proof (log10_le _ _ Hpos Harg_le). lra. }
  rewrite Heq, Heq', Hsame.
  pose proof (carbonic_nonneg _ _ Hv Hc) as Hq.
  pose proof powerRZ_10_14_pos as Hw.
  assert (Rpower 10 (-6.36) * 1.0017 * dCO2 / working_volume self / Q 1 "M"
          <= Rpower 10 (-6.36) * 1.0017 * dCO2' / working_volume self / Q 1 "M")
    as Hmono.
  { unfold Q. pose proof Ka_pos.
    apply Rmult_le_compat_r; [lra |].
    apply Rmult_le_compat_r; [left; apply Rinv_0_lt_compat; assumption |].
    apply Rmult_le_compat_l; lra. }
  destruct Hshape as [-> | [n ->]].
  - apply Rplus_le_compat_l. apply sqrt_le_1_alt. lra.
  - apply Rplus_le_compat_l. apply Rmult_le_compat_r; [lra |].
    apply sqrt_le_1_alt. lra.
Qed.

End CarbonDioxide.

(** * Properties of the instruments *)

(** ** The temperature probe *)

Lemma temperature_probe_read_inv (random_error temperature : R)
    (environment : gmap string R) (self : temperature_probe) :
  environment !! "temperature" = Some temperature →
  ∃ after,
    temperature_probe_read random_error environment self
    = (after, Ok (<["temperature" := tp_value after]> ∅))
    ∧ tp_ratio after = tp_ratio self ∧ tp_sys_error after = tp_sys_error self
    ∧ tp_value after - (temperature + tp_sys_error self + random_error)
      = (1 - tp_ratio self)
        * (tp_value self - (temperature + tp_sys_error self + random_error)).
Proof.
  intros Hlook. unfold temperature_probe_read.
  rewrite (getitem_ok _ _ _ Hlook). cbv zeta.
  eexists. split; [reflexivity |]. cbn. repeat split. ring.
Qed.

(** X16: A reading returns the probe's new value; it has moved towards the
    temperature the probe senses (the true one plus the systematic and the
    random error), the distance multiplied by [1 - ratio]; so for a ratio
    between 0 and 1 the new value lies between the old value and the sensed
    temperature.  Without a temperature in the environment the reading
    raises [KeyError] and the probe keeps its value. *)
Theorem temperature_probe_read_lags (random_error : R)
    (environment : gmap string R) (self : temperature_probe) :
  (∀ temperature,
     environment !! "temperature" = Some temperature →
     let sensed := temperature + tp_sys_error self + random_error in
     ∃ after,
       temperature_probe_read random_error environment self
       = (after, Ok (<["temperature" := tp_value after]> ∅))
       ∧ tp_value after - sensed = (1 - tp_ratio self) * (tp_value self - sensed)
       ∧ (0 <= tp_ratio self <= 1 →
          Rmin (tp_value self) sensed <= tp_value after
          <= Rmax (tp_value self) sensed))
  ∧ (environment !! "temperature" = None →
     temperature_probe_read random_error environment self
     = (self, Raise (KeyError "temperature"))).
Proof.
  split.
  - intros temperature Hlook sensed.
    destruct (temperature_probe_read_inv random_error temperature environment
                self Hlook) as (after & Hread & _ & _ & Hgap).
    exists after. fold sensed in Hgap.
    split; [assumption |]. split; [assumption |].
    intros Hratio. unfold Rmin, Rmax.
    destruct (Rle_dec (tp_value self) sensed); split; nra.
  - intros Hlook. unfold temperature_probe_read, getitem. rewrite Hlook.
    reflexivity.
Qed.

Lemma temperature_probe_init_defined (P : param) (t98 sys_error : R) :
  0 < t98 →
  temperature_probe_init P t98 sys_error
  = Ok {| tp_sys_error := sys_error; tp_value := 30;
          tp_ratio := 1 - Rpower 0.02 (resolution P / t98) |}.
Proof.
  intros Ht. unfold temperature_probe_init.
  rewrite qdiv_ok by lra. rsimpl. rewrite fpow_pos by lra. rsimpl.
  replace (1 - 0.98) with 0.02 by lra. reflexivity.
Qed.

(** Noise-free readings of a constant temperature: the gap shrinks by
    [1 - ratio] at each. *)
Lemma temperature_probe_reads_gap (temperature : R) (environment : gmap string R) :
  environment !! "temperature" = Some temperature →
  ∀ n self,
    tp_ratio (temperature_probe_reads (replicate n 0) environment self)
    = tp_ratio self
    ∧ tp_value (temperature_probe_reads (replicate n 0) environment self)
      - (temperature + tp_sys_error self)
      = (1 - tp_ratio self) ^ n
        * (tp_value self - (temperature + tp_sys_error self)).
Proof.
  intros Hlook. induction n as [| n IH]; intros self.
  - simpl. split; [reflexivity | ring].
  - cbn [replicate temperature_probe_reads].
    destruct (temperature_probe_read_inv 0 temperature environment self Hlook)
      as (after & -> & Hratio & Hsys & Hgap).
    destruct (IH after) as [IHratio IHgap].
    rewrite IHratio, Hratio. split; [reflexivity |].
    rewrite Hsys, Hratio in IHgap. rewrite IHgap.
    rewrite Rplus_0_r in Hgap. rewrite Hgap. simpl. ring.
Qed.

(** X17: The meaning of [t98]: a probe constructed with a positive [t98] has a
    ratio strictly between 0 and 1 when the resolution is positive, and
    after as many noise-free readings of a constant temperature as make up
    the time [t98], 2% of its initial distance from the temperature it
    senses is left. *)
Theorem temperature_probe_settles_in_t98 (P : param) (t98 sys_error : R)
    (temperature : R) (environment : gmap string R) (n : nat) :
  0 < resolution P → 0 < t98 →
  INR n * resolution P = t98 →
  environment !! "temperature" = Some temperature →
  ∃ probe,
    temperature_probe_init P t98 sys_error = Ok probe
    ∧ 0 < tp_ratio probe < 1
    ∧ tp_value (temperature_probe_reads (replicate n 0) environment probe)
      - (temperature + sys_error)
      = 0.02 * (30 - (temperature + sys_error)).
Proof.
  intros Hres Ht Hn Hlook.
  eexists. split; [apply temperature_probe_init_defined; assumption |].
  cbn [tp_ratio]. split.
  - pose proof (Rpower_pos 0.02 (resolution P / t98)) as Hpos.
    assert (Rpower 0.02 (resolution P / t98) < 1).
    { unfold Rpower. rewrite <- exp_0. apply exp_increasing.
      assert (ln 0.02 < 0).
      { rewrite <- ln_1. apply ln_increasing; lra. }
      assert (0 < resolution P / t98) by (apply Rdiv_lt_0_compat; assumption).
      nra. }
    lra.
  - destruct (temperature_probe_reads_gap temperature environment Hlook n
                {| tp_sys_error := sys_error; tp_value := 30;
                   tp_ratio := 1 - Rpower 0.02 (resolution P / t98) |})
      as [_ Hgap].
    cbn [tp_ratio tp_value tp_sys_error] in Hgap. rewrite Hgap. f_equal.
    replace (1 - (1 - Rpower 0.02 (resolution P / t98)))
      with (Rpower 0.02 (resolution P / t98)) by ring.
    rewrite <- Rpower_pow by apply Rpower_pos.
    rewrite Rpower_mult.
    replace (resolution P / t98 * INR n) with (INR n * resolution P / t98)
      by (field; lra).
    rewrite Hn. replace (t98 / t98) with 1 by (field; lra).
    apply Rpower_1. lra.
Qed.

(** ** The cell counter *)

Lemma reported_viability_bounds (viability error_frac : R) :
  0 <= viability <= 1 → -1 <= error_frac <= 1 →
  0 <= reported_viability viability error_frac <= 1
  ∧ (0 < error_frac → viability <= reported_viability viability error_frac)
  ∧ (error_frac <= 0 → reported_viability viability error_frac <= viability).
Proof.
  intros Hv He. unfold reported_viability.
  destruct (decide (0 < error_frac)); repeat split; intros; nra.
Qed.

(** X18: With the cell counts, the diameter and a non-zero volume at hand, at
    least one cell in total and no more living cells than cells, the reading
    returns; for an error fraction (random plus systematic viability error)
    between -1 and 1 the reported viability stays between 0 and 1, no lower
    than the true one for a positive error fraction and no higher
    otherwise. *)
Theorem cell_counter_viability_bounds
    (density_error size_error viability_error : R)
    (env cells : gmap string R) (self : cell_counter)
    (living total diameter volume : R) :
  cells !! "living_cells" = Some living →
  cells !! "total_cells" = Some total →
  cells !! "diameter" = Some diameter →
  env !! "volume" = Some volume →
  volume ≠ 0 → 0 <= living <= total → 0 < total →
  -1 <= viability_error + via_sys_error self <= 1 →
  ∃ reading viability,
    cell_counter_read density_error size_error viability_error env cells self
    = Ok reading
    ∧ reading !! "viability" = Some viability
    ∧ 0 <= viability <= 1
    ∧ (0 < viability_error + via_sys_error self → living / total <= viability)
    ∧ (viability_error + via_sys_error self <= 0 → viability <= living / total)
    ∧ reading !! "VCD"
      = Some (living / volume * (1 + density_error + density_sys_error self))
    ∧ reading !! "cell_diameter"
      = Some (diameter + size_sys_error self + size_error).
Proof.
  intros Hliving Htotal Hdiameter Hvolume Hnz Hle Hpos Herr.
  unfold cell_counter_read.
  rewrite (getitem_ok _ _ _ Hliving), (getitem_ok _ _ _ Htotal),
    (getitem_ok _ _ _ Hdiameter), (getitem_ok _ _ _ Hvolume). rsimpl.
  rewrite (qdiv_ok _ _ Hnz). rsimpl. rewrite qdiv_ok by lra. rsimpl.
  assert (0 <= living / total <= 1) as Hv.
  { split.
    - apply Rmult_le_pos; [lra | left; apply Rinv_0_lt_compat; assumption].
    - apply (Rmult_le_reg_r total); [assumption |].
      unfold Rdiv. rewrite Rmult_assoc, Rinv_l by lra. lra. }
  destruct (reported_viability_bounds _ _ Hv Herr) as (Hb & Hup & Hdown).
  eexists. eexists. split; [reflexivity |].
  split; [apply lookup_insert_eq |].
  repeat split; try assumption; try (apply Hb).
Qed.

(** ** The pH probe and the analyser it is calibrated against *)

Lemma probe_ratio_defined (P : param) (t98 : R) :
  t98 ≠ 0 → probe_ratio P t98 = Ok (1 - Rpower 0.02 (resolution P / t98)).
Proof.
  intros Ht98. unfold probe_ratio. rewrite qdiv_ok by assumption. rsimpl.
  rewrite fpow_pos by lra. rsimpl. repeat f_equal. lra.
Qed.

(** A probe constructed with a non-zero [t98] exists, calibrated at the time
    of its construction against its reference. *)
Lemma pH_probe_init_returns (P : param) (t98 : R)
    (drift_slope reference_error calibration_error time : R)
    (cal_reference : BGA) :
  t98 ≠ 0 →
  ∃ self,
    pH_probe_init P t98 drift_slope reference_error calibration_error time
      cal_reference = Ok self
    ∧ ph_cal_time self = Some time
    ∧ ph_reference self = cal_reference.
Proof.
  intros Ht98. unfold pH_probe_init.
  rewrite probe_ratio_defined by assumption. rsimpl.
  eexists. split; [reflexivity |]. split; reflexivity.
Qed.

(** X19: A pH probe is calibrated as it is constructed, so that the offset 5 it
    is first given is never seen: a new probe has for offset the error the
    reference analyser made on the buffer (its random plus its systematic
    error) plus the calibration error of the probe; it shows 7 and was
    calibrated at the time of its construction. *)
Theorem pH_probe_init_calibrated (P : param) (t98 : R)
    (drift_slope reference_error calibration_error time : R)
    (cal_reference : BGA) :
  t98 ≠ 0 →
  ∃ self,
    pH_probe_init P t98 drift_slope reference_error calibration_error time
      cal_reference = Ok self
    ∧ ph_sys_error self
      = reference_error + pH_systematic_error cal_reference + calibration_error
    ∧ ph_value self = 7
    ∧ ph_cal_time self = Some time
    ∧ ph_reference self = cal_reference
    ∧ ph_drift_slope self = drift_slope.
Proof.
  intros Ht98. unfold pH_probe_init.
  rewrite probe_ratio_defined by assumption. rsimpl.
  eexists. split; [reflexivity |].
  cbn [pH_probe_one_point ph_sys_error ph_value ph_cal_time ph_reference
       ph_drift_slope].
  repeat split. unfold read_pH_value. lra.
Qed.

(** X20: After a one-point calibration, at whatever buffer value, the value the
    probe moves towards differs from what the reference analyser reads on
    the same sample only by the drift since the calibration and by random
    errors: the systematic error of the analyser is in both.  The drift is
    the drift slope times the years since the calibration. *)
Theorem pH_probe_follows_reference (reference_error calibration_error : R)
    (time value random_error offline_error now acidity : R)
    (environment : gmap string R) (self : pH_probe) :
  environment !! "time" = Some now →
  environment !! "pH" = Some acidity →
  let calibrated :=
    pH_probe_one_point reference_error calibration_error time value self in
  ∃ after,
    pH_probe_read random_error environment calibrated
    = (after, Ok (<["pH" := ph_value after]> ∅))
    ∧ ph_value after
      = ph_ratio self
        * (read_pH_value offline_error (ph_reference self) acidity
           + (now - time) / 365 * ph_drift_slope self
           + (random_error + calibration_error + reference_error
              - offline_error))
        + (1 - ph_ratio self) * ph_value self.
Proof.
  intros Htime HpH calibrated. unfold pH_probe_read, getitem.
  rewrite Htime, HpH.
  subst calibrated. cbn [pH_probe_one_point ph_cal_time].
  lazymatch goal with
  | |- ∃ after, (?probe, _) = _ ∧ _ => exists probe
  end.
  split; [reflexivity |].
  cbn [pH_probe_one_point ph_ratio ph_reference ph_drift_slope ph_sys_error
       ph_value].
  unfold read_pH_value, year. field.
Qed.

(** ** The oxygen probe *)

(** X21: A new oxygen probe has been calibrated at 100%: its offset is 100 times
    the relative error the reference analyser made (random plus systematic)
    plus the calibration error of the probe, not the 5 it is first given. *)
Theorem O2_probe_init_calibrated (P : param) (t98 : R)
    (drift_slope reference_error calibration_error time : R)
    (cal_reference : BGA) :
  0 < t98 →
  ∃ self,
    O2_probe_init P t98 drift_slope reference_error calibration_error time
      cal_reference = Ok self
    ∧ o2_sys_error self
      = 100 * (reference_error + O2_systematic_error cal_reference)
        + calibration_error
    ∧ o2_value self = 100
    ∧ o2_cal_time self = Some time
    ∧ o2_reference self = cal_reference
    ∧ o2_conversion_constant self = Some (1 / 0.00217).
Proof.
  intros Ht98. unfold O2_probe_init.
  rewrite probe_ratio_defined by lra. rsimpl.
  eexists. split; [reflexivity |].
  cbn [O2_probe_one_point o2_sys_error o2_value o2_cal_time o2_reference
       o2_conversion_constant].
  repeat split. unfold read_O2_value. lra.
Qed.

(** X24: after a one-point calibration at the level [value], what a reading
    of the level [percent] moves the probe towards differs from what the
    reference analyser reads at that level by random errors and drift
    proportional to the level, and by the systematic error of the analyser
    times [value - percent]: the probe takes over the systematic error of
    the analyser at the level of the calibration only. *)
Theorem O2_probe_follows_reference_at_calibration
    (reference_error calibration_error : R)
    (time value random_error offline_error now dO2 conversion : R)
    (environment molarity : gmap string R) (self : O2_probe) :
  environment !! "time" = Some now →
  molarity !! "dO2" = Some dO2 →
  o2_conversion_constant self = Some conversion →
  let calibrated :=
    O2_probe_one_point reference_error calibration_error time value self in
  let percent := dO2 * conversion in
  let drift := (now - time) / 365 * o2_drift_slope self in
  ∃ after,
    O2_probe_read random_error environment (Some molarity) calibrated
    = (after, Ok (<["dO2" := o2_value after]> ∅))
    ∧ o2_value after
      = o2_ratio self
        * (read_O2_value offline_error (o2_reference self) percent
           + percent * (drift + random_error - offline_error)
           + value * reference_error + calibration_error
           + (value - percent) * O2_systematic_error (o2_reference self))
        + (1 - o2_ratio self) * o2_value self.
Proof.
  intros Htime HdO2 Hconversion calibrated percent drift.
  unfold O2_probe_read, getitem. rewrite Htime, HdO2.
  subst calibrated.
  cbn [O2_probe_one_point o2_cal_time o2_conversion_constant].
  rewrite Hconversion.
  lazymatch goal with
  | |- ∃ after, (?probe, _) = _ ∧ _ => exists probe
  end.
  split; [reflexivity |].
  cbn [O2_probe_one_point o2_ratio o2_reference o2_drift_slope o2_sys_error
       o2_value].
  subst percent drift. unfold read_O2_value, year. field.
Qed.

(** ** The wrapper of the instruments *)

Section WrapperProperties.

Context {osmo_instance bioHT_instance : Type}.
Variable P : param.
Variables pH_t98 O2_t98 temperature_t98 : R.
Variable draws : calibration_draws.
Variable start_time : R.
Variable osmo : option osmo_instance.
Variable BGA_instance : BGA.
Variable cell_counter : option cell_counter.

Lemma bioHT_assays_some (analyser : bioHT_instance) (bioHT_list : list string) :
  ∀ offline : list (offline_assay osmo_instance bioHT_instance),
    bioHT_assays (Some analyser) bioHT_list offline
    = Ok (offline ++ map (bioHT_read_value analyser) bioHT_list).
Proof.
  induction bioHT_list as [| assay rest IH]; intros offline; cbn [bioHT_assays map].
  - rewrite app_nil_r. reflexivity.
  - rewrite IH, <- app_assoc. reflexivity.
Qed.

(** X22: Constructing a wrapper with [bioHT_list] left at its default [None]
    raises [TypeError], whatever the other arguments; with a list that names
    an assay and no bioHT it raises [ValueError]. *)
Theorem wrapper_init_raises
    (bioHT : option bioHT_instance) (assay : string) (rest : list string)
    (pH O2 temp use_scale recirc_flowmeter levitronix_RPM : bool) :
  wrapper_init P pH_t98 O2_t98 temperature_t98 draws start_time osmo
    BGA_instance cell_counter bioHT None
    pH O2 temp use_scale recirc_flowmeter levitronix_RPM
  = TypeError "'NoneType' object is not iterable"
  ∧ wrapper_init P pH_t98 O2_t98 temperature_t98 draws start_time osmo
      BGA_instance cell_counter (@None bioHT_instance) (Some (assay :: rest))
      pH O2 temp use_scale recirc_flowmeter levitronix_RPM
    = Raised (ValueError "Need instance of bioHT to run assays!").
Proof. split; reflexivity. Qed.

(** X23: With positive [t98] of the three probes and a bioHT at hand unless no
    assay is asked of it, the constructor returns a wrapper.  Its offline
    assays are that of the analyser, then one of the bioHT for each assay of
    the list, in its order, then that of the cell counter and that of the
    osmometer, if these were given.  It has one online assay for each flag
    set; and if [pH] is set the first is a pH probe calibrated at the start
    time against the analyser. *)
Theorem wrapper_init_assays
    (bioHT : option bioHT_instance) (bioHT_list : list string)
    (pH O2 temp use_scale recirc_flowmeter levitronix_RPM : bool) :
  0 < pH_t98 → 0 < O2_t98 → 0 < temperature_t98 →
  (bioHT = None → bioHT_list = []) →
  ∃ w,
    wrapper_init P pH_t98 O2_t98 temperature_t98 draws start_time osmo
      BGA_instance cell_counter bioHT (Some bioHT_list)
      pH O2 temp use_scale recirc_flowmeter levitronix_RPM
    = Constructed w
    ∧ offline_assays w
      = BGA_read_value BGA_instance
        :: match bioHT with
           | Some analyser => map (bioHT_read_value analyser) bioHT_list
           | None => []
           end
        ++ match cell_counter with
           | Some counter => [cell_counter_read_value counter]
           | None => []
           end
        ++ match osmo with
           | Some osmometer => [osmo_read_value osmometer]
           | None => []
           end
    ∧ length (online_assays w)
      = (Nat.b2n pH + Nat.b2n O2 + Nat.b2n temp + Nat.b2n use_scale
         + Nat.b2n recirc_flowmeter + Nat.b2n levitronix_RPM)%nat
    ∧ (pH = true →
       ∃ probe,
         online_assays w !! 0%nat = Some (pH_probe_read_value probe)
         ∧ ph_cal_time probe = Some start_time
         ∧ ph_reference probe = BGA_instance).
Proof.
  intros HpH HO2 Htemp Hlist.
  destruct (pH_probe_init_returns P pH_t98 (pH_drift_slope_draw draws)
              (pH_reference_draw draws) (pH_calibration_draw draws) start_time
              BGA_instance) as (pH_probe & HpH_init & Hcal & Href); [lra |].
  destruct (O2_probe_init P O2_t98 (O2_drift_slope_draw draws)
              (O2_reference_draw draws) (O2_calibration_draw draws) start_time
              BGA_instance) as [O2_probe |] eqn:HO2_init.
  2:{ unfold O2_probe_init in HO2_init.
      rewrite probe_ratio_defined in HO2_init by lra. discriminate. }
  unfold wrapper_init. cbn [mbind construction_bind].
  assert (∃ offline,
            bioHT_assays bioHT bioHT_list [BGA_read_value BGA_instance]
            = Ok offline
            ∧ offline
              = BGA_read_value BGA_instance
                :: match bioHT with
                   | Some analyser => map (bioHT_read_value analyser) bioHT_list
                   | None => []
                   end) as (offline & -> & ->).
  { destruct bioHT as [analyser |].
    - rewrite bioHT_assays_some. eexists. split; reflexivity.
    - rewrite Hlist by reflexivity. eexists. split; reflexivity. }
  rewrite HpH_init, HO2_init, temperature_probe_init_defined by assumption.
  cbn [construct mbind construction_bind].
  destruct pH, O2, temp, use_scale, recirc_flowmeter, levitronix_RPM;
    cbn [construct mbind construction_bind app];
    (eexists; split; [reflexivity |]);
    cbn [offline_assays online_assays];
    (split; [destruct cell_counter, osmo; cbn [app];
             rewrite <- ?app_assoc, ?app_nil_r; reflexivity |]);
    (split; [reflexivity |]);
    intros Hflag; try discriminate Hflag;
    (exists pH_probe; repeat split; assumption).
Qed.

End WrapperProperties.

(** * The further properties on the scenario *)

Lemma tanh_zero : tanh 0 = 0.
Proof. unfold tanh. rewrite sinh_0. apply Rdiv_0_l. Qed.

(** Without gas flow [kla_func] still returns in the scenario. *)
Lemma scenario_kla_without_gas_returns :
  ∃ k, kla_func scenario_param scenario_closure scenario_agitator 3 0 1 = Ok k.
Proof.
  destruct scenario_closure_bounds as (HA & HB & HC).
  unfold kla_func.
  rewrite (qdiv_ok 0 (3 * ag_diameter scenario_agitator ^ 3))
    by (cbn [ag_diameter scenario_agitator]; lra).
  rsimpl. rewrite Rdiv_0_l.
  rewrite (fpow_nonneg (froude_coeff scenario_closure * 3 ^ 2) 0.25)
    by (cbn [froude_coeff scenario_closure]; lra).
  rsimpl.
  rewrite (fpow_zero (C scenario_closure
                      + 0.04 * (froude_coeff scenario_closure * 3 ^ 2)))
    by (cbn [C froude_coeff scenario_closure]; lra).
  rsimpl.
  rewrite (qdiv_ok 0 (kla_CSA scenario_closure))
    by (cbn [kla_CSA scenario_closure]; pose proof PI_RGT_0; nra).
  rsimpl. rewrite Rdiv_0_l, Rmult_0_r, tanh_zero.
  rewrite (qdiv_ok _ 1) by lra. rsimpl.
  rewrite (fpow_nonneg _ 0.39).
  - rsimpl. rewrite fpow_zero by lra. rsimpl. eexists. reflexivity.
  - unfold ungassed_power, Q.
    cbn [ag_number ag_ungassed_power_coeff scenario_agitator]. lra.
  - lra.
Qed.

Lemma kla_func_without_gas_witness :
  ∃ k, kla_func scenario_param scenario_closure scenario_agitator 3 0 1 = Ok k
       ∧ magnitude k = 0.
Proof.
  destruct scenario_kla_without_gas_returns as [k Hk].
  exists k. split; [exact Hk |].
  apply (kla_func_without_gas scenario_param scenario_closure scenario_agitator
           3 1 k Hk).
Defined.

Lemma scenario_heat_transfer_pos : 0 < overall_heat_transfer_coeff scenario_reactor.
Proof.
  cbn [overall_heat_transfer_coeff scenario_reactor].
  pose proof PI_RGT_0 as Hpi.
  assert (0 < 0.13 ^ 2 / 4 * PI) as Harea by nra.
  assert (0 < 3 / (0.13 ^ 2 / 4 * PI)) as Hheight
    by (apply Rdiv_lt_0_compat; lra).
  assert (0 < 3 / (0.13 ^ 2 / 4 * PI) * PI * 0.13)
    by (apply Rmult_lt_0_compat; [apply Rmult_lt_0_compat |]; lra).
  lra.
Qed.

Lemma step_feeds_liquid_component_witness :
  ∃ after environment,
    step scenario_param (scenario_actuation 3) scenario_cells scenario_reactor
    = (after, Ok environment)
    ∧ ∃ rate m u,
        scenario_actuation 3 !! "glucose" = Some rate
        ∧ mole scenario_reactor !! "glucose" = Some m
        ∧ mass_transfer scenario_cells !! "glucose" = Some u
        ∧ mole after !! "glucose" = Some (m + (rate + u) * q_res scenario_param).
Proof.
  destruct scenario_step_returns as (after & environment & Hstep).
  exists after, environment. split; [exact Hstep |].
  apply (step_feeds_liquid_component scenario_param (scenario_actuation 3)
           scenario_cells scenario_reactor after environment "glucose").
  - apply scenario_liquid_components_distinct.
  - right. right. left.
  - apply glucose_not_exchanged.
  - exact Hstep.
Defined.

Lemma step_volume_and_temperature_witness :
  ∃ after environment,
    step scenario_param (scenario_actuation 3) scenario_cells scenario_reactor
    = (after, Ok environment)
    ∧ ∃ liquid_volume heat,
        scenario_actuation 3 !! "liquid_volume" = Some liquid_volume
        ∧ scenario_actuation 3 !! "heat" = Some heat
        ∧ working_volume after
          = working_volume scenario_reactor + liquid_volume * q_res scenario_param
        ∧ working_volume after * volumetric_heat_capacity scenario_param ≠ 0
        ∧ temperature after
          = temperature scenario_reactor
            + (heat + (environment_temperature scenario_param
                       - temperature scenario_reactor)
                      * overall_heat_transfer_coeff scenario_reactor)
              * q_res scenario_param
              / (working_volume after * volumetric_heat_capacity scenario_param).
Proof.
  destruct scenario_step_returns as (after & environment & Hstep).
  exists after, environment. split; [exact Hstep |].
  apply (step_volume_and_temperature scenario_param (scenario_actuation 3)
           scenario_cells scenario_reactor after environment Hstep).
Defined.

Lemma step_temperature_towards_ambient_witness :
  ∃ after environment,
    step scenario_param (scenario_actuation 3) scenario_cells scenario_reactor
    = (after, Ok environment)
    ∧ temperature after < temperature scenario_reactor.
Proof.
  destruct scenario_step_returns as (after & environment & Hstep).
  exists after, environment. split; [exact Hstep |].
  destruct (step_new_volume_and_temperature scenario_param _ _ _ _ _ Hstep)
    as (lv & heat & Hlv & _ & Hvolume & _).
  assert (lv = 0) as -> by (change (Some 0 = Some lv) in Hlv; congruence).
  apply (step_temperature_towards_ambient scenario_param (scenario_actuation 3)
           scenario_cells scenario_reactor after environment Hstep).
  - reflexivity.
  - apply scenario_heat_transfer_pos.
  - cbn [q_res scenario_param]. lra.
  - rewrite Hvolume. cbn [working_volume scenario_reactor q_res scenario_param].
    lra.
  - cbn [volumetric_heat_capacity scenario_param]. lra.
  - cbn [environment_temperature scenario_param temperature scenario_reactor].
    lra.
Defined.

Lemma time_not_a_component : "time" ∉ liquid_components scenario_param.
Proof.
  intros H. cbn [liquid_components scenario_param] in H.
  repeat (apply elem_of_cons in H as [H | H]; [discriminate H |]).
  inversion H.
Qed.

Lemma step_snapshot_witness :
  ∃ after environment,
    step scenario_param (scenario_actuation 3) scenario_cells scenario_reactor
    = (after, Ok environment)
    ∧ environment !! "time"
      = Some (current_time scenario_reactor + resolution scenario_param)
    ∧ ∃ m, mole after !! "dO2" = Some m
           ∧ environment !! "dO2" = Some (m / working_volume after).
Proof.
  destruct scenario_step_returns as (after & environment & Hstep).
  exists after, environment. split; [exact Hstep |].
  destruct (step_snapshot scenario_param (scenario_actuation 3) scenario_cells
              scenario_reactor after environment Hstep)
    as (Hcomponents & Htime & _).
  split.
  - apply Htime. apply time_not_a_component.
  - apply Hcomponents. left.
Defined.

Lemma step_relaxation_no_overshoot_witness :
  ∃ after environment,
    step scenario_param (scenario_actuation 3) scenario_cells scenario_reactor
    = (after, Ok environment)
    ∧ ∃ k gp g sol ratio m u m',
        kla after = Some k ∧ gas_percentages after = Some gp
        ∧ gp !! "dO2" = Some g
        ∧ solubility "dO2" = Ok sol
        ∧ kla_ratio scenario_param !! "dO2" = Some ratio
        ∧ mole scenario_reactor !! "dO2" = Some m
        ∧ mass_transfer scenario_cells !! "dO2" = Some u
        ∧ mole after !! "dO2" = Some m'
        ∧ let target :=
            equilibrium (k * ratio)
              (g * pressure scenario_reactor * sol (temperature scenario_reactor))
              (working_volume scenario_reactor) u in
          m' - target
          = exp (- (k * ratio * q_res scenario_param)) * (m - target)
          ∧ (0 <= k * ratio * q_res scenario_param →
             Rmin m target <= m' <= Rmax m target).
Proof.
  destruct scenario_step_returns as (after & environment & Hstep).
  exists after, environment. split; [exact Hstep |].
  apply (step_relaxation_no_overshoot scenario_param (scenario_actuation 3)
           scenario_cells scenario_reactor after environment "dO2").
  - apply scenario_liquid_components_distinct.
  - left.
  - left.
  - exact Hstep.
Defined.

Lemma run_shear_consistent_witness :
  shear_consistent
    (run scenario_param
       [(scenario_actuation 3, scenario_cells); (speedless_actuation, scenario_cells)]
       scenario_reactor).1.1.
Proof.
  apply (run_shear_consistent scenario_param 0 (<["dO2" := 0]> ∅) 1 30 3
           scenario_agitator 0.13 0.02 0.00002 760 50).
  apply scenario_reactor_constructed.
Defined.

(** Without a speed in the command the recomputation raises [KeyError]. *)
Lemma speedless_check_and_update_raises :
  check_and_update scenario_param speedless_actuation scenario_reactor
  = (set_old speedless_actuation
       (set_current_time (current_time scenario_reactor + 1) scenario_reactor),
     Raise (KeyError "RPS")).
Proof.
  unfold check_and_update. rewrite bind_assign, bind_get.
  cbn [old set_current_time scenario_reactor].
  destruct (decide (speedless_actuation = ∅)) as [E | _].
  { exfalso.
    assert (speedless_actuation !! "heat" = (∅ : gmap string R) !! "heat") as H
      by (rewrite E; reflexivity).
    discriminate H. }
  erewrite (bind_step _ _ _ _ false); [| reflexivity].
  cbn [negb]. rewrite bind_assign, bind_pure. reflexivity.
Qed.

Lemma speedless_actuation_not_empty : speedless_actuation ≠ old scenario_reactor.
Proof.
  intros E.
  assert (speedless_actuation !! "heat" = old scenario_reactor !! "heat") as H
    by (rewrite E; reflexivity).
  discriminate H.
Qed.

Lemma failed_command_is_not_recomputed_witness :
  ∃ failed retried,
    check_and_update scenario_param speedless_actuation scenario_reactor
    = (failed, Raise (KeyError "RPS"))
    ∧ old failed = speedless_actuation
    ∧ check_and_update scenario_param speedless_actuation failed = (retried, Ok tt)
    ∧ kla retried = kla failed.
Proof.
  pose proof speedless_check_and_update_raises as Hraise.
  destruct (failed_command_is_not_recomputed scenario_param speedless_actuation
              scenario_reactor _ (KeyError "RPS")
              speedless_actuation_not_empty eq_refl Hraise)
    as (Hold & retried & Hretry & Hkla & _).
  eexists. exists retried.
  split; [exact Hraise |]. repeat split; assumption.
Defined.

Lemma bioreactor_init_state_witness :
  ∃ self,
    bioreactor_init scenario_param 0 (<["dO2" := 0]> ∅) 1 30 3 scenario_agitator
      0.13 0.02 0.00002 760 50 = Ok self
    ∧ working_volume self = 1
    ∧ kla self = None
    ∧ mole self !! "glucose" = Some 0
    ∧ mole self !! "Na" = None.
Proof.
  destruct (bioreactor_init_state scenario_param 0 (<["dO2" := 0]> ∅) 1 30 3
              scenario_agitator 0.13 0.02 0.00002 760 50)
    as (self & Hinit & Hvolume & _ & _ & _ & Hkla & _ & _ & _ & Hmole).
  - simpl. lra.
  - lra.
  - exists self. repeat split; try assumption.
    + rewrite Hmole. reflexivity.
    + rewrite Hmole. reflexivity.
Defined.

Lemma calc_gas_percentages_scale_invariant_witness :
  calc_gas_percentages scenario_param doubled_actuation
  = calc_gas_percentages scenario_param (scenario_actuation 3).
Proof.
  apply (calc_gas_percentages_scale_invariant scenario_param (scenario_actuation 3)
           doubled_actuation 2).
  - lra.
  - intros c Hc. cbn [gas_components scenario_param] in Hc.
    repeat (apply elem_of_cons in Hc as [-> | Hc]; [reflexivity |]).
    inversion Hc.
Defined.

Lemma carbonated_net_charge :
  net_charge scenario_param carbonated_reactor = Ok (Scaled 1 0).
Proof.
  unfold net_charge.
  cbn [mole working_volume carbonated_reactor set_mole scenario_reactor].
  replace (map_to_list (<["Cl" := 5]> (<["Na" := 5]> (<["dCO2" := 1]> ∅))))
    with [("Cl", 5); ("Na", 5); ("dCO2", 1)] by reflexivity.
  cbn [concentrations positively_charged negatively_charged scenario_param].
  repeat match goal with
         | |- context [decide (?x ∈ [?y])] =>
             let H := fresh in
             destruct (decide (x ∈ [y])) as [H | H];
             [try (apply list_elem_of_singleton in H; discriminate H)
             | try (exfalso; apply H; left)];
             try clear H
         end.
  rewrite !qdiv_ok by lra. rsimpl. rewrite !q_sum_scaled.
  cbn [q_sub in_unit]. unfold sum, Q. cbn [foldl]. do 2 f_equal. field.
Qed.

Lemma pH_falls_with_CO2_witness :
  ∃ value value',
    pH scenario_param saline_reactor = Ok value
    ∧ pH scenario_param carbonated_reactor = Ok value'
    ∧ value' <= value.
Proof.
  destruct (pH_returns scenario_param saline_reactor 0) as [value Hvalue];
    [simpl; lra | reflexivity | lra |].
  destruct (pH_returns scenario_param carbonated_reactor 1) as [value' Hvalue'];
    [simpl; lra | reflexivity | lra |].
  exists value, value'. split; [exact Hvalue |]. split; [exact Hvalue' |].
  apply (pH_falls_with_CO2 scenario_param saline_reactor carbonated_reactor
           (Scaled 1 0) 0 1 value value').
  - simpl. lra.
  - reflexivity.
  - reflexivity.
  - reflexivity.
  - lra.
  - apply saline_net_charge.
  - apply carbonated_net_charge.
  - exact Hvalue.
  - exact Hvalue'.
Defined.

Lemma temperature_probe_read_lags_witness :
  ∃ after,
    temperature_probe_read 0.2 sample_env sample_probe
    = (after, Ok (<["temperature" := tp_value after]> ∅))
    ∧ tp_value after - (37 + 0.1 + 0.2) = (1 - 0.5) * (30 - (37 + 0.1 + 0.2)).
Proof.
  destruct (proj1 (temperature_probe_read_lags 0.2 sample_env sample_probe)
              37 eq_refl) as (after & Hread & Hgap & _).
  exists after. split; assumption.
Defined.

Lemma temperature_probe_settles_in_t98_witness :
  ∃ probe,
    temperature_probe_init scenario_param 5 0.1 = Ok probe
    ∧ 0 < tp_ratio probe < 1
    ∧ tp_value (temperature_probe_reads (replicate 5 0) sample_env probe)
      - (37 + 0.1)
      = 0.02 * (30 - (37 + 0.1)).
Proof.
  apply (temperature_probe_settles_in_t98 scenario_param 5 0.1 37 sample_env 5).
  - simpl. lra.
  - lra.
  - simpl. lra.
  - reflexivity.
Defined.

Lemma cell_counter_viability_bounds_witness :
  ∃ reading viability,
    cell_counter_read 0.01 0.2 0.03 sample_env sample_cells sample_counter
    = Ok reading
    ∧ reading !! "viability" = Some viability
    ∧ 0 <= viability <= 1.
Proof.
  destruct (cell_counter_viability_bounds 0.01 0.2 0.03 sample_env sample_cells
              sample_counter 9 10 15 1)
    as (reading & viability & Hread & Hlook & Hbounds & _);
    try reflexivity; try (simpl; lra).
  exists reading, viability. repeat split; try assumption; apply Hbounds.
Defined.

Lemma pH_probe_init_calibrated_witness :
  ∃ self,
    pH_probe_init scenario_param 5 0.001 0.01 0.02 0 sample_BGA = Ok self
    ∧ ph_sys_error self = 0.01 + 0.05 + 0.02.
Proof.
  destruct (pH_probe_init_calibrated scenario_param 5 0.001 0.01 0.02 0
              sample_BGA) as (self & Hinit & Herror & _).
  - lra.
  - exists self. split; assumption.
Defined.

Lemma pH_probe_follows_reference_witness :
  ∃ after,
    pH_probe_read 0 sample_online_env
      (pH_probe_one_point 0.01 0.02 0 7
         {| ph_ratio := 0.5; ph_reference := sample_BGA; ph_drift_slope := 0.73;
            ph_sys_error := 5; ph_value := 7; ph_cal_time := None |})
    = (after, Ok (<["pH" := ph_value after]> ∅))
    ∧ ph_value after
      = 0.5 * (read_pH_value 0 sample_BGA 6.9 + (10 - 0) / 365 * 0.73
               + (0 + 0.02 + 0.01 - 0))
        + (1 - 0.5) * 7.
Proof.
  apply (pH_probe_follows_reference 0.01 0.02 0 7 0 0 10 6.9 sample_online_env
           {| ph_ratio := 0.5; ph_reference := sample_BGA; ph_drift_slope := 0.73;
              ph_sys_error := 5; ph_value := 7; ph_cal_time := None |});
    reflexivity.
Defined.

Lemma O2_probe_init_calibrated_witness :
  ∃ self,
    O2_probe_init scenario_param 5 0.002 0.003 0.1 0 sample_BGA = Ok self
    ∧ o2_sys_error self = 100 * (0.003 + 0.01) + 0.1.
Proof.
  destruct (O2_probe_init_calibrated scenario_param 5 0.002 0.003 0.1 0
              sample_BGA) as (self & Hinit & Herror & _).
  - lra.
  - exists self. split; assumption.
Defined.

Lemma wrapper_init_assays_witness :
  ∃ w,
    wrapper_init scenario_param 5 5 5 sample_draws 0 (Some tt) sample_BGA
      (Some sample_counter) (Some tt) (Some ["glucose"; "IGG"])
      true true true true false false
    = Constructed w
    ∧ offline_assays w
      = [BGA_read_value sample_BGA; bioHT_read_value tt "glucose";
         bioHT_read_value tt "IGG"; cell_counter_read_value sample_counter;
         osmo_read_value tt]
    ∧ length (online_assays w) = 4%nat.
Proof.
  destruct (wrapper_init_assays scenario_param 5 5 5 sample_draws 0 (Some tt)
              sample_BGA (Some sample_counter) (Some tt) ["glucose"; "IGG"]
              true true true true false false)
    as (w & Hinit & Hoffline & Honline & _).
  - lra.
  - lra.
  - lra.
  - discriminate.
  - exists w. repeat split; assumption.
Defined.

Lemma O2_probe_follows_reference_at_calibration_witness :
  ∃ after,
    O2_probe_read 0 sample_online_env (Some sample_molarity)
      (O2_probe_one_point 0.003 0.1 10 100 sample_O2_probe)
    = (after, Ok (<["dO2" := o2_value after]> ∅))
    ∧ o2_value after
      = 0.5 * (read_O2_value 0 sample_BGA (0.1085 * (1 / 0.00217))
               + 0.1085 * (1 / 0.00217) * ((10 - 10) / 365 * 0.002 + 0 - 0)
               + 100 * 0.003 + 0.1
               + (100 - 0.1085 * (1 / 0.00217)) * 0.01)
        + (1 - 0.5) * 100.
Proof.
  apply (O2_probe_follows_reference_at_calibration 0.003 0.1 10 100 0 0 10
           0.1085 (1 / 0.00217) sample_online_env sample_molarity
           sample_O2_probe); reflexivity.
Defined.

(** * Runs on shared and on separate dictionaries *)


(** The reactor at the end of a run of two calls of which the first
    returns. *)
Lemma run_objects_second (P : param) (h : heap) (s s1 : held)
    (a1 a2 : nat) (c1 c2 : gmap string R) (cells1 cells2 : cells_state)
    (environment : gmap string R) :
  step_object P a1 c1 cells1 (<[a1 := c1]> h) s = (s1, Ok environment) →
  reactor (run_objects P [(a1, c1, cells1); (a2, c2, cells2)] h s).1.1
  = (step P c2 cells2
       (set_old (current_old (<[a2 := c2]> (<[a1 := c1]> h)) s1) (reactor s1))).1.
Proof.
  intros Hfirst. cbn [run_objects]. rewrite Hfirst.
  unfold step_object.
  destruct (step P c2 cells2 _) as [after [final | e]]; reflexivity.
Qed.

(** The first call of the two runs: the command is remembered, in the
    dictionary at address 0. *)
Lemma scenario_first_call (after : bioreactor) (environment : gmap string R) :
  step scenario_param (scenario_actuation 3) scenario_cells scenario_reactor
  = (after, Ok environment) →
  step_object scenario_param 0 (scenario_actuation 3) scenario_cells
    (<[0%nat := scenario_actuation 3]> ∅) (constructed scenario_reactor)
  = ({| reactor := after; remembered := Some 0%nat |}, Ok environment).
Proof.
  intros Hstep. unfold step_object.
  change (current_old _ (constructed scenario_reactor))
    with (old scenario_reactor).
  cbn [constructed reactor remembered].
  rewrite set_old_old, Hstep. unfold assigns_old.
  destruct (decide (scenario_actuation 3 = old scenario_reactor)) as [E | _];
    [| reflexivity].
  exfalso. exact (scenario_actuation_not_empty 3 E).
Qed.

(** The reactor after the first call. *)
Lemma scenario_after_first_call (after : bioreactor)
    (environment : gmap string R) :
  step scenario_param (scenario_actuation 3) scenario_cells scenario_reactor
  = (after, Ok environment) →
  br_agitator after = scenario_agitator ∧ diameter after = 0.13
  ∧ br_kla_func after = scenario_closure ∧ working_volume after = 1
  ∧ mean_shear after = Some (mean_shear_rate scenario_agitator 0.13 3).
Proof.
  intros Hstep.
  pose proof (step_geometry scenario_param (scenario_actuation 3) scenario_cells
                scenario_reactor) as Hgeometry.
  rewrite Hstep in Hgeometry. cbn [fst] in Hgeometry.
  injection Hgeometry as _ Hagitator _ Hdiameter _ Hclosure _ _ _.
  destruct (step_new_volume_and_temperature scenario_param _ _ _ _ _ Hstep)
    as (lv & heat & Hlv & _ & Hvolume & _).
  assert (lv = 0) as -> by (change (Some 0 = Some lv) in Hlv; congruence).
  destruct (step_cache scenario_param (scenario_actuation 3) scenario_cells
              scenario_reactor) as [_ Hshear].
  rewrite Hstep in Hshear. cbn [fst] in Hshear.
  destruct (scenario_check_and_update 3 scenario_reactor)
    as (k3 & p3 & _ & _ & _ & Hcheck);
    try reflexivity; [lra | apply scenario_actuation_not_empty |].
  rewrite Hcheck in Hshear.
  repeat split; try assumption.
  rewrite Hvolume. cbn [working_volume scenario_reactor q_res scenario_param]. lra.
Qed.

